(** * The financial computation engine: interest, ledger totals, accounts,
      investments and the monthly report

    A shallow embedding of the pure functions of the calculation library
    ([interestCalculations], [transactionCalculations], [accountCalculations],
    [investmentCalculations], [generateMonthlyReport]) and the properties the
    specification states about them.

    A JavaScript [number] is an IEEE-754 binary64 value.  The functions are
    written once over an interface [JSNumber] of the operations they use and
    read at two instances: [Binary64], the kernel's primitive floats, which is
    the arithmetic the program runs on, and [Exact], the rationals, which is
    the arithmetic the specification's algebraic sentences are about.

    Installment counts, months and years are integers, which a double holds
    exactly; a [Date] is its time value; an object used as a dictionary is
    the finite map of the properties it has of its own, read through
    [Object.prototype] where arbitrary ids index it; [new Date()] is an
    argument [today]. *)

From Stdlib Require Import ZArith QArith Qminmax Qpower Floats List Bool
  Lia Lqa Permutation.
From stdpp Require Import base option list gmap strings.
Import ListNotations.

Set Warnings "-inexact-float".
Local Open Scope Z_scope.

(** ** Numbers *)

(** The operations on numbers used by the library.  [lit] reads an integer
    (a literal such as [100], or an integer-valued count); [strict_eq] is
    [===]; [truthy] is the conversion to boolean of [if (x)] and [!x].  Two
    facts about 0 come with them: [0 === 0], and a number that [=== 0] is
    falsy. *)
Class JSNumber := {
  number : Type;
  lit : Z -> number;
  add : number -> number -> number;
  sub : number -> number -> number;
  mul : number -> number -> number;
  div : number -> number -> number;
  Math_pow : number -> Z -> number;
  Math_max : number -> number -> number;
  strict_eq : number -> number -> bool;
  truthy : number -> bool;
  strict_eq_zero : strict_eq (lit 0) (lit 0) = true;
  zero_falsy : forall x, strict_eq x (lit 0) = true -> truthy x = false
}.

Infix "+." := add (at level 50, left associativity).
Infix "-." := sub (at level 50, left associativity).
Infix "*." := mul (at level 40, left associativity).
Infix "/." := div (at level 40, left associativity).
Infix "===" := strict_eq (at level 70, no associativity).

(** *** Doubles *)

Module F64.

(** The double nearest to an integer (round to nearest, ties to even). *)
Definition of_Z (z : Z) : float :=
  SF2Prim (binary_normalize prec emax z 0 false).

(** [Math.max] of two numbers: NaN when either is NaN, and [+0] above
    [-0]. *)
Definition max (a b : float) : float :=
  if (PrimFloat.is_nan a || PrimFloat.is_nan b)%bool then PrimFloat.nan
  else if PrimFloat.ltb a b then b
  else if PrimFloat.ltb b a then a
  else if PrimFloat.get_sign a then b else a.

(** ECMAScript leaves the precision of [Math.pow] to the implementation.
    This stand-in multiplies [n] times (and inverts for a negative [n]); it
    is exact on the special cases the standard fixes ([pow x 0 = 1],
    [pow 1 n = 1]), and nothing below depends on its rounding. *)
Definition pow (x : float) (n : Z) : float :=
  let p := Nat.iter (Z.to_nat (Z.abs n)) (fun acc => PrimFloat.mul acc x)
                    PrimFloat.one in
  if (n <? 0)%Z then PrimFloat.div PrimFloat.one p else p.

(** [ToBoolean]: [+0], [-0] and NaN are falsy. *)
Definition truthy (x : float) : bool :=
  negb (PrimFloat.is_nan x || PrimFloat.is_zero x).



Lemma zero_falsy (x : float) :
  PrimFloat.eqb x (of_Z 0) = true -> truthy x = false.
Proof.
  intros H. unfold truthy, PrimFloat.is_zero.
  change PrimFloat.zero with (of_Z 0). rewrite H.
  rewrite orb_true_r. reflexivity.
Qed.

End F64.

#[export] Instance Binary64 : JSNumber := {|
  number := float;
  lit := F64.of_Z;
  add := PrimFloat.add;
  sub := PrimFloat.sub;
  mul := PrimFloat.mul;
  div := PrimFloat.div;
  Math_pow := F64.pow;
  Math_max := F64.max;
  strict_eq := PrimFloat.eqb;
  truthy := F64.truthy;
  strict_eq_zero := eq_refl;
  zero_falsy := F64.zero_falsy
|}.

(** *** Exact arithmetic *)

Lemma Q_zero_falsy (x : Q) :
  Qeq_bool x (inject_Z 0) = true -> negb (Qeq_bool x 0) = false.
Proof. intros H. change 0%Q with (inject_Z 0). rewrite H. reflexivity. Qed.

Definition Exact : JSNumber := {|
  number := Q;
  lit := inject_Z;
  add := Qplus;
  sub := Qminus;
  mul := Qmult;
  div := Qdiv;
  Math_pow := Qpower;
  Math_max := Qmax;
  strict_eq := Qeq_bool;
  truthy := fun x => negb (Qeq_bool x 0);
  strict_eq_zero := eq_refl;
  zero_falsy := Q_zero_falsy
|}.

(** Powers with a natural exponent, and the geometric sum
    [1 + x + ... + x^(m-1)], in which the amortization formulas are read. *)
Fixpoint qpow (x : Q) (m : nat) : Q :=
  match m with
  | O => 1%Q
  | S m => (x * qpow x m)%Q
  end.

Fixpoint geometric (x : Q) (m : nat) : Q :=
  match m with
  | O => 0%Q
  | S m => (geometric x m + qpow x m)%Q
  end.

(** ** Dates *)

(** A [Date] is its time value: milliseconds since the epoch, UTC.  Relational
    operators on dates compare time values. *)
Definition Date := Z.

Definition msPerDay : Z := 24 * 60 * 60 * 1000.

(** The day arithmetic behind [new Date(year, month, day)], as ECMAScript
    defines it: day numbers count from 1 January 1970, and a local time is
    turned into a time value by taking the offset of local time away. *)
Module Calendar.

Definition InLeapYear (y : Z) : bool :=
  ((y mod 4 =? 0) && negb (y mod 100 =? 0)) || (y mod 400 =? 0).

Definition DayFromYear (y : Z) : Z :=
  365 * (y - 1970) + (y - 1969) / 4 - (y - 1901) / 100 + (y - 1601) / 400.

(** Days from 1 January to the first day of month [mn] (0 = January). *)
Definition DayWithinYear (leap : bool) (mn : Z) : Z :=
  let l := if leap then 1 else 0 in
  match mn with
  | 0 => 0 | 1 => 31 | 2 => 59 + l | 3 => 90 + l | 4 => 120 + l
  | 5 => 151 + l | 6 => 181 + l | 7 => 212 + l | 8 => 243 + l
  | 9 => 273 + l | 10 => 304 + l | _ => 334 + l
  end.

Definition DaysInMonth (leap : bool) (mn : Z) : Z :=
  match mn with
  | 1 => if leap then 29 else 28
  | 3 | 5 | 8 | 10 => 30
  | _ => 31
  end.

(** The day number of day [dt] of month [month] (0-based, any integer) of
    [year]: months carry into years, and days count on from the first of the
    month, so day 0 is the last day of the month before. *)
Definition MakeDay (year month dt : Z) : Z :=
  let ym := year + month / 12 in
  let mn := month mod 12 in
  DayFromYear ym + DayWithinYear (InLeapYear ym) mn + dt - 1.

Definition MakeDate (day time : Z) : Z := day * msPerDay + time.

Section Local.
(** The offset of local time at a local time value, which the host
    supplies. *)
Variable LocalTZA : Z -> Z.

Definition UTC (t : Z) : Z := t - LocalTZA t.

(** [new Date(year, month, dt)]: local midnight of that day; a year in
    0..99 means 1900 + year. *)
Definition new_Date (year month dt : Z) : Date :=
  let yr := if (0 <=? year) && (year <=? 99) then 1900 + year else year in
  UTC (MakeDate (MakeDay yr month dt) 0).
End Local.

End Calendar.

(** ** Entities *)

Inductive TransactionType :=
  | receita | despesa | divida | credito | investimento | cartao_credito
  | transferencia.

Inductive TransactionStatus := pendente | concluida | cancelada.

Inductive InvestmentType :=
  | renda_fixa | renda_variavel | fundos | criptomoedas | outros.

#[export] Instance TransactionType_eq_dec : EqDecision TransactionType.
Proof. solve_decision. Defined.

#[export] Instance TransactionStatus_eq_dec : EqDecision TransactionStatus.
Proof. solve_decision. Defined.

(** The property name an investment type is stored under. *)
Definition InvestmentType_key (ty : InvestmentType) : string :=
  match ty with
  | renda_fixa => "renda_fixa"
  | renda_variavel => "renda_variavel"
  | fundos => "fundos"
  | criptomoedas => "criptomoedas"
  | outros => "outros"
  end.

(** [xs.includes(x)] *)
Definition includes {A} `{EqDecision A} (xs : list A) (x : A) : bool :=
  existsb (fun y => bool_decide (y = x)) xs.

(** Truthiness of an optional integer count: [undefined] and [0] are falsy. *)
Definition truthy_count (o : option Z) : bool :=
  match o with
  | Some z => negb (z =? 0)
  | None => false
  end.

Section Engine.
Context {N : JSNumber}.

(** The fields of the entities that the calculations read.  Money and rates
    are numbers; [installments] and [currentInstallment] are integer counts;
    an optional field is [None] when it is [undefined]. *)
Record Transaction := {
  tx_id : string;
  tx_type : TransactionType;
  tx_amount : number;
  tx_accountId : string;
  tx_categoryId : string;
  tx_date : Date;
  tx_scheduledDate : option Date;
  tx_status : TransactionStatus;
  tx_interestRate : option number;
  tx_installments : option Z;
  tx_currentInstallment : option Z
}.

Record Account := {
  acc_id : string;
  acc_balance : number;
  acc_initialBalance : number;
  acc_isActive : bool
}.

Record Investment := {
  inv_id : string;
  inv_type : InvestmentType;
  inv_amount : number;
  inv_currentValue : number;
  inv_isActive : bool
}.

(** *** Object literals indexed by ids

    [categoryBreakdown] and [accountBalances] of the monthly report are
    object literals indexed by ids, which are arbitrary strings, and their
    prototype is [Object.prototype].  A map below holds the properties that
    such an object has of its own. *)

(** The names of the properties of [Object.prototype]: methods, each a
    writable data property, and the accessor [__proto__]. *)
Definition Object_prototype : list string :=
  [ "constructor"; "__defineGetter__"; "__defineSetter__"; "hasOwnProperty";
    "__lookupGetter__"; "__lookupSetter__"; "isPrototypeOf";
    "propertyIsEnumerable"; "toString"; "valueOf"; "__proto__";
    "toLocaleString" ].

Definition inherited (key : string) : bool :=
  existsb (String.eqb key) Object_prototype.

(** What a property of such an object reads as: a number; the function or
    object that [Object.prototype] has under [name]; a string, which is the
    text of that function or object followed by the texts of the numbers
    [appended], one after the other; or [undefined]. *)
Inductive JSValue :=
  | Num (x : number)
  | Inherited (name : string)
  | Text (name : string) (appended : list number)
  | Undefined.

(** [obj[key]]: the property of the object's own, else the one of the
    prototype, else [undefined]. *)
Definition Get (obj : gmap string JSValue) (key : string) : JSValue :=
  match obj !! key with
  | Some value => value
  | None => if inherited key then Inherited key else Undefined
  end.

(** [obj[key] = value] for a value that is a number or a string.  Under
    [__proto__] the assignment calls the setter of the prototype, which
    ignores a value that is neither an object nor null; under any other name
    the object gets a property of its own, or the one it has is updated. *)
Definition Put {V} (obj : gmap string V) (key : string) (value : V)
  : gmap string V :=
  if String.eqb key "__proto__" then obj else <[key := value]> obj.

(** [ToBoolean]: functions, objects and strings that are not empty are
    truthy, [undefined] is falsy. *)
Definition ToBoolean (value : JSValue) : bool :=
  match value with
  | Num x => truthy x
  | Inherited _ | Text _ _ => true
  | Undefined => false
  end.

(** [value + amount] for a number [amount]: two numbers are added; a
    function, an object or a string is turned into its text, and the text of
    the number is appended; [undefined + amount] is NaN, the number that
    [0 / 0] is. *)
Definition plus (value : JSValue) (amount : number) : JSValue :=
  match value with
  | Num x => Num (x +. amount)
  | Inherited name => Text name [amount]
  | Text name appended => Text name (appended ++ [amount])
  | Undefined => Num (lit 0 /. lit 0)
  end.

Record MonthlyReport := {
  month : Z;
  year : Z;
  totalIncome : number;
  totalExpenses : number;
  balance : number;
  categoryBreakdown : gmap string JSValue;
  accountBalances : gmap string number
}.

(** Truthiness of an optional number. *)
Definition truthy_opt (o : option number) : bool :=
  match o with
  | Some x => truthy x
  | None => false
  end.

(** *** interestCalculations *)

Definition installmentPayment (principal rate : number) (periods : Z)
  : number :=
  if rate === lit 0 then principal /. lit periods
  else
    let monthlyRate := rate /. lit 100 /. lit 12 in
    principal *. (monthlyRate *. Math_pow (lit 1 +. monthlyRate) periods)
      /. (Math_pow (lit 1 +. monthlyRate) periods -. lit 1).

(** One turn of the schedule walk of [remainingBalance]. *)
Definition pay_period (monthlyRate installment balance : number) : number :=
  let interestPayment := balance *. monthlyRate in
  let principalPayment := installment -. interestPayment in
  balance -. principalPayment.

Definition remainingBalance (principal rate : number)
    (totalPeriods paidPeriods : Z) : number :=
  if rate === lit 0
  then principal *. (lit totalPeriods -. lit paidPeriods) /. lit totalPeriods
  else
    let monthlyRate := rate /. lit 100 /. lit 12 in
    let installment :=
      installmentPayment principal (rate *. lit 12) totalPeriods in
    let balance :=
      Nat.iter (Z.to_nat paidPeriods) (pay_period monthlyRate installment)
               principal in
    Math_max (lit 0) balance.

(** *** transactionCalculations *)

(** [.reduce((sum, t) => sum + t.amount, 0)] *)
Definition sum_amounts (ts : list Transaction) : number :=
  fold_left (fun sum t => sum +. tx_amount t) ts (lit 0).

Definition getTotalByType (transactions : list Transaction)
    (type : TransactionType) : number :=
  sum_amounts
    (List.filter (fun t => bool_decide (tx_type t = type)
                           && bool_decide (tx_status t = concluida))
                 transactions).

Definition getTotalIncome (transactions : list Transaction) : number :=
  sum_amounts
    (List.filter (fun t => bool_decide (tx_type t = receita)
                           && bool_decide (tx_status t = concluida))
                 transactions).

Definition getTotalExpenses (transactions : list Transaction) : number :=
  sum_amounts
    (List.filter (fun t => includes [despesa; cartao_credito] (tx_type t)
                           && bool_decide (tx_status t = concluida))
                 transactions).

(** What one active debt adds to the total of debts. *)
Definition debt_term (sum : number) (t : Transaction) : number :=
  match tx_installments t, tx_currentInstallment t, tx_interestRate t with
  | Some installments, Some currentInstallment, Some interestRate =>
      if truthy_count (Some installments)
         && truthy_count (Some currentInstallment)
         && truthy interestRate
      then
        let remaining :=
          remainingBalance (tx_amount t) interestRate installments
                           (currentInstallment - 1) in
        sum +. remaining
      else sum +. tx_amount t
  | _, _, _ => sum +. tx_amount t
  end.

Definition getTotalDebts (transactions : list Transaction) : number :=
  fold_left debt_term
    (List.filter (fun t => bool_decide (tx_type t = divida)
                           && negb (bool_decide (tx_status t = cancelada)))
                 transactions)
    (lit 0).

Definition getNetBalance (transactions : list Transaction) : number :=
  let income := getTotalIncome transactions in
  let expenses := getTotalExpenses transactions in
  income -. expenses.

Definition getTransactionsByPeriod (transactions : list Transaction)
    (startDate endDate : Date) : list Transaction :=
  List.filter (fun t =>
                 let transactionDate := tx_date t in
                 (transactionDate >=? startDate)
                 && (transactionDate <=? endDate))
              transactions.

(** The date a pending transaction is due: [scheduledDate] when it is set,
    [date] otherwise. *)
Definition effective_date (t : Transaction) : Date :=
  match tx_scheduledDate t with
  | Some d => d
  | None => tx_date t
  end.

(** [today] is the value of [new Date()] at the call; [days] is 30 when the
    caller leaves it out. *)
Definition getFutureTransactions (today : Date)
    (transactions : list Transaction) (days : Z) : list Transaction :=
  let futureDate := today + days * 24 * 60 * 60 * 1000 in
  List.filter (fun t =>
                 if negb (bool_decide (tx_status t = pendente)) then false
                 else
                   let scheduledDate := effective_date t in
                   (scheduledDate >=? today)
                   && (scheduledDate <=? futureDate))
              transactions.

Definition getOverdueTransactions (today : Date)
    (transactions : list Transaction) : list Transaction :=
  List.filter (fun t =>
                 if negb (bool_decide (tx_status t = pendente)) then false
                 else
                   let dueDate := effective_date t in
                   dueDate <? today)
              transactions.

(** *** accountCalculations *)

Definition getTotalBalance (accounts : list Account) : number :=
  fold_left (fun sum a => sum +. acc_balance a)
            (List.filter acc_isActive accounts) (lit 0).

(** The effect of one posted transaction on a balance. *)
Definition post (balance : number) (t : Transaction) : number :=
  if includes [receita; credito] (tx_type t) then balance +. tx_amount t
  else if includes [despesa; divida; cartao_credito; investimento]
                   (tx_type t)
  then balance -. tx_amount t
  else balance.

Definition updateAccountBalance (account : Account)
    (transactions : list Transaction) : number :=
  let accountTransactions :=
    List.filter (fun t => String.eqb (tx_accountId t) (acc_id account)
                          && bool_decide (tx_status t = concluida))
                transactions in
  fold_left post accountTransactions (acc_initialBalance account).

(** *** Objects used as maps from property names to numbers *)

#[local] Instance number_inhabited : Inhabited number := populate (lit 0).

(** [if (!obj[key]) obj[key] = 0; obj[key] += value] under a key that is
    the name of an investment type, none of which is a property every object
    inherits. *)
Definition accumulate (obj : gmap string number) (key : string)
    (value : number) : gmap string number :=
  let obj1 :=
    if negb (truthy_opt (obj !! key)) then <[key := lit 0]> obj else obj in
  <[key := (obj1 !!! key) +. value]> obj1.

(** *** investmentCalculations *)

Definition getTotalInvestments (investments : list Investment) : number :=
  fold_left (fun sum i => sum +. inv_currentValue i)
            (List.filter inv_isActive investments) (lit 0).

Definition getInvestmentAllocation (investments : list Investment)
  : gmap string number :=
  let allocation : gmap string number := ∅ in
  let total := getTotalInvestments investments in
  if total === lit 0 then allocation
  else
    fold_left (fun allocation investment =>
                 accumulate allocation
                   (InvestmentType_key (inv_type investment))
                   (inv_currentValue investment /. total *. lit 100))
              (List.filter inv_isActive investments) allocation.

(** *** The monthly report *)

(** [if (!categoryBreakdown[id]) { categoryBreakdown[id] = 0; }
    categoryBreakdown[id] += amount;] *)
Definition add_to_category (categoryBreakdown : gmap string JSValue)
    (id : string) (amount : number) : gmap string JSValue :=
  let categoryBreakdown1 :=
    if negb (ToBoolean (Get categoryBreakdown id))
    then Put categoryBreakdown id (Num (lit 0))
    else categoryBreakdown in
  Put categoryBreakdown1 id (plus (Get categoryBreakdown1 id) amount).

Section Report.
Variable LocalTZA : Z -> Z.

Definition generateMonthlyReport (transactions : list Transaction)
    (accounts : list Account) (month year : Z) : MonthlyReport :=
  let startDate := Calendar.new_Date LocalTZA year (month - 1) 1 in
  let endDate := Calendar.new_Date LocalTZA year month 0 in
  let monthlyTransactions :=
    getTransactionsByPeriod transactions startDate endDate in
  let totalIncome := getTotalIncome monthlyTransactions in
  let totalExpenses := getTotalExpenses monthlyTransactions in
  let balance := totalIncome -. totalExpenses in
  let categoryBreakdown :=
    fold_left (fun obj t => add_to_category obj (tx_categoryId t) (tx_amount t))
              monthlyTransactions (∅ : gmap string JSValue) in
  let accountBalances :=
    fold_left (fun obj account =>
                 Put obj (acc_id account) (acc_balance account))
              accounts (∅ : gmap string number) in
  {| month := month;
     year := year;
     totalIncome := totalIncome;
     totalExpenses := totalExpenses;
     balance := balance;
     categoryBreakdown := categoryBreakdown;
     accountBalances := accountBalances |}.
End Report.

End Engine.


(** ** The specification's vocabulary *)

Section Vocabulary.
Context {N : JSNumber}.

(** An active liability: a debt that is not canceled. *)
Definition active_debt (t : Transaction) : Prop :=
  tx_type t = divida /\ tx_status t <> cancelada.

(** A transaction that counts for an account: posted against it and
    completed. *)
Definition posted_to (account : Account) (t : Transaction) : Prop :=
  tx_accountId t = acc_id account /\ tx_status t = concluida.

(** The installment data of a transaction whose three installment fields are
    all set to truthy values: the counts are not 0 and the rate is neither 0
    nor NaN. *)
Definition installment_plan (t : Transaction) (installments current : Z)
    (rate : number) : Prop :=
  tx_installments t = Some installments /\ installments <> 0 /\
  tx_currentInstallment t = Some current /\ current <> 0 /\
  tx_interestRate t = Some rate /\ truthy rate = true.

(** The balances that [getTotalBalance] adds, in the order it adds them. *)
Definition active_balances (accounts : list Account) : list number :=
  map acc_balance (List.filter acc_isActive accounts).

(** What [if (!obj[key]) obj[key] = 0; obj[key] += value] leaves under [key],
    given what was there. *)
Definition bump (current : option number) (value : number) : number :=
  match current with
  | Some x => if truthy x then x +. value else lit 0 +. value
  | None => lit 0 +. value
  end.

(** The entry that accumulating [values] one after the other builds, from no
    entry at all. *)
Definition accumulated (values : list number) : option number :=
  fold_left (fun current v => Some (bump current v)) values None.

(** The left-to-right sum, from 0. *)
Definition total (values : list number) : number :=
  fold_left add values (lit 0).

(** Adding [values] one after the other to [acc] never meets a falsy partial
    sum, so that accumulating never restarts from 0. *)
Fixpoint steady (acc : number) (values : list number) : bool :=
  match values with
  | [] => true
  | v :: rest => truthy acc && steady (acc +. v) rest
  end.

(** Every partial sum of [values] that a later addition builds on is truthy. *)
Definition sums_stay_truthy (values : list number) : bool :=
  match values with
  | [] => true
  | v :: rest => steady (lit 0 +. v) rest
  end.

(** The amounts of the transactions of [txns] filed under [category], in
    ledger order. *)
Definition amounts_of (category : string) (txns : list Transaction)
    : list number :=
  map tx_amount
      (List.filter (fun t => String.eqb (tx_categoryId t) category) txns).

(** What the breakdown of a monthly report holds under [category] once
    the amounts [values] were filed under it, one after the other: the
    accumulated number under an id that names no property of
    [Object.prototype]; under one that does, a string as soon as there is an
    amount, which starts with the text of the inherited function and goes
    on with the texts of the amounts; and nothing ever under [__proto__]. *)
Definition held (category : string) (values : list number)
    : option JSValue :=
  if String.eqb category "__proto__" then None
  else if inherited category then
    match values with
    | [] => None
    | _ => Some (Text category values)
    end
  else option_map Num (accumulated values).

(** The percentage of [total] that an investment's current value is. *)
Definition share (total : number) (i : Investment) : number :=
  inv_currentValue i /. total *. lit 100.

(** The shares of the active investments stored under [key], in order. *)
Definition shares_of (key : string) (total : number)
    (investments : list Investment) : list number :=
  map (share total)
      (List.filter (fun i => String.eqb (InvestmentType_key (inv_type i)) key)
                   (List.filter inv_isActive investments)).

End Vocabulary.

(** ** Sample data

    Concrete ledgers on doubles, on which the statements below are run. *)

Module Sample.

Definition tx (type : TransactionType) (status : TransactionStatus)
    (amount : float) : Transaction (N := Binary64) :=
  {| tx_id := "t1"; tx_type := type; tx_amount := amount;
     tx_accountId := "acc1"; tx_categoryId := "cat1";
     tx_date := 1704067200000; tx_scheduledDate := None;
     tx_status := status; tx_interestRate := None;
     tx_installments := None; tx_currentInstallment := None |}.

(** A debt in [installments] parts at a monthly [rate], now at part
    [current]. *)
Definition debt (status : TransactionStatus) (amount rate : float)
    (installments current : Z) : Transaction (N := Binary64) :=
  {| tx_id := "d1"; tx_type := divida; tx_amount := amount;
     tx_accountId := "acc1"; tx_categoryId := "cat2";
     tx_date := 1704067200000; tx_scheduledDate := None;
     tx_status := status; tx_interestRate := Some rate;
     tx_installments := Some installments;
     tx_currentInstallment := Some current |}.

Definition ledger : list (Transaction (N := Binary64)) :=
  [ tx receita concluida 500; tx despesa concluida 200;
    tx cartao_credito concluida 50; tx divida pendente 300 ].

(** Twelve interest-free parts of 100, six of them paid. *)
Definition interest_free : Transaction (N := Binary64) :=
  debt pendente 1200 0 12 7.

Definition account (id : string) (balance initialBalance : float)
    (isActive : bool) : Account (N := Binary64) :=
  {| acc_id := id; acc_balance := balance;
     acc_initialBalance := initialBalance; acc_isActive := isActive |}.

(** A transaction of [acc1] due at [scheduledDate]. *)
Definition scheduled (status : TransactionStatus) (date scheduledDate : Date)
    : Transaction (N := Binary64) :=
  {| tx_id := "s1"; tx_type := despesa; tx_amount := 80%float;
     tx_accountId := "acc1"; tx_categoryId := "cat1";
     tx_date := date; tx_scheduledDate := Some scheduledDate;
     tx_status := status; tx_interestRate := None;
     tx_installments := None; tx_currentInstallment := None |}.

Definition investment (type : InvestmentType) (currentValue : float)
    (isActive : bool) : Investment (N := Binary64) :=
  {| inv_id := "i1"; inv_type := type; inv_amount := currentValue;
     inv_currentValue := currentValue; inv_isActive := isActive |}.

Definition portfolio : list (Investment (N := Binary64)) :=
  [ investment renda_fixa 300 true; investment fundos 600 false;
    investment renda_fixa 100 true ].

(** A transaction of category [cat1] dated [date]. *)
Definition dated (type : TransactionType) (status : TransactionStatus)
    (amount : float) (date : Date) : Transaction (N := Binary64) :=
  {| tx_id := "m1"; tx_type := type; tx_amount := amount;
     tx_accountId := "acc1"; tx_categoryId := "cat1";
     tx_date := date; tx_scheduledDate := None;
     tx_status := status; tx_interestRate := None;
     tx_installments := None; tx_currentInstallment := None |}.

(** 15 January 2024, 31 January 2024 and 15 February 2024, at 12:00 UTC. *)
Definition mid_january : Date := 1705320000000.
Definition end_january : Date := 1706702400000.
Definition mid_february : Date := 1707998400000.

(** A completed income, a pending expense and a canceled debt in mid
    January, a completed income at noon on the last day of January, and one
    in February. *)
Definition two_months : list (Transaction (N := Binary64)) :=
  [ dated receita concluida 500 mid_january;
    dated despesa pendente 200 mid_january;
    dated divida cancelada 900 mid_january;
    dated receita concluida 30 end_january;
    dated receita concluida 70 mid_february ].

Definition accounts : list (Account (N := Binary64)) :=
  [ account "acc1" 1300 1000 true; account "acc2" 40 0 false ].

(** A completed expense of mid January filed under [category]. *)
Definition filed (category : string) (amount : float)
    : Transaction (N := Binary64) :=
  {| tx_id := "f1"; tx_type := despesa; tx_amount := amount;
     tx_accountId := "acc1"; tx_categoryId := category;
     tx_date := mid_january; tx_scheduledDate := None;
     tx_status := concluida; tx_interestRate := None;
     tx_installments := None; tx_currentInstallment := None |}.

(** Categories and accounts whose ids name properties of
    [Object.prototype]. *)
Definition inherited_ids : list (Transaction (N := Binary64)) :=
  [ filed "constructor" 10; filed "cat1" 5; filed "constructor" 20;
    filed "__proto__" 7 ].

Definition inherited_accounts : list (Account (N := Binary64)) :=
  [ account "__proto__" 100 0 true; account "constructor" 40 0 true ].

(** Local time three hours behind UTC. *)
Definition utc_minus_3 (t : Z) : Z := - (3 * 60 * 60 * 1000).

(** An account held in exact arithmetic. *)
Definition exact_account (id : string) (balance : Q) (isActive : bool)
    : Account (N := Exact) :=
  @Build_Account Exact id balance 0%Q isActive.

(** 1 March 2024, 12:00 UTC. *)
Definition today : Date := 1709294400000.

End Sample.

(** ** The rest of the calculation library *)

(** [<] on numbers; [a > b] is [b < a]. *)
Class JSOrder (N : JSNumber) := {
  js_lt : number -> number -> bool
}.

#[export] Instance Binary64_order : JSOrder Binary64 := {|
  js_lt := PrimFloat.ltb
|}.

Definition Exact_order : JSOrder Exact :=
  @Build_JSOrder Exact (fun x y : Q => negb (Qle_bool y x)).

Section Library.
Context {N : JSNumber}.

(** *** Simple and compound interest *)

Definition simpleInterest (principal rate time : number) : number :=
  principal *. (rate /. lit 100) *. time.

Section Compounding.
(** [Math.pow] with a number for exponent. *)
Variable pow : number -> number -> number.

(** The factor [Math.pow(1 + (rate / 100) / frequency, frequency * time)]
    by which the three functions below multiply or divide. *)
Definition growth (rate time frequency : number) : number :=
  pow (lit 1 +. (rate /. lit 100) /. frequency) (frequency *. time).

(** [frequency] is 12 when the caller leaves it out. *)
Definition compoundInterest (principal rate time frequency : number)
  : number :=
  principal *. pow (lit 1 +. (rate /. lit 100) /. frequency)
                   (frequency *. time)
  -. principal.

Definition futureValue (principal rate time frequency : number) : number :=
  principal *. pow (lit 1 +. (rate /. lit 100) /. frequency)
                   (frequency *. time).

Definition presentValue (futureValue rate time frequency : number) : number :=
  futureValue /. pow (lit 1 +. (rate /. lit 100) /. frequency)
                     (frequency *. time).
End Compounding.

(** *** Projected balance *)

Definition getProjectedBalance (today : Date) (account : Account)
    (transactions : list Transaction) (days : Z) : number :=
  let futureTransactions :=
    List.filter (fun t => String.eqb (tx_accountId t) (acc_id account))
                (getFutureTransactions today transactions days) in
  fold_left post futureTransactions (acc_balance account).

(** *** Returns of an investment *)

Definition getInvestmentReturn (investment : Investment) : number :=
  inv_currentValue investment -. inv_amount investment.

Definition getInvestmentReturnPercentage (investment : Investment) : number :=
  if inv_amount investment === lit 0 then lit 0
  else (inv_currentValue investment -. inv_amount investment)
         /. inv_amount investment *. lit 100.

(** *** creditCardCalculations *)

Record CreditCard := {
  cc_id : string;
  cc_limit : number;
  cc_usedLimit : number;
  cc_dueDate : Z;
  cc_closingDate : Z;
  cc_interestRate : number;
  cc_isActive : bool
}.

Definition getAvailableLimit (creditCard : CreditCard) : number :=
  cc_limit creditCard -. cc_usedLimit creditCard.

Definition getLimitUsagePercentage (creditCard : CreditCard) : number :=
  if cc_limit creditCard === lit 0 then lit 0
  else cc_usedLimit creditCard /. cc_limit creditCard *. lit 100.

Definition getRotativeInterest (creditCard : CreditCard) (amount days : number)
  : number :=
  let dailyRate := cc_interestRate creditCard /. lit 100 /. lit 30 in
  amount *. dailyRate *. days.

(** *** The financial summary *)

Record FinancialSummary := {
  fs_totalBalance : number;
  fs_totalIncome : number;
  fs_totalExpenses : number;
  fs_totalInvestments : number;
  fs_totalDebts : number;
  fs_monthlyBalance : number;
  fs_upcomingTransactions : list Transaction;
  fs_overdueTransactions : list Transaction
}.

(** The two lists each read the clock: [today_upcoming] is the value of
    [new Date()] inside [getFutureTransactions], and [today_overdue] the one
    inside [getOverdueTransactions], which is called after it. *)
Definition generateFinancialSummary (today_upcoming today_overdue : Date)
    (transactions : list Transaction) (accounts : list Account)
    (investments : list Investment) : FinancialSummary :=
  let totalBalance := getTotalBalance accounts in
  let totalIncome := getTotalIncome transactions in
  let totalExpenses := getTotalExpenses transactions in
  let totalInvestments := getTotalInvestments investments in
  let totalDebts := getTotalDebts transactions in
  let monthlyBalance := totalIncome -. totalExpenses in
  let upcomingTransactions :=
    getFutureTransactions today_upcoming transactions 30 in
  let overdueTransactions :=
    getOverdueTransactions today_overdue transactions in
  {| fs_totalBalance := totalBalance;
     fs_totalIncome := totalIncome;
     fs_totalExpenses := totalExpenses;
     fs_totalInvestments := totalInvestments;
     fs_totalDebts := totalDebts;
     fs_monthlyBalance := monthlyBalance;
     fs_upcomingTransactions := upcomingTransactions;
     fs_overdueTransactions := overdueTransactions |}.

(** *** The summary component *)

Section Component.
Context {O : JSOrder N}.

(** [0.1] and [0.5]: the doubles nearest to the quotients 1/10 and 1/2. *)
Definition one_tenth : number := lit 1 /. lit 10.
Definition one_half : number := lit 1 /. lit 2.

(** The points of [getHealthScore] before they are clamped.  The score is a
    small integer, which a double holds exactly. *)
Definition health_points (summary : FinancialSummary) : Z :=
  let score := 50 in
  let score :=
    if js_lt (lit 0) (fs_totalBalance summary) then score + 20 else score in
  let score :=
    if js_lt (lit 0) (fs_monthlyBalance summary) then score + 15 else score in
  let score :=
    if js_lt (fs_totalBalance summary *. one_tenth)
             (fs_totalInvestments summary)
    then score + 10 else score in
  let score :=
    if (length (fs_overdueTransactions summary) =? 0)%nat
    then score + 5 else score in
  let score :=
    if js_lt (fs_totalBalance summary *. one_half) (fs_totalDebts summary)
    then score - 20 else score in
  let score :=
    if js_lt (fs_monthlyBalance summary) (lit 0) then score - 15 else score in
  let score :=
    if (0 <? length (fs_overdueTransactions summary))%nat
    then score - 10 else score in
  score.

Definition getHealthScore (summary : FinancialSummary) : Z :=
  Z.max 0 (Z.min 100 (health_points summary)).

(** The figures of the investment card. *)
Record InvestmentData := {
  totalInvested : number;
  totalCurrentValue : number;
  totalReturn : number;
  returnPercentage : number
}.

Definition investmentData (investments : list Investment) : InvestmentData :=
  let totalInvested :=
    fold_left (fun sum inv => sum +. inv_amount inv) investments (lit 0) in
  let totalCurrentValue := getTotalInvestments investments in
  let totalReturn := totalCurrentValue -. totalInvested in
  let returnPercentage :=
    if js_lt (lit 0) totalInvested
    then totalReturn /. totalInvested *. lit 100
    else lit 0 in
  {| totalInvested := totalInvested;
     totalCurrentValue := totalCurrentValue;
     totalReturn := totalReturn;
     returnPercentage := returnPercentage |}.

(** The bills shown on the summary: the first five upcoming transactions
    that are an expense, a debt or a card charge. *)
Definition upcomingBills (summary : FinancialSummary) : list Transaction :=
  firstn 5
    (List.filter (fun t => includes [despesa; divida; cartao_credito]
                                    (tx_type t))
                 (fs_upcomingTransactions summary)).
End Component.

End Library.

(** ** Pending transactions that fall due *)

Section Due.
Context {N : JSNumber}.

(** A pending transaction whose effective date lies within [days] days from
    [today], both ends included. *)
Definition due_within (today : Date) (days : Z) (t : Transaction) : Prop :=
  tx_status t = pendente
  /\ today <= effective_date t <= today + days * msPerDay.

Definition is_due (today : Date) (days : Z) (t : Transaction) : bool :=
  bool_decide (tx_status t = pendente)
  && (today <=? effective_date t)
  && (effective_date t <=? today + days * msPerDay).

(** The transaction, completed. *)
Definition completed (t : Transaction) : Transaction :=
  {| tx_id := tx_id t;
     tx_type := tx_type t;
     tx_amount := tx_amount t;
     tx_accountId := tx_accountId t;
     tx_categoryId := tx_categoryId t;
     tx_date := tx_date t;
     tx_scheduledDate := tx_scheduledDate t;
     tx_status := concluida;
     tx_interestRate := tx_interestRate t;
     tx_installments := tx_installments t;
     tx_currentInstallment := tx_currentInstallment t |}.

(** The ledger once every transaction due within [days] is completed. *)
Definition settle (today : Date) (days : Z) (txns : list Transaction)
  : list Transaction :=
  map (fun t => if is_due today days t then completed t else t) txns.

End Due.

(** ** The allocation as a whole *)

Definition InvestmentTypes : list InvestmentType :=
  [renda_fixa; renda_variavel; fundos; criptomoedas; outros].

(** The percentages of an allocation added up, over the keys an allocation
    can hold. *)
Definition allocation_total (allocation : gmap string Q) : Q :=
  fold_right
    (fun type sum =>
       (default 0%Q (allocation !! InvestmentType_key type) + sum)%Q)
    0%Q InvestmentTypes.

(** ** The schedule of a loan, in exact arithmetic *)

(** The monthly rate [rate / 100 / 12] that the code reads a [rate] as. *)
Definition monthly (rate : Q) : Q := (rate / inject_Z 100 / inject_Z 12)%Q.

(** The balance after [k] payments of [installment] on [principal], with
    interest accruing at the monthly rate of [rate]: the walk of
    [remainingBalance], for any installment. *)
Definition schedule (principal rate installment : Q) (k : nat) : Q :=
  Nat.iter k (pay_period (N := Exact) (monthly rate) installment) principal.

(** ** The fields of a date

    ECMAScript's [YearFromTime] and [MonthFromTime], which [getFullYear] and
    [getMonth] apply to the local time. *)

Module DateFields.

Definition Day (t : Z) : Z := t / msPerDay.

(** The largest year whose first day is not after the day of [t]: a year is
    146097/400 days on average, which places it within one year. *)
Definition YearFromTime (t : Z) : Z :=
  let day := Day t in
  let y := 1970 + 400 * day / 146097 in
  if Calendar.DayFromYear (y + 1) <=? day then y + 1
  else if Calendar.DayFromYear y <=? day then y
  else y - 1.

(** The month (0 = January) in which the day of [t] falls. *)
Definition MonthFromTime (t : Z) : Z :=
  let y := YearFromTime t in
  let leap := Calendar.InLeapYear y in
  let d := Day t - Calendar.DayFromYear y in
  if d <? Calendar.DayWithinYear leap 1 then 0
  else if d <? Calendar.DayWithinYear leap 2 then 1
  else if d <? Calendar.DayWithinYear leap 3 then 2
  else if d <? Calendar.DayWithinYear leap 4 then 3
  else if d <? Calendar.DayWithinYear leap 5 then 4
  else if d <? Calendar.DayWithinYear leap 6 then 5
  else if d <? Calendar.DayWithinYear leap 7 then 6
  else if d <? Calendar.DayWithinYear leap 8 then 7
  else if d <? Calendar.DayWithinYear leap 9 then 8
  else if d <? Calendar.DayWithinYear leap 10 then 9
  else if d <? Calendar.DayWithinYear leap 11 then 10
  else 11.

Section Local.
(** The offset of local time at a UTC time value, which the host supplies. *)
Variable LocalTZA_utc : Z -> Z.

Definition LocalTime (t : Z) : Z := t + LocalTZA_utc t.

Definition getFullYear (date : Date) : Z := YearFromTime (LocalTime date).

Definition getMonth (date : Date) : Z := MonthFromTime (LocalTime date).
End Local.

End DateFields.

Section NextDueDate.
Context {N : JSNumber}.
(** The offset of local time at a UTC time value and at a local one. *)
Variable LocalTZA_utc : Z -> Z.
Variable LocalTZA : Z -> Z.

(** [today] is the value of [new Date()] at the call. *)
Definition getNextDueDate (today : Date) (creditCard : CreditCard) : Date :=
  let currentMonth := DateFields.getMonth LocalTZA_utc today in
  let currentYear := DateFields.getFullYear LocalTZA_utc today in
  let dueDate :=
    Calendar.new_Date LocalTZA currentYear currentMonth
                      (cc_dueDate creditCard) in
  if dueDate <=? today
  then Calendar.new_Date LocalTZA currentYear (currentMonth + 1)
                         (cc_dueDate creditCard)
  else dueDate.

End NextDueDate.

(** ** Storage

    The entity stores of [storage.ts] keep each list of records as one JSON
    text in [localStorage]. *)

(** The browser as the stores see it: whether there is a [window] at all
    (there is none while a page is rendered on the server), and the texts
    that [localStorage] holds. *)
Record Browser := {
  has_window : bool;
  localStorage : gmap string string
}.

Module STORAGE_KEYS.
Definition TRANSACTIONS : string := "financial_transactions".
Definition ACCOUNTS : string := "financial_accounts".
Definition CATEGORIES : string := "financial_categories".
Definition INVESTMENTS : string := "financial_investments".
Definition CREDIT_CARDS : string := "financial_credit_cards".
Definition BUDGETS : string := "financial_budgets".
Definition GOALS : string := "financial_goals".
Definition SETTINGS : string := "financial_settings".
End STORAGE_KEYS.

Record Category := {
  cat_id : string;
  cat_name : string;
  cat_color : string;
  cat_type : TransactionType;
  cat_description : option string
}.

(** The array that the constant [DEFAULT_CATEGORIES] names when the module is
    loaded. *)
Definition DEFAULT_CATEGORIES : list Category :=
  [ Build_Category "1" "Salário" "#22c55e" receita (Some "Renda do trabalho");
    Build_Category "2" "Freelance" "#3b82f6" receita (Some "Trabalhos extras");
    Build_Category "3" "Alimentação" "#ef4444" despesa
      (Some "Gastos com comida");
    Build_Category "4" "Transporte" "#f59e0b" despesa
      (Some "Gastos com locomoção");
    Build_Category "5" "Moradia" "#8b5cf6" despesa
      (Some "Aluguel, condomínio, etc.");
    Build_Category "6" "Saúde" "#06b6d4" despesa (Some "Gastos médicos");
    Build_Category "7" "Educação" "#84cc16" despesa
      (Some "Cursos, livros, etc.");
    Build_Category "8" "Lazer" "#f97316" despesa (Some "Entretenimento");
    Build_Category "9" "Empréstimo" "#dc2626" divida
      (Some "Dívidas contraídas");
    Build_Category "10" "Financiamento" "#991b1b" divida
      (Some "Financiamentos");
    Build_Category "11" "Cartão de Crédito" "#7c2d12" cartao_credito
      (Some "Gastos no cartão");
    Build_Category "12" "Investimento" "#059669" investimento
      (Some "Aplicações financeiras") ].

(** [array.findIndex(p)]: [None] stands for -1. *)
Fixpoint findIndex {A} (p : A -> bool) (l : list A) : option nat :=
  match l with
  | [] => None
  | x :: rest => if p x then Some 0%nat else option_map S (findIndex p rest)
  end.

Section Values.
Context {V : Type}.
(** Whether [localStorage.setItem(key, text)] stores the text, given what is
    stored; when it does not, it throws (the quota is exceeded, or storage is
    disabled).  The host decides. *)
Variable accepts : gmap string string -> string -> string -> bool.
(** [JSON.stringify] on the values of a store, and [JSON.parse] followed by
    [convertDates], which puts [Date] objects back where the text holds date
    strings: [None] when [JSON.parse] throws.  The text under the key of an
    entity store is an array of records. *)
Variable stringify : V -> string.
Variable parse : string -> option V.

Definition safeGetItem (browser : Browser) (key : string) (defaultValue : V)
  : V :=
  if negb (has_window browser) then defaultValue
  else
    match localStorage browser !! key with
    | None => defaultValue
    | Some item =>
        if String.eqb item EmptyString then defaultValue
        else
          match parse item with
          | Some parsed => parsed
          | None => defaultValue
          end
    end.

(** The result, and the browser afterwards. *)
Definition safeSetItem (browser : Browser) (key : string) (value : V)
  : bool * Browser :=
  if negb (has_window browser) then (false, browser)
  else
    let text := stringify value in
    if accepts (localStorage browser) key text
    then (true, {| has_window := has_window browser;
                   localStorage := <[key := text]> (localStorage browser) |})
    else (false, browser).

End Values.

(** The store of one entity: [transactionStorage], [accountStorage],
    [investmentStorage], [creditCardStorage], [budgetStorage] and
    [goalStorage] are this code, each under its own key. *)
Module entityStorage.
Section Entity.
Context {T : Type}.
Variable accepts : gmap string string -> string -> string -> bool.
Variable id : T -> string.
Variable stringify : list T -> string.
Variable parse : string -> option (list T).
Variable KEY : string.

Definition getAll (browser : Browser) : list T :=
  safeGetItem parse browser KEY [].

Definition save (browser : Browser) (items : list T) : bool * Browser :=
  safeSetItem accepts stringify browser KEY items.

Definition add (browser : Browser) (item : T) : bool * Browser :=
  let items := getAll browser in
  save browser (items ++ [item]).

Definition update (browser : Browser) (updated : T) : bool * Browser :=
  let items := getAll browser in
  match findIndex (fun t => String.eqb (id t) (id updated)) items with
  | None => (false, browser)
  | Some index => save browser (<[index := updated]> items)
  end.

Definition delete (browser : Browser) (i : string) : bool * Browser :=
  let items := getAll browser in
  let filtered := List.filter (fun t => negb (String.eqb (id t) i)) items in
  save browser filtered.

(** The list survives the way through storage: its text is stored, is not
    empty, and parses back to the list. *)
Definition survives (browser : Browser) (items : list T) : Prop :=
  accepts (localStorage browser) KEY (stringify items) = true
  /\ stringify items <> EmptyString
  /\ parse (stringify items) = Some items.

End Entity.
End entityStorage.

(** *** categoryStorage

    [getAll] hands out the array [DEFAULT_CATEGORIES] itself when nothing is
    stored, and [add] and [update] write into the array they get: the array
    is part of the state. *)
Module categoryStorage.
Section Categories.
Variable accepts : gmap string string -> string -> string -> bool.
Variable stringify : list Category -> string.
Variable parse : string -> option (list Category).

Record Heap := {
  browser : Browser;
  default_categories : list Category
}.

(** An array of categories: one built by the call, or the one that
    [DEFAULT_CATEGORIES] names. *)
Inductive Categories :=
  | Fresh (items : list Category)
  | TheDefaults.

Definition read (heap : Heap) (categories : Categories) : list Category :=
  match categories with
  | Fresh items => items
  | TheDefaults => default_categories heap
  end.

(** Writing [items] over the contents of the array [categories]. *)
Definition write (heap : Heap) (categories : Categories)
    (items : list Category) : Categories * Heap :=
  match categories with
  | Fresh _ => (Fresh items, heap)
  | TheDefaults =>
      (TheDefaults,
       {| browser := browser heap; default_categories := items |})
  end.

Definition save (heap : Heap) (categories : list Category)
  : bool * Heap :=
  let (saved, browser') :=
    safeSetItem accepts stringify (browser heap) STORAGE_KEYS.CATEGORIES
                categories in
  (saved, {| browser := browser';
             default_categories := default_categories heap |}).

Definition getAll (heap : Heap) : Categories * Heap :=
  let categories :=
    safeGetItem parse (browser heap) STORAGE_KEYS.CATEGORIES [] in
  if (length categories =? 0)%nat
  then
    let (_, heap') := save heap (default_categories heap) in
    (TheDefaults, heap')
  else (Fresh categories, heap).

Definition add (heap : Heap) (category : Category) : bool * Heap :=
  let (categories, heap1) := getAll heap in
  let (categories, heap2) :=
    write heap1 categories (read heap1 categories ++ [category]) in
  save heap2 (read heap2 categories).

Definition update (heap : Heap) (updatedCategory : Category)
  : bool * Heap :=
  let (categories, heap1) := getAll heap in
  match findIndex (fun c => String.eqb (cat_id c) (cat_id updatedCategory))
                  (read heap1 categories) with
  | None => (false, heap1)
  | Some index =>
      let (categories, heap2) :=
        write heap1 categories
              (<[index := updatedCategory]> (read heap1 categories)) in
      save heap2 (read heap2 categories)
  end.

Definition delete (heap : Heap) (i : string) : bool * Heap :=
  let (categories, heap1) := getAll heap in
  let filtered :=
    List.filter (fun c => negb (String.eqb (cat_id c) i))
                (read heap1 categories) in
  save heap1 filtered.

(** One thing that happens to the state: a call of the store; the page
    loaded again, which evaluates the module anew and leaves the browser as
    it is; or something else that changes the browser, and under the key of
    the categories leaves the text as it is or removes it.  So the text
    under that key is never put there by anything but the store. *)
Inductive step : Heap -> Heap -> Prop :=
  | step_getAll heap : step heap (snd (getAll heap))
  | step_save heap categories : step heap (snd (save heap categories))
  | step_add heap category : step heap (snd (add heap category))
  | step_update heap category : step heap (snd (update heap category))
  | step_delete heap i : step heap (snd (delete heap i))
  | step_reload heap :
      step heap {| browser := browser heap;
                   default_categories := DEFAULT_CATEGORIES |}
  | step_browser heap browser' :
      localStorage browser' !! STORAGE_KEYS.CATEGORIES
      = localStorage (browser heap) !! STORAGE_KEYS.CATEGORIES
      \/ localStorage browser' !! STORAGE_KEYS.CATEGORIES = None ->
      step heap {| browser := browser';
                   default_categories := default_categories heap |}.

(** The states that can be reached once the module is loaded in a browser
    that holds nothing under the key of the categories. *)
Definition reachable (heap : Heap) : Prop :=
  exists browser0,
    localStorage browser0 !! STORAGE_KEYS.CATEGORIES = None
    /\ rtc step {| browser := browser0;
                   default_categories := DEFAULT_CATEGORIES |} heap.

(** The text under the key of the categories, when there is one, is the
    text of an array of categories. *)
Definition written (browser : Browser) : Prop :=
  forall text, localStorage browser !! STORAGE_KEYS.CATEGORIES = Some text ->
    exists categories : list Category, text = stringify categories.

End Categories.
End categoryStorage.

(** ** The hook [useFinancialData]

    The transactions and accounts that the hook holds as React state, the
    browser that its stores write to, and its error message.  An operation
    is read as one call made from a render of this state: the lists it closes
    over are the ones the state holds. *)

Module useFinancialData.
Section Hook.
Context {N : JSNumber}.
Variable accepts : gmap string string -> string -> string -> bool.
(** The JSON texts of lists of transactions and of accounts. *)
Variable stringifyTransactions : list Transaction -> string.
Variable parseTransactions : string -> option (list Transaction).
Variable stringifyAccounts : list Account -> string.
Variable parseAccounts : string -> option (list Account).

Record App := {
  st_browser : Browser;
  st_transactions : list Transaction;
  st_accounts : list Account;
  st_error : option string
}.

(** [{ ...transactionData, id }] *)
Definition with_id (transactionData : Transaction) (id : string)
  : Transaction :=
  {| tx_id := id;
     tx_type := tx_type transactionData;
     tx_amount := tx_amount transactionData;
     tx_accountId := tx_accountId transactionData;
     tx_categoryId := tx_categoryId transactionData;
     tx_date := tx_date transactionData;
     tx_scheduledDate := tx_scheduledDate transactionData;
     tx_status := tx_status transactionData;
     tx_interestRate := tx_interestRate transactionData;
     tx_installments := tx_installments transactionData;
     tx_currentInstallment := tx_currentInstallment transactionData |}.

(** [{ ...account, balance }] *)
Definition with_balance (account : Account) (balance : number) : Account :=
  {| acc_id := acc_id account;
     acc_balance := balance;
     acc_initialBalance := acc_initialBalance account;
     acc_isActive := acc_isActive account |}.

(** [{ ...accountData, id }] *)
Definition account_with_id (accountData : Account) (id : string) : Account :=
  {| acc_id := id;
     acc_balance := acc_balance accountData;
     acc_initialBalance := acc_initialBalance accountData;
     acc_isActive := acc_isActive accountData |}.

(** An operation resolves to a value, or throws after setting the error
    message: [None]. *)
Definition failed {A} (s : App) (browser : Browser) (message : string)
  : option A * App :=
  (None, {| st_browser := browser;
            st_transactions := st_transactions s;
            st_accounts := st_accounts s;
            st_error := Some message |}).

(** [id] is what [generateId()] returns. *)
Definition addTransaction (s : App) (transactionData : Transaction)
    (id : string) : option Transaction * App :=
  let newTransaction := with_id transactionData id in
  let (success, browser1) :=
    entityStorage.add accepts stringifyTransactions parseTransactions
      STORAGE_KEYS.TRANSACTIONS (st_browser s) newTransaction in
  if success then
    let transactions' := st_transactions s ++ [newTransaction] in
    match List.find (fun a => String.eqb (acc_id a)
                                (tx_accountId newTransaction))
                    (st_accounts s) with
    | Some account =>
        if bool_decide (tx_status newTransaction = concluida) then
          let updatedAccount :=
            with_balance account
              (updateAccountBalance account
                 (st_transactions s ++ [newTransaction])) in
          let accounts' :=
            map (fun a => if String.eqb (acc_id a) (acc_id account)
                          then updatedAccount else a)
                (st_accounts s) in
          let browser2 :=
            snd (entityStorage.update accepts acc_id stringifyAccounts
                   parseAccounts STORAGE_KEYS.ACCOUNTS browser1
                   updatedAccount) in
          (Some newTransaction,
           {| st_browser := browser2;
              st_transactions := transactions';
              st_accounts := accounts';
              st_error := st_error s |})
        else
          (Some newTransaction,
           {| st_browser := browser1;
              st_transactions := transactions';
              st_accounts := st_accounts s;
              st_error := st_error s |})
    | None =>
        (Some newTransaction,
         {| st_browser := browser1;
            st_transactions := transactions';
            st_accounts := st_accounts s;
            st_error := st_error s |})
    end
  else failed s browser1 "Erro ao adicionar transação".

Definition updateTransaction (s : App) (updatedTransaction : Transaction)
  : option Transaction * App :=
  let (success, browser1) :=
    entityStorage.update accepts tx_id stringifyTransactions
      parseTransactions STORAGE_KEYS.TRANSACTIONS (st_browser s)
      updatedTransaction in
  if success then
    let replaced :=
      map (fun t => if String.eqb (tx_id t) (tx_id updatedTransaction)
                    then updatedTransaction else t) in
    let affectedAccounts :=
      List.filter (fun a => String.eqb (acc_id a)
                              (tx_accountId updatedTransaction))
                  (st_accounts s) in
    let updatedAccounts :=
      map (fun account =>
             with_balance account
               (updateAccountBalance account
                  (replaced (st_transactions s))))
          affectedAccounts in
    if (0 <? length updatedAccounts)%nat then
      let accounts' :=
        map (fun a =>
               match List.find (fun ua => String.eqb (acc_id ua) (acc_id a))
                               updatedAccounts with
               | Some updated => updated
               | None => a
               end)
            (st_accounts s) in
      let browser2 :=
        fold_left
          (fun browser account =>
             snd (entityStorage.update accepts acc_id stringifyAccounts
                    parseAccounts STORAGE_KEYS.ACCOUNTS browser account))
          updatedAccounts browser1 in
      (Some updatedTransaction,
       {| st_browser := browser2;
          st_transactions := replaced (st_transactions s);
          st_accounts := accounts';
          st_error := st_error s |})
    else
      (Some updatedTransaction,
       {| st_browser := browser1;
          st_transactions := replaced (st_transactions s);
          st_accounts := st_accounts s;
          st_error := st_error s |})
  else failed s browser1 "Erro ao atualizar transação".

Definition deleteTransaction (s : App) (id : string) : option bool * App :=
  match List.find (fun t => String.eqb (tx_id t) id) (st_transactions s) with
  | None => failed s (st_browser s) "Erro ao deletar transação"
  | Some transaction =>
      let (success, browser1) :=
        entityStorage.delete accepts tx_id stringifyTransactions
          parseTransactions STORAGE_KEYS.TRANSACTIONS (st_browser s) id in
      if success then
        let kept :=
          List.filter (fun t => negb (String.eqb (tx_id t) id)) in
        match List.find (fun a => String.eqb (acc_id a)
                                    (tx_accountId transaction))
                        (st_accounts s) with
        | Some account =>
            let updatedAccount :=
              with_balance account
                (updateAccountBalance account (kept (st_transactions s))) in
            let accounts' :=
              map (fun a => if String.eqb (acc_id a) (acc_id account)
                            then updatedAccount else a)
                  (st_accounts s) in
            let browser2 :=
              snd (entityStorage.update accepts acc_id stringifyAccounts
                     parseAccounts STORAGE_KEYS.ACCOUNTS browser1
                     updatedAccount) in
            (Some true,
             {| st_browser := browser2;
                st_transactions := kept (st_transactions s);
                st_accounts := accounts';
                st_error := st_error s |})
        | None =>
            (Some true,
             {| st_browser := browser1;
                st_transactions := kept (st_transactions s);
                st_accounts := st_accounts s;
                st_error := st_error s |})
        end
      else failed s browser1 "Erro ao deletar transação"
  end.

Definition addAccount (s : App) (accountData : Account) (id : string)
  : option Account * App :=
  let newAccount := account_with_id accountData id in
  let (success, browser1) :=
    entityStorage.add accepts stringifyAccounts parseAccounts
      STORAGE_KEYS.ACCOUNTS (st_browser s) newAccount in
  if success then
    (Some newAccount,
     {| st_browser := browser1;
        st_transactions := st_transactions s;
        st_accounts := st_accounts s ++ [newAccount];
        st_error := st_error s |})
  else failed s browser1 "Erro ao adicionar conta".

Definition updateAccount (s : App) (updatedAccount : Account)
  : option Account * App :=
  let (success, browser1) :=
    entityStorage.update accepts acc_id stringifyAccounts parseAccounts
      STORAGE_KEYS.ACCOUNTS (st_browser s) updatedAccount in
  if success then
    (Some updatedAccount,
     {| st_browser := browser1;
        st_transactions := st_transactions s;
        st_accounts :=
          map (fun a => if String.eqb (acc_id a) (acc_id updatedAccount)
                        then updatedAccount else a)
              (st_accounts s);
        st_error := st_error s |})
  else failed s browser1 "Erro ao atualizar conta".

Definition deleteAccount (s : App) (id : string) : option bool * App :=
  let hasTransactions :=
    existsb (fun t => String.eqb (tx_accountId t) id) (st_transactions s) in
  if hasTransactions then failed s (st_browser s) "Erro ao deletar conta"
  else
    let (success, browser1) :=
      entityStorage.delete accepts acc_id stringifyAccounts parseAccounts
        STORAGE_KEYS.ACCOUNTS (st_browser s) id in
    if success then
      (Some true,
       {| st_browser := browser1;
          st_transactions := st_transactions s;
          st_accounts :=
            List.filter (fun a => negb (String.eqb (acc_id a) id))
                        (st_accounts s);
          st_error := st_error s |})
    else failed s browser1 "Erro ao deletar conta".

(** *** What the state should satisfy *)

(** Every account shows the balance that its completed transactions give. *)
Definition reconciled (s : App) : Prop :=
  forall a, In a (st_accounts s) ->
    acc_balance a = updateAccountBalance a (st_transactions s).

(** Every transaction names an account that exists. *)
Definition accounts_exist (s : App) : Prop :=
  forall t, In t (st_transactions s) ->
    exists a, In a (st_accounts s) /\ acc_id a = tx_accountId t.

(** The stored transactions are the ones of the state. *)
Definition transactions_stored (s : App) : Prop :=
  entityStorage.getAll parseTransactions STORAGE_KEYS.TRANSACTIONS
    (st_browser s) = st_transactions s.

End Hook.
End useFinancialData.

(** ** More sample data

    Records in exact arithmetic, and a browser with a store small enough to
    run. *)

Module Cases.

(** An expense of [acc1] due at [scheduledDate]. *)
Definition bill (status : TransactionStatus) (amount : Q)
    (scheduledDate : Date) : Transaction (N := Exact) :=
  @Build_Transaction Exact "b1" despesa amount "acc1" "cat1" Sample.today
    (Some scheduledDate) status None None None.

Definition holding (type : InvestmentType) (amount currentValue : Q)
    (isActive : bool) : Investment (N := Exact) :=
  @Build_Investment Exact "i1" type amount currentValue isActive.

Definition holdings : list (Investment (N := Exact)) :=
  [ holding renda_fixa 250 300 true; holding fundos 500 600 false;
    holding criptomoedas 120 100 true ].

Definition card (limit usedLimit : Q) : CreditCard (N := Exact) :=
  @Build_CreditCard Exact "c1" limit usedLimit 10 3 12%Q true.

(** A card on doubles that falls due on day [dueDate] of the month. *)
Definition due_on (dueDate : Z) : CreditCard (N := Binary64) :=
  {| cc_id := "c2"; cc_limit := 1000%float; cc_usedLimit := 250%float;
     cc_dueDate := dueDate; cc_closingDate := 3;
     cc_interestRate := 12%float; cc_isActive := true |}.

(** [Math.pow] on the whole part of the exponent. *)
Definition whole_pow (x y : Q) : Q :=
  Qpower x (Qnum y / Z.pos (Qden y)).

(** A transaction of [acc1] with its own id. *)
Definition entry (id : string) (type : TransactionType)
    (status : TransactionStatus) (amount : float)
  : Transaction (N := Binary64) :=
  {| tx_id := id; tx_type := type; tx_amount := amount;
     tx_accountId := "acc1"; tx_categoryId := "cat1";
     tx_date := Sample.today; tx_scheduledDate := None;
     tx_status := status; tx_interestRate := None;
     tx_installments := None; tx_currentInstallment := None |}.

(** A browser with a window that holds [stored], and a host that stores
    whatever it is given. *)
Definition online (stored : gmap string string) : Browser :=
  {| has_window := true; localStorage := stored |}.

Definition server : Browser :=
  {| has_window := false; localStorage := ∅ |}.

Definition roomy (stored : gmap string string) (key text : string) : bool :=
  true.

(** A store of notes, each a letter for its id and a letter for what it
    says: the text of a list is an opening bracket and then the letters of
    its notes, two by two. *)
Definition Note : Type := Ascii.ascii * Ascii.ascii.

Definition note_id (note : Note) : string := String (fst note) EmptyString.

Definition bracket : Ascii.ascii := Ascii.ascii_of_nat 91.

Fixpoint letters_of (notes : list Note) : string :=
  match notes with
  | [] => EmptyString
  | (i, v) :: rest => String i (String v (letters_of rest))
  end.

Fixpoint notes_of (letters : string) : list Note :=
  match letters with
  | String i (String v rest) => (i, v) :: notes_of rest
  | _ => []
  end.

Definition notes_text (notes : list Note) : string :=
  String bracket (letters_of notes).

Definition notes_parse (text : string) : option (list Note) :=
  match text with
  | String c rest =>
      if Ascii.eqb c bracket then Some (notes_of rest) else None
  | EmptyString => None
  end.

Definition note (id says : nat) : Note :=
  (Ascii.ascii_of_nat id, Ascii.ascii_of_nat says).

(** The notes [a] saying [x] and [b] saying [y], stored under the key of
    the goals. *)
Definition two_notes : Browser :=
  online {[ STORAGE_KEYS.GOALS := notes_text [note 97 120; note 98 121] ]}.

(** A category of the user's own. *)
Definition pets : Category :=
  Build_Category "c13" "Pets" "#000000" despesa None.

(** A codec that knows one list: every list is written as the same text,
    and that text reads back as [items]. *)
Definition fixed_text {A} (items : list A) : string := "[1]".

Definition fixed_parse {A} (items : list A) (text : string)
  : option (list A) := Some items.

(** The state of the hook with one completed income of 500 on an account
    opened with 1000, stored under the key of the transactions. *)
Definition income : Transaction (N := Binary64) :=
  entry "t1" receita concluida 500.

Definition app : useFinancialData.App (N := Binary64) :=
  {| useFinancialData.st_browser :=
       online {[ STORAGE_KEYS.TRANSACTIONS := fixed_text [income] ]};
     useFinancialData.st_transactions := [income];
     useFinancialData.st_accounts := [Sample.account "acc1" 1500 1000 true];
     useFinancialData.st_error := None |}.

(** The operations of the hook in a browser whose texts read back as the
    lists of [app]. *)
Definition addTransaction :=
  useFinancialData.addTransaction roomy fixed_text (fixed_parse [income])
    fixed_text (fixed_parse (useFinancialData.st_accounts app)).

Definition updateTransaction :=
  useFinancialData.updateTransaction roomy fixed_text (fixed_parse [income])
    fixed_text (fixed_parse (useFinancialData.st_accounts app)).

Definition deleteTransaction :=
  useFinancialData.deleteTransaction roomy fixed_text (fixed_parse [income])
    fixed_text (fixed_parse (useFinancialData.st_accounts app)).

Definition deleteAccount :=
  useFinancialData.deleteAccount roomy fixed_text
    (fixed_parse (useFinancialData.st_accounts app)).

(** The same state with a second account, opened with 70, and the income
    of [app] as the form sends it back once it names that account. *)
Definition two_accounts : useFinancialData.App (N := Binary64) :=
  {| useFinancialData.st_browser :=
       online {[ STORAGE_KEYS.TRANSACTIONS := fixed_text [income] ]};
     useFinancialData.st_transactions := [income];
     useFinancialData.st_accounts :=
       [Sample.account "acc1" 1500 1000 true;
        Sample.account "acc2" 70 70 true];
     useFinancialData.st_error := None |}.

Definition moved : Transaction (N := Binary64) :=
  {| tx_id := "t1"; tx_type := receita; tx_amount := 500%float;
     tx_accountId := "acc2"; tx_categoryId := "cat1";
     tx_date := Sample.today; tx_scheduledDate := None;
     tx_status := concluida; tx_interestRate := None;
     tx_installments := None; tx_currentInstallment := None |}.

(** The state of [app] where there is no window. *)
Definition offline : useFinancialData.App (N := Binary64) :=
  {| useFinancialData.st_browser := server;
     useFinancialData.st_transactions := [income];
     useFinancialData.st_accounts := [Sample.account "acc1" 1500 1000 true];
     useFinancialData.st_error := None |}.

(** The state of the hook before anything is recorded. *)
Definition empty_app : useFinancialData.App (N := Binary64) :=
  {| useFinancialData.st_browser := online ∅;
     useFinancialData.st_transactions := [];
     useFinancialData.st_accounts := [Sample.account "acc1" 1000 1000 true];
     useFinancialData.st_error := None |}.

End Cases.

(** ** Reading lists from the left *)

Section Lists.
Context {A B : Type}.

Lemma filter_snoc (f : A -> bool) (l : list A) (x : A) :
  List.filter f (l ++ [x]) = List.filter f l ++ (if f x then [x] else []).
Proof. rewrite List.filter_app. reflexivity. Qed.

Lemma fold_left_filter_snoc (g : B -> A -> B) (f : A -> bool) (l : list A)
    (x : A) (b : B) :
  fold_left g (List.filter f (l ++ [x])) b =
  if f x then g (fold_left g (List.filter f l) b) x
  else fold_left g (List.filter f l) b.
Proof.
  rewrite filter_snoc, fold_left_app.
  destruct (f x); reflexivity.
Qed.

Lemma In_filter_iff (f : A -> bool) (l : list A) (x : A) :
  In x (List.filter f l) <-> In x l /\ f x = true.
Proof. apply List.filter_In. Qed.

End Lists.

(** ** Totals over the ledger *)

Section Totals.
Context {N : JSNumber}.
Implicit Types (t : Transaction) (txns : list Transaction).

Lemma active_debt_test t :
  bool_decide (tx_type t = divida) && negb (bool_decide (tx_status t = cancelada))
  = true <-> active_debt t.
Proof.
  unfold active_debt.
  rewrite andb_true_iff, negb_true_iff, bool_decide_eq_true, bool_decide_eq_false.
  reflexivity.
Qed.

Lemma active_debt_test_false t :
  ~ active_debt t ->
  bool_decide (tx_type t = divida) && negb (bool_decide (tx_status t = cancelada))
  = false.
Proof.
  intros H. apply not_true_is_false. rewrite active_debt_test. exact H.
Qed.

Lemma getTotalDebts_snoc txns t :
  getTotalDebts (txns ++ [t]) =
  if bool_decide (tx_type t = divida)
     && negb (bool_decide (tx_status t = cancelada))
  then debt_term (getTotalDebts txns) t
  else getTotalDebts txns.
Proof.
  unfold getTotalDebts.
  exact (fold_left_filter_snoc debt_term
           (fun t => bool_decide (tx_type t = divida)
                     && negb (bool_decide (tx_status t = cancelada)))
           txns t (lit 0)).
Qed.

Lemma debt_term_plan sum t n k r :
  installment_plan t n k r ->
  debt_term sum t = sum +. remainingBalance (tx_amount t) r n (k - 1).
Proof.
  intros (Hn & Hn0 & Hk & Hk0 & Hr & Hr1).
  unfold debt_term. rewrite Hn, Hk, Hr. simpl.
  apply Z.eqb_neq in Hn0, Hk0. rewrite Hn0, Hk0, Hr1. reflexivity.
Qed.

Lemma debt_term_no_plan sum t :
  (forall n k r, ~ installment_plan t n k r) ->
  debt_term sum t = sum +. tx_amount t.
Proof.
  intros H. unfold debt_term.
  destruct (tx_installments t) as [n|] eqn:Hn; [|reflexivity].
  destruct (tx_currentInstallment t) as [k|] eqn:Hk; [|reflexivity].
  destruct (tx_interestRate t) as [r|] eqn:Hr; [|reflexivity].
  simpl.
  destruct (n =? 0) eqn:Hn0; [reflexivity|].
  destruct (k =? 0) eqn:Hk0; [reflexivity|].
  destruct (truthy r) eqn:Hr1; [|reflexivity].
  exfalso. apply (H n k r).
  apply Z.eqb_neq in Hn0, Hk0. unfold installment_plan. auto 10.
Qed.

Lemma sum_amounts_filter_snoc (f : Transaction -> bool) txns t :
  f t = false ->
  sum_amounts (List.filter f (txns ++ [t])) = sum_amounts (List.filter f txns).
Proof.
  intros H. unfold sum_amounts.
  rewrite (fold_left_filter_snoc _ f), H. reflexivity.
Qed.

End Totals.

(** ** The zero-rate branch in exact arithmetic *)

Lemma exact_straight_line_below (amount : Q) (n paid : Z) :
  (0 < amount)%Q -> 1 <= n -> 1 <= paid ->
  (remainingBalance (N := Exact) amount 0 n paid < amount)%Q.
Proof.
  intros Ha Hn Hk.
  unfold remainingBalance. simpl.
  assert (Hqn : (inject_Z 1 <= inject_Z n)%Q)
    by (rewrite <- Zle_Qle; exact Hn).
  assert (Hqk : (inject_Z 1 <= inject_Z paid)%Q)
    by (rewrite <- Zle_Qle; exact Hk).
  change (inject_Z 1) with 1%Q in Hqn, Hqk.
  apply Qlt_shift_div_r; [lra|].
  nra.
Qed.

(** ** Properties of the totals *)

Section TotalsProperties.
Context {N : JSNumber}.
Implicit Types (t : Transaction) (txns : list Transaction).

(** C6. A transaction whose status is canceled, appended to any ledger,
    changes none of the totals: not [getTotalByType] for any type, not
    [getTotalIncome], [getTotalExpenses], [getTotalDebts] or
    [getNetBalance]. *)
Theorem canceled_never_contributes txns t :
  tx_status t = cancelada ->
  (forall type, getTotalByType (txns ++ [t]) type = getTotalByType txns type)
  /\ getTotalIncome (txns ++ [t]) = getTotalIncome txns
  /\ getTotalExpenses (txns ++ [t]) = getTotalExpenses txns
  /\ getTotalDebts (txns ++ [t]) = getTotalDebts txns
  /\ getNetBalance (txns ++ [t]) = getNetBalance txns.
Proof.
  intros Hc.
  assert (Hdone : bool_decide (tx_status t = concluida) = false).
  { apply bool_decide_eq_false. rewrite Hc. discriminate. }
  assert (Hinc : getTotalIncome (txns ++ [t]) = getTotalIncome txns).
  { apply sum_amounts_filter_snoc. rewrite Hdone. apply andb_false_r. }
  assert (Hexp : getTotalExpenses (txns ++ [t]) = getTotalExpenses txns).
  { apply sum_amounts_filter_snoc. rewrite Hdone. apply andb_false_r. }
  repeat split.
  - intros type. apply sum_amounts_filter_snoc.
    rewrite Hdone. apply andb_false_r.
  - exact Hinc.
  - exact Hexp.
  - rewrite getTotalDebts_snoc.
    rewrite (bool_decide_eq_true_2 _ Hc). simpl.
    rewrite andb_false_r. reflexivity.
  - unfold getNetBalance. rewrite Hinc, Hexp. reflexivity.
Qed.

(** How [getTotalDebts] reads the ledger.  It is 0 on the empty ledger and
    goes through the ledger from the left; a transaction that is not a debt,
    or is canceled, adds nothing; a debt that is not canceled adds
    [remainingBalance(amount, interestRate, installments,
    currentInstallment - 1)] when its guard passes, that is when its three
    installment fields are all set and truthy, and its original amount when
    the guard fails. *)
Lemma getTotalDebts_sums_active_debts :
  getTotalDebts [] = lit 0
  /\ (forall txns t, ~ active_debt t ->
        getTotalDebts (txns ++ [t]) = getTotalDebts txns)
  /\ (forall txns t n k r, active_debt t -> installment_plan t n k r ->
        getTotalDebts (txns ++ [t]) =
        getTotalDebts txns +. remainingBalance (tx_amount t) r n (k - 1))
  /\ (forall txns t, active_debt t ->
        (forall n k r, ~ installment_plan t n k r) ->
        getTotalDebts (txns ++ [t]) = getTotalDebts txns +. tx_amount t).
Proof.
  split; [reflexivity|]. repeat split.
  - intros txns t Hna.
    rewrite getTotalDebts_snoc, (active_debt_test_false t Hna). reflexivity.
  - intros txns t n k r Ha Hp.
    rewrite getTotalDebts_snoc, (proj2 (active_debt_test t) Ha).
    apply debt_term_plan. exact Hp.
  - intros txns t Ha Hnp.
    rewrite getTotalDebts_snoc, (proj2 (active_debt_test t) Ha).
    apply debt_term_no_plan. exact Hnp.
Qed.

(** A rate that is 0 is falsy: the guard of [getTotalDebts] then skips the
    remaining balance, which would have been the straight-line one. *)
Lemma zero_rate_debt_full_amount txns t n k r :
  active_debt t ->
  tx_installments t = Some n ->
  tx_currentInstallment t = Some k ->
  tx_interestRate t = Some r ->
  (r === lit 0) = true ->
  getTotalDebts (txns ++ [t]) = getTotalDebts txns +. tx_amount t
  /\ remainingBalance (tx_amount t) r n (k - 1) =
     tx_amount t *. (lit n -. lit (k - 1)) /. lit n.
Proof.
  intros Ha Hn Hk Hr Hz. split.
  - rewrite getTotalDebts_snoc, (proj2 (active_debt_test t) Ha).
    unfold debt_term. rewrite Hn, Hk, Hr, (zero_falsy r Hz).
    rewrite !andb_false_r. reflexivity.
  - unfold remainingBalance. rewrite Hz. reflexivity.
Qed.

End TotalsProperties.

(** C10.  For every ledger, a debt that is not canceled whose [installments]
    and [currentInstallment] are set and whose [interestRate] is set and
    equal to 0 adds its full original amount to [getTotalDebts], because the
    guard tests the rate for truthiness and 0 is falsy; the remaining balance
    the guard skips is the straight-line one, which in exact arithmetic is
    strictly below a positive amount as soon as one installment has been paid
    ([currentInstallment > 1]). *)
Theorem zero_rate_debt_counts_in_full :
  (forall (N : JSNumber) (txns : list Transaction) (t : Transaction)
          (n k : Z) (r : number),
      active_debt t ->
      tx_installments t = Some n ->
      tx_currentInstallment t = Some k ->
      tx_interestRate t = Some r ->
      (r === lit 0) = true ->
      getTotalDebts (txns ++ [t]) = getTotalDebts txns +. tx_amount t
      /\ remainingBalance (tx_amount t) r n (k - 1) =
         tx_amount t *. (lit n -. lit (k - 1)) /. lit n)
  /\ (forall (amount : Q) (n k : Z),
        (0 < amount)%Q -> 1 <= n -> 1 < k ->
        (remainingBalance (N := Exact) amount 0 n (k - 1) < amount)%Q).
Proof.
  split.
  - intros N txns t n k r. apply zero_rate_debt_full_amount.
  - intros amount n k Ha Hn Hk. apply exact_straight_line_below; lia || exact Ha.
Qed.

(** *** The totals on the sample ledger *)

Lemma canceled_never_contributes_witness :
  let t := Sample.tx divida cancelada 900 in
  (forall type,
      getTotalByType (Sample.ledger ++ [t]) type
      = getTotalByType Sample.ledger type)
  /\ getTotalIncome (Sample.ledger ++ [t]) = getTotalIncome Sample.ledger
  /\ getTotalExpenses (Sample.ledger ++ [t]) = getTotalExpenses Sample.ledger
  /\ getTotalDebts (Sample.ledger ++ [t]) = getTotalDebts Sample.ledger
  /\ getNetBalance (Sample.ledger ++ [t]) = getNetBalance Sample.ledger.
Proof.
  exact (canceled_never_contributes Sample.ledger
           (Sample.tx divida cancelada 900) eq_refl).
Defined.

(** C1.  [getTotalDebts] at a debt on which it parts from the
    specification: a pending debt of 1200 in 12 installments, the 7th
    current, at an interest rate of 0, so with the three installment fields
    all present.  The specification has it add
    [remainingBalance(1200, 0, 12, 6)], which the straight-line branch of
    [remainingBalance] makes 600; [getTotalDebts] adds the original 1200,
    because its guard reads the rate 0 as a field that is not there.  A debt
    at the rate 2, alike in everything else, does get its remaining
    balance. *)
Theorem getTotalDebts_interest_free_debt :
  tx_type Sample.interest_free = divida
  /\ tx_status Sample.interest_free = pendente
  /\ tx_amount Sample.interest_free = 1200%float
  /\ tx_installments Sample.interest_free = Some 12
  /\ tx_currentInstallment Sample.interest_free = Some 7
  /\ tx_interestRate Sample.interest_free = Some 0%float
  /\ getTotalDebts [Sample.interest_free] = 1200%float
  /\ lit 0 +. remainingBalance (tx_amount Sample.interest_free) 0%float 12
               (7 - 1)
     = 600%float
  /\ getTotalDebts [Sample.debt pendente 1200 2 12 7]
     = lit 0 +. remainingBalance 1200%float 2%float 12 (7 - 1).
Proof. repeat split; reflexivity. Qed.

Lemma getTotalDebts_sums_active_debts_witness :
  let t := Sample.debt pendente 1200 2 12 7 in
  getTotalDebts (Sample.ledger ++ [t]) =
  getTotalDebts Sample.ledger +. remainingBalance 1200%float 2%float 12 (7 - 1).
Proof.
  refine (proj1 (proj2 (proj2 (getTotalDebts_sums_active_debts (N := Binary64))))
            Sample.ledger (Sample.debt pendente 1200 2 12 7) 12 7 2%float
            _ _).
  - split; [reflexivity | discriminate].
  - unfold installment_plan; repeat split; discriminate || reflexivity.
Defined.

Lemma zero_rate_debt_counts_in_full_witness :
  (getTotalDebts (Sample.ledger ++ [Sample.interest_free])
   = getTotalDebts Sample.ledger +. 1200%float
   /\ remainingBalance 1200%float 0%float 12 (7 - 1)
      = 1200%float *. (lit 12 -. lit (7 - 1)) /. lit 12)
  /\ (remainingBalance (N := Exact) 1200 0 12 (7 - 1) < 1200)%Q.
Proof.
  split.
  - refine (proj1 zero_rate_debt_counts_in_full Binary64 Sample.ledger
              Sample.interest_free 12 7 0%float _ eq_refl eq_refl eq_refl
              eq_refl).
    split; [reflexivity | discriminate].
  - refine (proj2 zero_rate_debt_counts_in_full 1200%Q 12 7 _ _ _);
      [reflexivity | lia | lia].
Defined.

(** ** Accounts *)

Section Accounts.
Context {N : JSNumber}.
Implicit Types (t : Transaction) (txns : list Transaction) (account : Account).

Lemma posted_to_test account t :
  String.eqb (tx_accountId t) (acc_id account)
  && bool_decide (tx_status t = concluida) = true <-> posted_to account t.
Proof.
  unfold posted_to.
  rewrite andb_true_iff, String.eqb_eq, bool_decide_eq_true. reflexivity.
Qed.

Lemma updateAccountBalance_snoc account txns t :
  updateAccountBalance account (txns ++ [t]) =
  if String.eqb (tx_accountId t) (acc_id account)
     && bool_decide (tx_status t = concluida)
  then post (updateAccountBalance account txns) t
  else updateAccountBalance account txns.
Proof.
  unfold updateAccountBalance.
  exact (fold_left_filter_snoc post
           (fun t => String.eqb (tx_accountId t) (acc_id account)
                     && bool_decide (tx_status t = concluida))
           txns t (acc_initialBalance account)).
Qed.

Lemma post_credit balance t :
  In (tx_type t) [receita; credito] -> post balance t = balance +. tx_amount t.
Proof.
  intros H. unfold post.
  destruct (tx_type t); simpl in H; try reflexivity;
    decompose [or] H; discriminate || contradiction.
Qed.

Lemma post_debit balance t :
  In (tx_type t) [despesa; divida; cartao_credito; investimento] ->
  post balance t = balance -. tx_amount t.
Proof.
  intros H. unfold post.
  destruct (tx_type t); simpl in H; try reflexivity;
    decompose [or] H; discriminate || contradiction.
Qed.

Lemma post_transfer balance t :
  tx_type t = transferencia -> post balance t = balance.
Proof. intros H. unfold post. rewrite H. reflexivity. Qed.

(** How [updateAccountBalance] reads a ledger: from the initial balance, one
    transaction after the other. *)
Lemma updateAccountBalance_rule account :
  updateAccountBalance account [] = acc_initialBalance account
  /\ (forall txns t, posted_to account t ->
        In (tx_type t) [receita; credito] ->
        updateAccountBalance account (txns ++ [t]) =
        updateAccountBalance account txns +. tx_amount t)
  /\ (forall txns t, posted_to account t ->
        In (tx_type t) [despesa; divida; cartao_credito; investimento] ->
        updateAccountBalance account (txns ++ [t]) =
        updateAccountBalance account txns -. tx_amount t)
  /\ (forall txns t, tx_type t = transferencia \/ ~ posted_to account t ->
        updateAccountBalance account (txns ++ [t]) =
        updateAccountBalance account txns).
Proof.
  split; [reflexivity|]. repeat split.
  - intros txns t Hp Ht.
    rewrite updateAccountBalance_snoc, (proj2 (posted_to_test account t) Hp).
    apply post_credit, Ht.
  - intros txns t Hp Ht.
    rewrite updateAccountBalance_snoc, (proj2 (posted_to_test account t) Hp).
    apply post_debit, Ht.
  - intros txns t [Ht | Hnp]; rewrite updateAccountBalance_snoc.
    + rewrite (post_transfer _ t Ht). destruct (_ && _); reflexivity.
    + destruct (_ && _) eqn:E; [|reflexivity].
      exfalso. apply Hnp, posted_to_test, E.
Qed.

Lemma fold_left_add_map {A} (f : A -> number) (l : list A) (z : number) :
  fold_left (fun sum a => sum +. f a) l z = fold_left add (map f l) z.
Proof. revert z. induction l as [|a l IH]; intros z; simpl; auto. Qed.

Lemma getTotalBalance_total accounts :
  getTotalBalance accounts = total (active_balances accounts).
Proof. apply fold_left_add_map. Qed.

Lemma active_balances_perm (l1 l2 : list Account) :
  Permutation l1 l2 -> Permutation (active_balances l1) (active_balances l2).
Proof.
  unfold active_balances.
  induction 1 as [|a l l' _ IH|a b l|l l' l'' _ IH1 _ IH2]; simpl.
  - constructor.
  - destruct (acc_isActive a); simpl; [constructor|]; exact IH.
  - destruct (acc_isActive a), (acc_isActive b); simpl;
      try apply Permutation_refl. constructor.
  - eapply Permutation_trans; eassumption.
Qed.

End Accounts.

(** *** Sums of rationals *)

Lemma exact_total_from (l : list Q) (a b : Q) :
  (a == b)%Q -> (fold_left Qplus l a == fold_left Qplus l b)%Q.
Proof.
  revert a b. induction l as [|x l IH]; intros a b Hab; simpl.
  - exact Hab.
  - apply IH. rewrite Hab. reflexivity.
Qed.

Lemma exact_total_perm (l1 l2 : list Q) (a : Q) :
  Permutation l1 l2 -> (fold_left Qplus l1 a == fold_left Qplus l2 a)%Q.
Proof.
  intros H. revert a.
  induction H as [|x l l' _ IH|x y l|l l' l'' _ IH1 _ IH2]; intros a; simpl.
  - reflexivity.
  - apply IH.
  - apply exact_total_from. ring.
  - rewrite IH1. apply IH2.
Qed.

(** C3.  [updateAccountBalance] starts from the account's initial balance and
    reads the ledger from the left: a completed transaction of the account
    adds its amount when its type is income or credit, subtracts it when its
    type is expense, debt, card charge or investment; a transfer, a
    transaction of another account and one that is not completed change
    nothing.  The result is a number computed from the account, which is only
    read.  On doubles, an initial balance of 1000 with one completed income
    of 500 and one completed expense of 200 gives 1300, in either order. *)
Theorem updateAccountBalance_reconciles :
  (forall (N : JSNumber) (account : Account),
      updateAccountBalance account [] = acc_initialBalance account
      /\ (forall txns t, posted_to account t ->
            In (tx_type t) [receita; credito] ->
            updateAccountBalance account (txns ++ [t]) =
            updateAccountBalance account txns +. tx_amount t)
      /\ (forall txns t, posted_to account t ->
            In (tx_type t) [despesa; divida; cartao_credito; investimento] ->
            updateAccountBalance account (txns ++ [t]) =
            updateAccountBalance account txns -. tx_amount t)
      /\ (forall txns t, tx_type t = transferencia \/ ~ posted_to account t ->
            updateAccountBalance account (txns ++ [t]) =
            updateAccountBalance account txns))
  /\ (forall (account : Account (N := Binary64)) (income expense : Transaction),
        acc_initialBalance account = 1000%float ->
        posted_to account income -> tx_type income = receita ->
        tx_amount income = 500%float ->
        posted_to account expense -> tx_type expense = despesa ->
        tx_amount expense = 200%float ->
        updateAccountBalance account [income; expense] = 1300%float
        /\ updateAccountBalance account [expense; income] = 1300%float).
Proof.
  split.
  - intros N account. apply updateAccountBalance_rule.
  - intros account income expense H0 Hi Hti Hai He Hte Hae.
    destruct (updateAccountBalance_rule account) as (Hnil & Hadd & Hsub & _).
    assert (Ci : In (tx_type income) [receita; credito])
      by (rewrite Hti; simpl; auto).
    assert (Ce : In (tx_type expense)
                    [despesa; divida; cartao_credito; investimento])
      by (rewrite Hte; simpl; auto).
    split.
    + change [income; expense] with (([] ++ [income]) ++ [expense]).
      rewrite (Hsub _ _ He Ce), (Hadd _ _ Hi Ci), Hnil, H0, Hai, Hae.
      reflexivity.
    + change [expense; income] with (([] ++ [expense]) ++ [income]).
      rewrite (Hadd _ _ Hi Ci), (Hsub _ _ He Ce), Hnil, H0, Hai, Hae.
      reflexivity.
Qed.

Lemma updateAccountBalance_reconciles_witness :
  let account := Sample.account "acc1" 0%float 1000%float true in
  updateAccountBalance account
    [Sample.tx receita concluida 500; Sample.tx despesa concluida 200]
  = 1300%float
  /\ updateAccountBalance account
       [Sample.tx despesa concluida 200; Sample.tx receita concluida 500]
     = 1300%float.
Proof.
  refine (proj2 updateAccountBalance_reconciles
            (Sample.account "acc1" 0%float 1000%float true)
            (Sample.tx receita concluida 500)
            (Sample.tx despesa concluida 200)
            eq_refl _ eq_refl eq_refl _ eq_refl eq_refl);
    split; reflexivity.
Defined.

(** A counterexample to C7 on doubles: three active accounts with balances
    0.1, 0.2 and 0.3, and the same three in reverse order. *)
Lemma getTotalBalance_order_counterexample :
  let a := Sample.account "a" 0.1%float 0%float true in
  let b := Sample.account "b" 0.2%float 0%float true in
  let c := Sample.account "c" 0.3%float 0%float true in
  Permutation [a; b; c] [c; b; a]
  /\ getTotalBalance [a; b; c] = 0.6000000000000001%float
  /\ getTotalBalance [c; b; a] = 0.6%float
  /\ (getTotalBalance [a; b; c] === getTotalBalance [c; b; a]) = false.
Proof.
  cbv zeta. split; [|repeat split; reflexivity].
  apply (Permutation_rev [_; _; _]).
Qed.

(** C7, as the code has it.  [getTotalBalance] adds, from the left and from
    0, the balances of the active accounts; permuting the collection permutes
    these terms and changes nothing else.  In exact arithmetic the total is
    therefore the same for every permutation of the collection; on doubles
    each addition rounds and the total can differ in the last place. *)
Theorem getTotalBalance_permutation :
  (forall (N : JSNumber) (l1 l2 : list Account),
      Permutation l1 l2 ->
      getTotalBalance l1 = total (active_balances l1)
      /\ getTotalBalance l2 = total (active_balances l2)
      /\ Permutation (active_balances l1) (active_balances l2))
  /\ (forall l1 l2 : list (Account (N := Exact)),
        Permutation l1 l2 ->
        (getTotalBalance l1 == getTotalBalance l2)%Q).
Proof.
  split.
  - intros N l1 l2 H. repeat split.
    + apply getTotalBalance_total.
    + apply getTotalBalance_total.
    + apply active_balances_perm, H.
  - intros l1 l2 H.
    rewrite !getTotalBalance_total. unfold total.
    apply (exact_total_perm _ _ _ (active_balances_perm l1 l2 H)).
Qed.

Lemma getTotalBalance_permutation_witness :
  let a := Sample.exact_account "a" (1 # 10) true in
  let b := Sample.exact_account "b" (2 # 10) false in
  let c := Sample.exact_account "c" (3 # 10) true in
  (getTotalBalance (N := Exact) [a; b; c]
   == getTotalBalance (N := Exact) [c; b; a])%Q.
Proof.
  cbv zeta.
  refine (proj2 getTotalBalance_permutation [_; _; _] [_; _; _] _).
  apply (Permutation_rev [_; _; _]).
Defined.

(** ** Installments *)

(** C9.  At a rate of 0, [installmentPayment] returns the principal divided by
    the number of periods, whatever the principal and the periods are (so in
    particular for a principal above 0 and at least one period). *)
Theorem installmentPayment_zero_rate (N : JSNumber) (principal : number)
    (periods : Z) :
  installmentPayment principal (lit 0) periods = principal /. lit periods.
Proof. unfold installmentPayment. rewrite strict_eq_zero. reflexivity. Qed.

(** ** Pending transactions *)

Section Pending.
Context {N : JSNumber}.
Implicit Types (t u : Transaction) (txns : list Transaction).

Lemma pending_test t :
  negb (bool_decide (tx_status t = pendente)) = false <->
  tx_status t = pendente.
Proof. rewrite negb_false_iff, bool_decide_eq_true. reflexivity. Qed.

Lemma getFutureTransactions_In today txns days u :
  In u (getFutureTransactions today txns days) <->
  In u txns /\ tx_status u = pendente
  /\ today <= effective_date u <= today + days * msPerDay.
Proof.
  unfold getFutureTransactions. rewrite In_filter_iff.
  destruct (negb (bool_decide (tx_status u = pendente))) eqn:E.
  - apply negb_true_iff, bool_decide_eq_false in E. intuition congruence.
  - apply pending_test in E.
    rewrite andb_true_iff, Z.geb_le, Z.leb_le. unfold msPerDay.
    intuition lia.
Qed.

Lemma getOverdueTransactions_In today txns u :
  In u (getOverdueTransactions today txns) <->
  In u txns /\ tx_status u = pendente /\ effective_date u < today.
Proof.
  unfold getOverdueTransactions. rewrite In_filter_iff.
  destruct (negb (bool_decide (tx_status u = pendente))) eqn:E.
  - apply negb_true_iff, bool_decide_eq_false in E. intuition congruence.
  - apply pending_test in E. rewrite Z.ltb_lt. intuition lia.
Qed.

(** C5.  With [today] the date of evaluation: the future transactions within
    [days] are the pending ones whose effective date lies in
    [[today, today + days]], both ends included, and the overdue ones are the
    pending ones whose effective date is strictly before [today]; the
    effective date is [scheduledDate] when it is set and [date] otherwise.  So
    a pending transaction of the ledger scheduled 5 days ahead is among the
    future transactions within 30 days and not overdue, and one scheduled 5
    days back is overdue and not among the future ones. *)
Theorem pending_future_or_overdue today txns :
  (forall days u,
      In u (getFutureTransactions today txns days) <->
      In u txns /\ tx_status u = pendente
      /\ today <= effective_date u <= today + days * msPerDay)
  /\ (forall u,
        In u (getOverdueTransactions today txns) <->
        In u txns /\ tx_status u = pendente /\ effective_date u < today)
  /\ (forall u,
        effective_date u = match tx_scheduledDate u with
                           | Some scheduled => scheduled
                           | None => tx_date u
                           end)
  /\ (forall t, In t txns -> tx_status t = pendente ->
        tx_scheduledDate t = Some (today + 5 * msPerDay) ->
        In t (getFutureTransactions today txns 30)
        /\ ~ In t (getOverdueTransactions today txns))
  /\ (forall t, In t txns -> tx_status t = pendente ->
        tx_scheduledDate t = Some (today - 5 * msPerDay) ->
        In t (getOverdueTransactions today txns)
        /\ ~ In t (getFutureTransactions today txns 30)).
Proof.
  split; [intros; apply getFutureTransactions_In|].
  split; [intros; apply getOverdueTransactions_In|].
  split; [reflexivity|].
  split; intros t Hin Hp Hs;
    rewrite getFutureTransactions_In, getOverdueTransactions_In;
    unfold effective_date; rewrite Hs; unfold msPerDay;
    (split; [|intros H]); intuition lia.
Qed.

End Pending.

Lemma pending_future_or_overdue_witness :
  let ahead :=
    Sample.scheduled pendente Sample.today (Sample.today + 5 * msPerDay) in
  let back :=
    Sample.scheduled pendente Sample.today (Sample.today - 5 * msPerDay) in
  let txns := Sample.ledger ++ [ahead; back] in
  (In ahead (getFutureTransactions Sample.today txns 30)
   /\ ~ In ahead (getOverdueTransactions Sample.today txns))
  /\ (In back (getOverdueTransactions Sample.today txns)
      /\ ~ In back (getFutureTransactions Sample.today txns 30)).
Proof.
  cbv zeta. split.
  - refine (proj1 (proj2 (proj2 (proj2
              (pending_future_or_overdue Sample.today _))))
              (Sample.scheduled pendente Sample.today
                 (Sample.today + 5 * msPerDay)) _ eq_refl eq_refl).
    apply in_or_app. right. left. reflexivity.
  - refine (proj2 (proj2 (proj2 (proj2
              (pending_future_or_overdue Sample.today _))))
              (Sample.scheduled pendente Sample.today
                 (Sample.today - 5 * msPerDay)) _ eq_refl eq_refl).
    apply in_or_app. right. right. left. reflexivity.
Defined.

(** ** Objects built by accumulation *)

Section Accumulation.
Context {N : JSNumber}.
Implicit Types (obj : gmap string number) (key k : string).

Lemma accumulate_lookup obj key value k :
  accumulate obj key value !! k =
  if String.eqb key k then Some (bump (obj !! key) value) else obj !! k.
Proof.
  unfold accumulate, bump, truthy_opt.
  destruct (String.eqb_spec key k) as [->|Hne].
  - destruct (obj !! k) as [x|] eqn:E; simpl.
    + destruct (truthy x) eqn:Ex; simpl.
      * rewrite lookup_insert_eq, (lookup_total_correct obj k x E).
        reflexivity.
      * rewrite lookup_insert_eq, lookup_total_insert_eq. reflexivity.
    + rewrite lookup_insert_eq, lookup_total_insert_eq. reflexivity.
  - rewrite lookup_insert_ne by exact Hne.
    destruct (negb _); [rewrite lookup_insert_ne by exact Hne|]; reflexivity.
Qed.

Lemma fold_accumulate_lookup {A} (key : A -> string) (val : A -> number)
    (l : list A) obj k :
  fold_left (fun obj a => accumulate obj (key a) (val a)) l obj !! k =
  fold_left (fun current v => Some (bump current v))
            (map val (List.filter (fun a => String.eqb (key a) k) l))
            (obj !! k).
Proof.
  revert obj. induction l as [|a l IH]; intros obj; simpl; [reflexivity|].
  rewrite IH, accumulate_lookup.
  destruct (String.eqb_spec (key a) k) as [->|Hne]; reflexivity.
Qed.

Lemma steady_fold (values : list number) (acc : number) :
  steady acc values = true ->
  fold_left (fun current v => Some (bump current v)) values (Some acc) =
  Some (fold_left add values acc).
Proof.
  revert acc. induction values as [|v rest IH]; intros acc H; simpl.
  - reflexivity.
  - simpl in H. apply andb_true_iff in H as [Ht Hs]. rewrite Ht.
    apply IH, Hs.
Qed.

Lemma accumulated_total (values : list number) :
  values <> [] -> sums_stay_truthy values = true ->
  accumulated values = Some (total values).
Proof.
  destruct values as [|v rest]; [congruence|]. intros _ H.
  unfold accumulated, total. simpl. apply steady_fold, H.
Qed.


(** **** The object literals of the monthly report *)

Lemma accumulated_snoc (values : list number) (v : number) :
  accumulated (values ++ [v]) = Some (bump (accumulated values) v).
Proof. unfold accumulated. rewrite fold_left_app. reflexivity. Qed.

Lemma amounts_of_snoc (category : string) (txns : list Transaction)
    (t : Transaction) :
  amounts_of category (txns ++ [t])
  = if String.eqb (tx_categoryId t) category
    then amounts_of category txns ++ [tx_amount t]
    else amounts_of category txns.
Proof.
  unfold amounts_of. rewrite List.filter_app. simpl.
  destruct (String.eqb (tx_categoryId t) category); simpl.
  - rewrite map_app. reflexivity.
  - rewrite app_nil_r. reflexivity.
Qed.

Lemma add_to_category_other (breakdown : gmap string JSValue)
    (id : string) (amount : number) k :
  id <> k -> add_to_category breakdown id amount !! k = breakdown !! k.
Proof.
  intros Hne. unfold add_to_category, Put.
  destruct (String.eqb id "__proto__"); [destruct (negb _); reflexivity|].
  rewrite lookup_insert_ne by exact Hne.
  destruct (negb _); [rewrite lookup_insert_ne by exact Hne|]; reflexivity.
Qed.

Lemma add_to_category_held (breakdown : gmap string JSValue)
    (id : string) (values : list number) (amount : number) :
  breakdown !! id = held id values ->
  add_to_category breakdown id amount !! id = held id (values ++ [amount]).
Proof.
  intros H. unfold held in H. unfold add_to_category, Put, held.
  destruct (String.eqb id "__proto__") eqn:Ep.
  - destruct (negb _); exact H.
  - destruct (inherited id) eqn:Ei.
    + destruct values as [|v rest]; unfold Get; rewrite H, ?Ei; simpl;
        unfold Get; rewrite H, ?Ei; rewrite lookup_insert_eq; reflexivity.
    + rewrite accumulated_snoc.
      destruct (accumulated values) as [x|]; simpl in H; unfold Get;
        rewrite H, ?Ei; simpl.
      * destruct (truthy x) eqn:Ex; simpl.
        -- unfold Get. rewrite H. rewrite lookup_insert_eq. reflexivity.
        -- unfold Get. rewrite !lookup_insert_eq. reflexivity.
      * unfold Get. rewrite !lookup_insert_eq. reflexivity.
Qed.

Lemma categoryBreakdown_held (txns : list Transaction) (category : string) :
  fold_left (fun breakdown t =>
               add_to_category breakdown (tx_categoryId t) (tx_amount t))
            txns (∅ : gmap string JSValue) !! category
  = held category (amounts_of category txns).
Proof.
  induction txns as [|t txns IH] using rev_ind.
  - simpl. rewrite lookup_empty. unfold held, amounts_of. simpl.
    destruct (String.eqb category "__proto__"); [reflexivity|].
    destruct (inherited category); reflexivity.
  - rewrite fold_left_app. simpl. rewrite amounts_of_snoc.
    destruct (String.eqb_spec (tx_categoryId t) category) as [E | E].
    + subst category. apply add_to_category_held, IH.
    + rewrite add_to_category_other by exact E. exact IH.
Qed.

Lemma Put_lookup {V} (obj : gmap string V) (key : string) (value : V) k :
  Put obj key value !! k
  = if String.eqb key k && negb (String.eqb key "__proto__")
    then Some value else obj !! k.
Proof.
  unfold Put. destruct (String.eqb key "__proto__").
  - rewrite andb_false_r. reflexivity.
  - rewrite andb_true_r. destruct (String.eqb_spec key k) as [-> | Hne].
    + apply lookup_insert_eq.
    + apply lookup_insert_ne, Hne.
Qed.

Lemma fold_Put_lookup_absent (accounts : list Account) obj k :
  (forall a, In a accounts -> acc_id a <> k) ->
  fold_left (fun obj a => Put obj (acc_id a) (acc_balance a)) accounts obj !! k
  = obj !! k.
Proof.
  revert obj. induction accounts as [|a l IH]; intros obj H; simpl.
  - reflexivity.
  - rewrite IH by (intros b Hb; apply H; right; exact Hb).
    rewrite Put_lookup.
    destruct (String.eqb_spec (acc_id a) k) as [E | E]; [|reflexivity].
    exfalso. apply (H a); [left; reflexivity | exact E].
Qed.

Lemma fold_Put_lookup_proto (accounts : list Account) obj :
  fold_left (fun obj a => Put obj (acc_id a) (acc_balance a)) accounts obj
    !! "__proto__"
  = obj !! "__proto__".
Proof.
  revert obj. induction accounts as [|a l IH]; intros obj; simpl.
  - reflexivity.
  - rewrite IH, Put_lookup.
    destruct (String.eqb_spec (acc_id a) "__proto__") as [E | E];
      reflexivity.
Qed.

Lemma fold_Put_lookup_last (before after : list Account) a obj :
  acc_id a <> "__proto__" ->
  Forall (fun b => acc_id b <> acc_id a) after ->
  fold_left (fun obj a => Put obj (acc_id a) (acc_balance a))
            (before ++ a :: after) obj !! acc_id a
  = Some (acc_balance a).
Proof.
  intros Hp H. rewrite fold_left_app. simpl.
  rewrite fold_Put_lookup_absent.
  - rewrite Put_lookup, String.eqb_refl.
    apply String.eqb_neq in Hp. rewrite Hp. reflexivity.
  - intros b Hb. rewrite List.Forall_forall in H. apply H, Hb.
Qed.


(** C8.  [getInvestmentAllocation] returns the empty mapping on the empty
    collection and whenever the total of the active investments' current
    values is 0, without dividing.  When the total is not 0, the entry under
    a type is built by accumulating, in collection order, the share
    [(currentValue / total) * 100] of each active investment of that type
    (no entry when there is none); it is their sum whenever no partial sum
    is falsy.  The only divisor is that non-zero total, and the function is
    total. *)
Theorem getInvestmentAllocation_shares :
  getInvestmentAllocation [] = ∅
  /\ (forall investments,
        (getTotalInvestments investments === lit 0) = true ->
        getInvestmentAllocation investments = ∅)
  /\ (forall investments key,
        (getTotalInvestments investments === lit 0) = false ->
        getInvestmentAllocation investments !! key =
        accumulated
          (shares_of key (getTotalInvestments investments) investments))
  /\ (forall investments key,
        (getTotalInvestments investments === lit 0) = false ->
        let shares :=
          shares_of key (getTotalInvestments investments) investments in
        shares <> [] -> sums_stay_truthy shares = true ->
        getInvestmentAllocation investments !! key = Some (total shares)).
Proof.
  assert (H3 : forall investments key,
             (getTotalInvestments investments === lit 0) = false ->
             getInvestmentAllocation investments !! key =
             accumulated
               (shares_of key (getTotalInvestments investments) investments)).
  { intros investments key Hz. unfold getInvestmentAllocation. rewrite Hz.
    rewrite (fold_accumulate_lookup
               (fun i => InvestmentType_key (inv_type i))
               (share (getTotalInvestments investments))).
    rewrite lookup_empty. reflexivity. }
  split; [|split; [|split]].
  - unfold getInvestmentAllocation. simpl.
    change (getTotalInvestments []) with (lit 0).
    rewrite strict_eq_zero. reflexivity.
  - intros investments Hz. unfold getInvestmentAllocation. rewrite Hz.
    reflexivity.
  - exact H3.
  - intros investments key Hz shares Hne Hs.
    rewrite (H3 _ _ Hz). apply accumulated_total; assumption.
Qed.

End Accumulation.

Lemma getInvestmentAllocation_shares_witness :
  getInvestmentAllocation (N := Binary64) [] = ∅
  /\ getInvestmentAllocation Sample.portfolio !! "renda_fixa"
     = Some 100%float
  /\ getInvestmentAllocation Sample.portfolio !! "fundos" = None
  /\ getInvestmentAllocation
       [Sample.investment fundos 0 true; Sample.investment outros 50 false]
     = ∅.
Proof.
  pose proof (getInvestmentAllocation_shares (N := Binary64))
    as (Hnil & Hzero & Hacc & Hsum).
  split; [exact Hnil|]. split; [|split].
  - refine (Hsum Sample.portfolio "renda_fixa" eq_refl _ eq_refl).
    discriminate.
  - exact (Hacc Sample.portfolio "fundos" eq_refl).
  - exact (Hzero [Sample.investment fundos 0 true;
                  Sample.investment outros 50 false] eq_refl).
Defined.

(** ** The calendar *)

Lemma DayFromYear_succ (y : Z) :
  Calendar.DayFromYear (y + 1) =
  Calendar.DayFromYear y + 365 + (if Calendar.InLeapYear y then 1 else 0).
Proof.
  unfold Calendar.DayFromYear, Calendar.InLeapYear.
  destruct (Z.eqb_spec (y mod 4) 0), (Z.eqb_spec (y mod 100) 0),
    (Z.eqb_spec (y mod 400) 0); simpl; Z.div_mod_to_equations; lia.
Qed.

Lemma MakeDay_day_before (yr month : Z) :
  Calendar.MakeDay yr month 0 = Calendar.MakeDay yr month 1 - 1.
Proof. unfold Calendar.MakeDay. lia. Qed.

Lemma MakeDay_first_of_month (yr month : Z) :
  1 <= month <= 12 ->
  Calendar.MakeDay yr (month - 1) 1 =
  Calendar.DayFromYear yr
  + Calendar.DayWithinYear (Calendar.InLeapYear yr) (month - 1).
Proof.
  intros H. unfold Calendar.MakeDay.
  rewrite (Z.div_small (month - 1) 12), (Z.mod_small (month - 1) 12) by lia.
  rewrite Z.add_0_r. lia.
Qed.

Lemma MakeDay_last_of_month (yr month : Z) :
  1 <= month <= 12 ->
  Calendar.MakeDay yr month 1 - 1 =
  Calendar.MakeDay yr (month - 1) 1
  + Calendar.DaysInMonth (Calendar.InLeapYear yr) (month - 1) - 1.
Proof.
  intros H.
  assert (Hm : In month [1; 2; 3; 4; 5; 6; 7; 8; 9; 10; 11; 12])
    by (simpl; lia).
  simpl in Hm.
  decompose [or] Hm; clear Hm; try contradiction; subst month;
    unfold Calendar.MakeDay; simpl;
    rewrite ?Z.add_0_r, ?DayFromYear_succ;
    destruct (Calendar.InLeapYear yr); simpl; lia.
Qed.

(** ** The monthly report *)

Section MonthlyReportProperties.
Context {N : JSNumber}.
Variable LocalTZA : Z -> Z.
Implicit Types (t : Transaction) (txns : list Transaction)
  (accounts : list Account).

Lemma getTransactionsByPeriod_In txns startDate endDate t :
  In t (getTransactionsByPeriod txns startDate endDate) <->
  In t txns /\ startDate <= tx_date t <= endDate.
Proof.
  unfold getTransactionsByPeriod. rewrite In_filter_iff.
  rewrite andb_true_iff, Z.geb_le, Z.leb_le. reflexivity.
Qed.

Lemma new_Date_days year month dt :
  Calendar.new_Date LocalTZA year month dt =
  Calendar.UTC LocalTZA
    (Calendar.MakeDay
       (if (0 <=? year) && (year <=? 99) then 1900 + year else year)
       month dt * msPerDay).
Proof.
  unfold Calendar.new_Date, Calendar.MakeDate. rewrite Z.add_0_r.
  reflexivity.
Qed.

(** What [generateMonthlyReport] computes.  It keeps the transactions whose
    date lies, both ends included, between local midnight at the start of
    the first calendar day of the month and local midnight at the start of
    the day before the first day of the next month, which for a month from 1
    to 12 is the last day of that month; its income, expenses and balance
    are the totals of that window.  Under a category id that names no
    property of [Object.prototype] it accumulates the amount of every
    transaction of the window filed under it, whatever its type and status,
    which is the sum of these amounts whenever no partial sum is falsy;
    under an id that names one it holds a string, and under [__proto__]
    nothing.  It maps the id of each account to that account's [balance]
    field (for accounts sharing an id, the last one's), except that it holds
    nothing under [__proto__]. *)
Lemma generateMonthlyReport_rule txns accounts month year :
  let yr := if (0 <=? year) && (year <=? 99) then 1900 + year else year in
  let firstDay := Calendar.MakeDay yr (month - 1) 1 in
  let lastDay := Calendar.MakeDay yr month 1 - 1 in
  let startDate := Calendar.UTC LocalTZA (firstDay * msPerDay) in
  let endDate := Calendar.UTC LocalTZA (lastDay * msPerDay) in
  let window := getTransactionsByPeriod txns startDate endDate in
  let report := generateMonthlyReport LocalTZA txns accounts month year in
  (1 <= month <= 12 ->
     firstDay = Calendar.DayFromYear yr
                + Calendar.DayWithinYear (Calendar.InLeapYear yr) (month - 1)
     /\ lastDay = firstDay
                  + Calendar.DaysInMonth (Calendar.InLeapYear yr) (month - 1)
                  - 1)
  /\ (forall t, In t window <->
                In t txns /\ startDate <= tx_date t <= endDate)
  /\ totalIncome report = getTotalIncome window
  /\ totalExpenses report = getTotalExpenses window
  /\ balance report = getTotalIncome window -. getTotalExpenses window
  /\ (forall category,
        categoryBreakdown report !! category =
        held category (amounts_of category window))
  /\ (forall category,
        inherited category = false ->
        categoryBreakdown report !! category =
        option_map Num (accumulated (amounts_of category window)))
  /\ (forall category,
        inherited category = false ->
        amounts_of category window <> [] ->
        sums_stay_truthy (amounts_of category window) = true ->
        categoryBreakdown report !! category =
        Some (Num (total (amounts_of category window))))
  /\ (forall before a after,
        accounts = before ++ a :: after ->
        acc_id a <> "__proto__" ->
        Forall (fun b => acc_id b <> acc_id a) after ->
        accountBalances report !! acc_id a = Some (acc_balance a))
  /\ (forall id,
        (forall a, In a accounts -> acc_id a <> id) ->
        accountBalances report !! id = None)
  /\ accountBalances report !! "__proto__" = None.
Proof.
  intros yr firstDay lastDay startDate endDate window report.
  assert (Hw : report =
    {| month := month; year := year;
       totalIncome := getTotalIncome window;
       totalExpenses := getTotalExpenses window;
       balance := getTotalIncome window -. getTotalExpenses window;
       categoryBreakdown :=
         fold_left (fun obj t =>
                      add_to_category obj (tx_categoryId t) (tx_amount t))
                   window (∅ : gmap string JSValue);
       accountBalances :=
         fold_left (fun obj account =>
                      Put obj (acc_id account) (acc_balance account))
                   accounts (∅ : gmap string number) |}).
  { unfold report, generateMonthlyReport, window, startDate, endDate,
      firstDay, lastDay, yr.
    rewrite !new_Date_days, MakeDay_day_before. reflexivity. }
  assert (Hcat : forall category,
             categoryBreakdown report !! category =
             held category (amounts_of category window)).
  { intros category. rewrite Hw. simpl. apply categoryBreakdown_held. }
  assert (Hown : forall category,
             inherited category = false ->
             categoryBreakdown report !! category =
             option_map Num (accumulated (amounts_of category window))).
  { intros category Hi. rewrite Hcat. unfold held. rewrite Hi.
    destruct (String.eqb_spec category "__proto__") as [-> | _];
      [discriminate | reflexivity]. }
  split.
  { intros Hm. split.
    - apply MakeDay_first_of_month, Hm.
    - apply MakeDay_last_of_month, Hm. }
  split; [intros t; apply getTransactionsByPeriod_In|].
  rewrite Hw in *; simpl.
  repeat split; try reflexivity.
  - exact Hcat.
  - exact Hown.
  - intros category Hi Hne Hs.
    transitivity (option_map Num (accumulated (amounts_of category window)));
      [exact (Hown category Hi)|].
    rewrite accumulated_total by assumption. reflexivity.
  - intros before a after -> Hp Hlast.
    apply fold_Put_lookup_last; assumption.
  - intros id Hid. rewrite fold_Put_lookup_absent by exact Hid.
    apply lookup_empty.
  - rewrite fold_Put_lookup_proto. apply lookup_empty.
Qed.

End MonthlyReportProperties.

(** January 2024 seen three hours behind UTC: the pending expense and the
    canceled debt count in the breakdown by category. *)
Lemma generateMonthlyReport_rule_witness :
  let report :=
    generateMonthlyReport Sample.utc_minus_3 Sample.two_months
                          Sample.accounts 1 2024 in
  (Calendar.MakeDay 2024 0 1 = 19723 /\ Calendar.MakeDay 2024 1 1 - 1 = 19753)
  /\ totalIncome report = 500%float
  /\ totalExpenses report = 0%float
  /\ categoryBreakdown report !! "cat1" = Some (Num 1600%float)
  /\ accountBalances report !! "acc1" = Some 1300%float
  /\ accountBalances report !! "acc3" = None.
Proof.
  cbv zeta.
  pose proof (generateMonthlyReport_rule (N := Binary64) Sample.utc_minus_3
                Sample.two_months Sample.accounts 1 2024)
    as (Hdays & _ & Hinc & Hexp & _ & _ & _ & Hsum & Hacc & Hnone & _).
  split; [|split; [|split; [|split; [|split]]]].
  - exact (Hdays (conj (Z.le_refl 1) (Zle_bool_imp_le 1 12 eq_refl))).
  - exact Hinc.
  - exact Hexp.
  - refine (Hsum "cat1" eq_refl _ eq_refl). discriminate.
  - refine (Hacc [] (Sample.account "acc1" 1300 1000 true)
              [Sample.account "acc2" 40 0 false] eq_refl _ _).
    + discriminate.
    + constructor; [discriminate | constructor].
  - apply Hnone. intros a [<- | [<- | []]]; discriminate.
Defined.

(** C4.  [generateMonthlyReport] at a ledger on which it parts from the
    specification: January 2024, seen three hours behind UTC.  The window of
    the specification runs from the first calendar day of the month through
    its last day; the window of the code ends at local midnight at the start
    of 31 January, because
    [new Date(year, month, 0)] is the first instant of that day.  So the
    completed income of 30 dated noon UTC on 31 January is left out of
    January: the report has an income of 500 where the window through the
    end of that day gives 530, and 1600 under the category where it gives
    1630.  It is not in February either.  Besides, an id that names a
    property of [Object.prototype] misses its entry: under the category
    [constructor] the breakdown holds a string, under [__proto__] it holds
    nothing, and the account with the id [__proto__] has no balance in the
    report. *)
Theorem generateMonthlyReport_last_day_left_out :
  Calendar.new_Date Sample.utc_minus_3 2024 0 1 = 1704078000000
  /\ Calendar.new_Date Sample.utc_minus_3 2024 1 0 = 1706670000000
  /\ Calendar.new_Date Sample.utc_minus_3 2024 1 1 = 1706756400000
  /\ In (Sample.dated receita concluida 30 Sample.end_january)
        Sample.two_months
  /\ (Calendar.new_Date Sample.utc_minus_3 2024 1 0 <? Sample.end_january)
     = true
  /\ (Sample.end_january <? Calendar.new_Date Sample.utc_minus_3 2024 1 1)
     = true
  /\ totalIncome (generateMonthlyReport Sample.utc_minus_3 Sample.two_months
                    Sample.accounts 1 2024) = 500%float
  /\ getTotalIncome
       (getTransactionsByPeriod Sample.two_months
          (Calendar.new_Date Sample.utc_minus_3 2024 0 1)
          (Calendar.new_Date Sample.utc_minus_3 2024 1 1 - 1)) = 530%float
  /\ categoryBreakdown
       (generateMonthlyReport Sample.utc_minus_3 Sample.two_months
          Sample.accounts 1 2024) !! "cat1" = Some (Num 1600%float)
  /\ total (amounts_of "cat1"
              (getTransactionsByPeriod Sample.two_months
                 (Calendar.new_Date Sample.utc_minus_3 2024 0 1)
                 (Calendar.new_Date Sample.utc_minus_3 2024 1 1 - 1)))
     = 1630%float
  /\ totalIncome (generateMonthlyReport Sample.utc_minus_3 Sample.two_months
                    Sample.accounts 2 2024) = 70%float
  /\ categoryBreakdown
       (generateMonthlyReport Sample.utc_minus_3 Sample.inherited_ids
          Sample.inherited_accounts 1 2024) !! "constructor"
     = Some (Text "constructor" [10%float; 20%float])
  /\ categoryBreakdown
       (generateMonthlyReport Sample.utc_minus_3 Sample.inherited_ids
          Sample.inherited_accounts 1 2024) !! "__proto__" = None
  /\ accountBalances
       (generateMonthlyReport Sample.utc_minus_3 Sample.inherited_ids
          Sample.inherited_accounts 1 2024) !! "__proto__" = None
  /\ accountBalances
       (generateMonthlyReport Sample.utc_minus_3 Sample.inherited_ids
          Sample.inherited_accounts 1 2024) !! "constructor"
     = Some 40%float.
Proof.
  pose proof (generateMonthlyReport_rule (N := Binary64) Sample.utc_minus_3
                Sample.two_months Sample.accounts 1 2024)
    as (_ & _ & Hincome & _ & _ & Hcat & _).
  pose proof (generateMonthlyReport_rule (N := Binary64) Sample.utc_minus_3
                Sample.two_months Sample.accounts 2 2024)
    as (_ & _ & Hfebruary & _).
  pose proof (generateMonthlyReport_rule (N := Binary64) Sample.utc_minus_3
                Sample.inherited_ids Sample.inherited_accounts 1 2024)
    as (_ & _ & _ & _ & _ & Hheld & _ & _ & Hlast & _ & Hproto).
  split; [reflexivity|]. split; [reflexivity|]. split; [reflexivity|].
  split; [do 3 right; left; reflexivity|].
  split; [reflexivity|]. split; [reflexivity|].
  split; [etransitivity; [exact Hincome | reflexivity]|].
  split; [reflexivity|].
  split; [etransitivity; [exact (Hcat "cat1") | reflexivity]|].
  split; [reflexivity|].
  split; [etransitivity; [exact Hfebruary | reflexivity]|].
  split; [etransitivity; [exact (Hheld "constructor") | reflexivity]|].
  split; [etransitivity; [exact (Hheld "__proto__") | reflexivity]|].
  split; [exact Hproto|].
  refine (Hlast [Sample.account "__proto__" 100 0 true]
            (Sample.account "constructor" 40 0 true) [] eq_refl _ _).
  - discriminate.
  - constructor.
Qed.

(** ** Amortization in exact arithmetic *)

Section ExactAmortization.
Local Open Scope Q_scope.

Lemma Qpower_qpow (x : Q) (m : nat) : x ^ Z.of_nat m == qpow x m.
Proof.
  induction m as [|m IH].
  - reflexivity.
  - rewrite Nat2Z.inj_succ, <- Z.add_1_l.
    rewrite Qpower_plus' by lia. rewrite Qpower_1_r, IH. reflexivity.
Qed.

Lemma qpow_pos x m : 0 < x -> 0 < qpow x m.
Proof.
  intros Hx. induction m as [|m IH]; simpl.
  - reflexivity.
  - apply Qmult_lt_0_compat; assumption.
Qed.

Lemma geometric_nonneg x m : 0 < x -> 0 <= geometric x m.
Proof.
  intros Hx. induction m as [|m IH]; simpl.
  - apply Qle_refl.
  - pose proof (qpow_pos x m Hx). lra.
Qed.

Lemma geometric_pos x m : 0 < x -> 0 < geometric x (S m).
Proof.
  intros Hx. simpl. pose proof (qpow_pos x m Hx).
  pose proof (geometric_nonneg x m Hx). lra.
Qed.

Lemma qpow_geometric x m : qpow x m - 1 == (x - 1) * geometric x m.
Proof.
  induction m as [|m IH]; simpl.
  - ring.
  - rewrite Qmult_plus_distr_r, <- IH. ring.
Qed.


Lemma geometric_ratio a b m :
  0 < a -> a <= b -> qpow a m * geometric b m <= qpow b m * geometric a m.
Proof.
  intros Ha Hab. assert (Hb : 0 < b) by lra.
  induction m as [|m IH]; simpl.
  - lra.
  - pose proof (qpow_pos a m Ha) as Pa. pose proof (qpow_pos b m Hb) as Pb.
    pose proof (geometric_nonneg a m Ha) as Ga.
    pose proof (geometric_nonneg b m Hb) as Gb.
    revert IH Pa Pb Ga Gb.
    generalize (qpow a m) (qpow b m) (geometric a m) (geometric b m).
    intros pa pb ga gb IH Pa Pb Ga Gb.
    assert (H1 : a * (pa * gb) <= b * (pb * ga)).
    { apply Qle_trans with (b * (pa * gb)).
      - apply Qmult_le_compat_r; [exact Hab|]. apply Qmult_le_0_compat; lra.
      - apply Qmult_le_l; [exact Hb | exact IH]. }
    assert (H2 : a * (pa * pb) <= b * (pa * pb)).
    { apply Qmult_le_compat_r; [exact Hab|]. apply Qmult_le_0_compat; lra. }
    assert (E1 : a * pa * (gb + pb) == a * (pa * gb) + a * (pa * pb)) by ring.
    assert (E2 : b * pb * (ga + pa) == b * (pb * ga) + b * (pa * pb)) by ring.
    rewrite E1, E2. lra.
Qed.


Lemma exact_walk (i A p : Q) (m : nat) :
  i * Nat.iter m (pay_period (N := Exact) i A) p ==
  p * i * qpow (1 + i) m - A * (qpow (1 + i) m - 1).
Proof.
  induction m as [|m IH].
  - simpl. ring.
  - change (Nat.iter (S m) (pay_period (N := Exact) i A) p)
      with (pay_period (N := Exact) i A
              (Nat.iter m (pay_period (N := Exact) i A) p)).
    revert IH. generalize (Nat.iter m (pay_period (N := Exact) i A) p).
    intros B IH. unfold pay_period. cbn [add sub mul Exact qpow].
    assert (E : i * (B - (A - B * i)) == (1 + i) * (i * B) - i * A) by ring.
    rewrite E, IH. ring.
Qed.



End ExactAmortization.

(** ** The zero and the unpaid balance on doubles *)













(** ** The installment and the schedule it amortizes, in exact arithmetic *)

Section ExactSchedule.
Local Open Scope Q_scope.

Lemma rate_cases (r : Q) : 0 <= r -> r == 0 \/ 0 < r.
Proof.
  intros H. apply Qle_lteq in H as [H | H]; [right; exact H|].
  left. symmetry. exact H.
Qed.

Lemma monthly_pos (rate : Q) : 0 < rate -> 0 < monthly rate.
Proof.
  intros H. unfold monthly.
  apply Qlt_shift_div_l; [reflexivity|].
  apply Qlt_shift_div_l; [reflexivity|]. lra.
Qed.

Lemma monthly_times_12 (rate : Q) :
  monthly (rate * inject_Z 12) == 12 * monthly rate.
Proof. unfold monthly. field. Qed.

Lemma qpow_gt_1 (a : Q) (m : nat) : 1 < a -> (0 < m)%nat -> 1 < qpow a m.
Proof.
  intros Ha Hm.
  pose proof (qpow_geometric a m) as E.
  destruct m as [|m]; [lia|].
  pose proof (geometric_pos a m ltac:(lra)) as G.
  assert (0 < (a - 1) * geometric a (S m)) by (apply Qmult_lt_0_compat; lra).
  lra.
Qed.

(** The installment in closed form: the principal times the last power,
    over the geometric sum. *)
Lemma exact_installmentPayment (p r : Q) (m : nat) :
  0 < r -> (0 < m)%nat ->
  installmentPayment (N := Exact) p r (Z.of_nat m)
  == p * qpow (1 + monthly r) m / geometric (1 + monthly r) m.
Proof.
  intros Hr Hm.
  pose proof (monthly_pos r Hr) as Hi.
  unfold installmentPayment.
  cbn [strict_eq lit add sub mul div Math_pow Math_max Exact number].
  destruct (Qeq_bool r (inject_Z 0)) eqn:E.
  { apply Qeq_bool_iff in E. change (inject_Z 0) with 0 in E. lra. }
  fold (monthly r). change (inject_Z 1) with 1.
  rewrite Qpower_qpow.
  pose proof (qpow_geometric (1 + monthly r) m) as Eg.
  destruct m as [|m]; [lia|].
  pose proof (geometric_pos (1 + monthly r) m ltac:(lra)) as G.
  revert Eg G.
  generalize (qpow (1 + monthly r) (S m)) (geometric (1 + monthly r) (S m)).
  intros P G Eg HG.
  assert (E1 : P - 1 == monthly r * G) by (rewrite Eg; ring).
  rewrite E1. field. split; lra.
Qed.

Lemma schedule_closed (p r A : Q) (k : nat) :
  monthly r * schedule p r A k ==
  p * monthly r * qpow (1 + monthly r) k - A * (qpow (1 + monthly r) k - 1).
Proof. apply exact_walk. Qed.

(** X1.  In exact arithmetic, the installment that [installmentPayment]
    gives for a rate above 0 pays the loan off: starting from the principal,
    adding each month the interest at [rate / 100 / 12] and taking the
    installment away, the balance after [periods] payments is 0. *)
Theorem installmentPayment_amortizes (p r : Q) (n : Z) :
  0 < r -> (1 <= n)%Z ->
  schedule p r (installmentPayment (N := Exact) p r n) (Z.to_nat n) == 0.
Proof.
  intros Hr Hn.
  assert (Hm : exists m, n = Z.of_nat m /\ (0 < m)%nat)
    by (exists (Z.to_nat n); lia).
  destruct Hm as (m & -> & Hm). rewrite Nat2Z.id.
  pose proof (monthly_pos r Hr) as Hi.
  pose proof (schedule_closed p r
                (installmentPayment (N := Exact) p r (Z.of_nat m)) m) as Hw.
  pose proof (exact_installmentPayment p r m Hr Hm) as EA.
  pose proof (qpow_geometric (1 + monthly r) m) as Eg.
  destruct m as [|m]; [lia|].
  pose proof (geometric_pos (1 + monthly r) m ltac:(lra)) as G.
  revert Hw EA.
  generalize (installmentPayment (N := Exact) p r (Z.of_nat (S m))).
  intros A Hw EA.
  assert (E0 : monthly r * schedule p r A (S m) == 0).
  { rewrite Hw, EA. revert Eg G.
    generalize (qpow (1 + monthly r) (S m))
      (geometric (1 + monthly r) (S m)).
    intros P G Eg HG.
    assert (E1 : P - 1 == monthly r * G) by (rewrite Eg; ring).
    rewrite E1. field. lra. }
  apply Qmult_integral in E0. destruct E0 as [E0 | E0]; [lra | exact E0].
Qed.

Lemma installmentPayment_amortizes_witness :
  0 < 12 /\ (1 <= 12)%Z
  /\ schedule 1200 12 (installmentPayment (N := Exact) 1200 12 12)
              (Z.to_nat 12) == 0.
Proof.
  split; [reflexivity|]. split; [lia|].
  apply (installmentPayment_amortizes 1200 12 12); [reflexivity | lia].
Defined.

Lemma geometric_le_scaled (a : Q) (m : nat) :
  1 <= a -> geometric a m <= inject_Z (Z.of_nat m) * qpow a m.
Proof.
  intros Ha. induction m as [|m IH].
  - simpl. apply Qle_refl.
  - rewrite Nat2Z.inj_succ. unfold Z.succ. rewrite inject_Z_plus.
    change (inject_Z 1) with 1. simpl.
    pose proof (qpow_pos a m ltac:(lra)) as P.
    assert (H0 : 0 <= inject_Z (Z.of_nat m))
      by (change 0 with (inject_Z 0); rewrite <- Zle_Qle; lia).
    revert IH P H0.
    generalize (qpow a m) (geometric a m) (inject_Z (Z.of_nat m)).
    intros P G M IH HP HM.
    assert (H2 : P <= a * P) by nra.
    assert (H1 : 0 <= M * (a * P - P)) by (apply Qmult_le_0_compat; lra).
    lra.
Qed.

Lemma exact_installmentPayment_flat (p r : Q) (n : Z) :
  r == 0 -> installmentPayment (N := Exact) p r n = p / inject_Z n.
Proof.
  intros Hr. unfold installmentPayment.
  cbn [strict_eq lit add sub mul div Math_pow Math_max Exact number].
  destruct (Qeq_bool r (inject_Z 0)) eqn:E; [reflexivity|].
  apply Qeq_bool_neq in E. contradiction.
Qed.

Lemma exact_installmentPayment_above_flat (p r : Q) (m : nat) :
  0 < p -> 0 < r -> (0 < m)%nat ->
  p / inject_Z (Z.of_nat m)
  < installmentPayment (N := Exact) p r (Z.of_nat m).
Proof.
  intros Hp Hr Hm.
  rewrite (exact_installmentPayment p r m Hr Hm).
  pose proof (monthly_pos r Hr) as Hi.
  destruct m as [|m]; [lia|].
  pose proof (geometric_pos (1 + monthly r) m ltac:(lra)) as G.
  pose proof (geometric_le_scaled (1 + monthly r) m ltac:(lra)) as Hle.
  pose proof (qpow_pos (1 + monthly r) m ltac:(lra)) as P.
  assert (HM : 0 < inject_Z (Z.of_nat (S m)))
    by (change 0 with (inject_Z 0); rewrite <- Zlt_Qlt; lia).
  assert (EM : inject_Z (Z.of_nat (S m)) == inject_Z (Z.of_nat m) + 1).
  { rewrite Nat2Z.inj_succ. unfold Z.succ. rewrite inject_Z_plus.
    reflexivity. }
  apply Qlt_shift_div_l; [exact G|].
  assert (E : p / inject_Z (Z.of_nat (S m)) *
              geometric (1 + monthly r) (S m)
              == p * (geometric (1 + monthly r) (S m)
                      / inject_Z (Z.of_nat (S m)))) by (field; lra).
  rewrite E. apply Qmult_lt_l; [exact Hp|].
  apply Qlt_shift_div_r; [exact HM|].
  rewrite EM. simpl.
  assert (H0 : 0 <= inject_Z (Z.of_nat m))
    by (change 0 with (inject_Z 0); rewrite <- Zle_Qle; lia).
  revert Hle P H0.
  generalize (qpow (1 + monthly r) m) (geometric (1 + monthly r) m)
    (inject_Z (Z.of_nat m)).
  intros Pm Gm M Hle HP HM0.
  assert (H2 : Pm < (1 + monthly r) * Pm) by nra.
  assert (H1 : 0 <= M * ((1 + monthly r) * Pm - Pm))
    by (apply Qmult_le_0_compat; lra).
  lra.
Qed.

Lemma installment_covers_interest (p r : Q) (m : nat) :
  0 <= p -> 0 < r -> (0 < m)%nat ->
  p * monthly r <= installmentPayment (N := Exact) p r (Z.of_nat m).
Proof.
  intros Hp Hr Hm. rewrite (exact_installmentPayment p r m Hr Hm).
  pose proof (monthly_pos r Hr) as Hi.
  pose proof (qpow_geometric (1 + monthly r) m) as Eg.
  destruct m as [|m]; [lia|].
  pose proof (geometric_pos (1 + monthly r) m ltac:(lra)) as G.
  revert Eg G.
  generalize (qpow (1 + monthly r) (S m)) (geometric (1 + monthly r) (S m)).
  intros P G Eg HG.
  apply Qle_shift_div_l; [exact HG|].
  assert (E : p * monthly r * G == p * (P - 1)) by (rewrite Eg; ring).
  rewrite E. nra.
Qed.

Lemma pay_period_le (i A p B : Q) :
  0 <= i -> p * i <= A -> B <= p -> pay_period (N := Exact) i A B <= B.
Proof.
  intros Hi HA HB. unfold pay_period. cbn [add sub mul Exact].
  assert (H : B * i <= p * i) by (apply Qmult_le_compat_r; assumption).
  lra.
Qed.

Lemma schedule_never_grows (p r A : Q) (k : nat) :
  0 <= monthly r -> p * monthly r <= A ->
  schedule p r A (S k) <= schedule p r A k /\ schedule p r A k <= p.
Proof.
  intros Hi HA.
  assert (Hk : schedule p r A k <= p).
  { induction k as [|k IH]; [apply Qle_refl|].
    apply Qle_trans with (schedule p r A k); [|exact IH].
    apply (pay_period_le (monthly r) A p); assumption. }
  split; [|exact Hk].
  apply (pay_period_le (monthly r) A p); assumption.
Qed.

Lemma exact_remainingBalance_walk (p r : Q) (n k : Z) :
  0 < r ->
  remainingBalance (N := Exact) p r n k =
  Qmax 0 (schedule p r
            (installmentPayment (N := Exact) p (r * inject_Z 12) n)
            (Z.to_nat k)).
Proof.
  intros Hr. unfold remainingBalance.
  cbn [strict_eq lit add sub mul div Math_pow Math_max Exact number].
  destruct (Qeq_bool r (inject_Z 0)) eqn:E; [|reflexivity].
  apply Qeq_bool_iff in E. change (inject_Z 0) with 0 in E. lra.
Qed.

Lemma exact_remainingBalance_flat (p r : Q) (n k : Z) :
  r == 0 ->
  remainingBalance (N := Exact) p r n k =
  p * (inject_Z n - inject_Z k) / inject_Z n.
Proof.
  intros Hr. unfold remainingBalance.
  cbn [strict_eq lit add sub mul div Math_pow Math_max Exact number].
  destruct (Qeq_bool r (inject_Z 0)) eqn:E; [reflexivity|].
  apply Qeq_bool_neq in E. contradiction.
Qed.



(** X2.  In exact arithmetic, for a principal and a rate that are not
    negative and at least one period, the balance that [remainingBalance]
    gives never grows with the number of paid periods, and never exceeds the
    principal. *)
Theorem remainingBalance_never_grows (p r : Q) (n k : Z) :
  0 <= p -> 0 <= r -> (1 <= n)%Z -> (0 <= k)%Z ->
  remainingBalance (N := Exact) p r n (k + 1)
  <= remainingBalance (N := Exact) p r n k
  /\ remainingBalance (N := Exact) p r n k <= p.
Proof.
  intros Hp Hr Hn Hk.
  assert (Hqn : 0 < inject_Z n)
    by (change 0 with (inject_Z 0); rewrite <- Zlt_Qlt; lia).
  assert (Hqk : 0 <= inject_Z k)
    by (change 0 with (inject_Z 0); rewrite <- Zle_Qle; lia).
  destruct (rate_cases r Hr) as [E | Hr0].
  - rewrite !exact_remainingBalance_flat by exact E.
    rewrite inject_Z_plus. change (inject_Z 1) with 1. split.
    + unfold Qdiv. apply Qmult_le_compat_r.
      * nra.
      * apply Qinv_le_0_compat. lra.
    + apply Qle_shift_div_r; [exact Hqn|]. nra.
  - rewrite !exact_remainingBalance_walk by exact Hr0.
    replace (Z.to_nat (k + 1)) with (S (Z.to_nat k)) by lia.
    assert (Hm : exists m, n = Z.of_nat m /\ (0 < m)%nat)
      by (exists (Z.to_nat n); lia).
    destruct Hm as (m & -> & Hm).
    pose proof (monthly_pos r Hr0) as Hi.
    assert (HA : p * monthly r
                 <= installmentPayment (N := Exact) p (r * inject_Z 12)
                      (Z.of_nat m)).
    { apply Qle_trans with (p * monthly (r * inject_Z 12)).
      - rewrite monthly_times_12. nra.
      - apply installment_covers_interest; [exact Hp| |exact Hm].
        change (inject_Z 12) with 12. lra. }
    destruct (schedule_never_grows p r _ (Z.to_nat k) (Qlt_le_weak _ _ Hi) HA)
      as [H1 H2].
    split.
    + apply Q.max_le_compat_l. exact H1.
    + apply Q.max_lub; assumption.
Qed.

Lemma remainingBalance_never_grows_witness :
  (0 <= 1200 /\ 0 <= 24 /\ (1 <= 12)%Z /\ (0 <= 5)%Z)
  /\ remainingBalance (N := Exact) 1200 24 12 (5 + 1)
     <= remainingBalance (N := Exact) 1200 24 12 5
  /\ remainingBalance (N := Exact) 1200 24 12 5 <= 1200.
Proof.
  split; [repeat split; (discriminate || lia)|].
  apply (remainingBalance_never_grows 1200 24 12 5);
    discriminate || lia.
Defined.

Lemma geometric_ratio_strict (a b : Q) (m : nat) :
  0 < a -> a < b ->
  qpow a (S m) * geometric b (S m) < qpow b (S m) * geometric a (S m).
Proof.
  intros Ha Hab. assert (Hb : 0 < b) by lra.
  pose proof (geometric_ratio a b m Ha (Qlt_le_weak _ _ Hab)) as IH.
  pose proof (qpow_pos a m Ha) as Pa. pose proof (qpow_pos b m Hb) as Pb.
  pose proof (geometric_nonneg a m Ha) as Ga.
  pose proof (geometric_nonneg b m Hb) as Gb.
  simpl. revert IH Pa Pb Ga Gb.
  generalize (qpow a m) (qpow b m) (geometric a m) (geometric b m).
  intros pa pb ga gb IH Pa Pb Ga Gb.
  assert (H1 : a * (pa * gb) <= b * (pb * ga)).
  { apply Qle_trans with (b * (pa * gb)).
    - apply Qmult_le_compat_r; [lra|]. apply Qmult_le_0_compat; lra.
    - apply Qmult_le_l; [exact Hb | exact IH]. }
  assert (H2 : a * (pa * pb) < b * (pa * pb)).
  { apply Qmult_lt_compat_r; [|exact Hab]. apply Qmult_lt_0_compat; lra. }
  assert (E1 : a * pa * (gb + pb) == a * (pa * gb) + a * (pa * pb)) by ring.
  assert (E2 : b * pb * (ga + pa) == b * (pb * ga) + b * (pa * pb)) by ring.
  rewrite E1, E2. lra.
Qed.

Lemma exact_installmentPayment_rate (p r r' : Q) (m : nat) :
  0 < p -> 0 < r -> r < r' -> (0 < m)%nat ->
  installmentPayment (N := Exact) p r (Z.of_nat m)
  < installmentPayment (N := Exact) p r' (Z.of_nat m).
Proof.
  intros Hp Hr Hrr Hm.
  rewrite (exact_installmentPayment p r m Hr Hm).
  rewrite (exact_installmentPayment p r' m ltac:(lra) Hm).
  pose proof (monthly_pos r Hr) as Hi.
  assert (Hij : monthly r < monthly r').
  { assert (E : monthly r' == monthly r + monthly (r' - r))
      by (unfold monthly; field).
    pose proof (monthly_pos (r' - r) ltac:(lra)). lra. }
  destruct m as [|m]; [lia|].
  pose proof (geometric_ratio_strict (1 + monthly r) (1 + monthly r') m
                ltac:(lra) ltac:(lra)) as H.
  pose proof (geometric_pos (1 + monthly r) m ltac:(lra)) as Ga.
  pose proof (geometric_pos (1 + monthly r') m ltac:(lra)) as Gb.
  revert H Ga Gb.
  generalize (qpow (1 + monthly r) (S m)) (qpow (1 + monthly r') (S m))
    (geometric (1 + monthly r) (S m)) (geometric (1 + monthly r') (S m)).
  intros pa pb ga gb H Ga Gb.
  apply Qlt_shift_div_l; [exact Gb|].
  assert (E : p * pa / ga * gb == p * (pa * gb) / ga) by (field; lra).
  rewrite E. apply Qlt_shift_div_r; [exact Ga|].
  assert (E2 : p * pb * ga == p * (pb * ga)) by ring.
  rewrite E2. apply Qmult_lt_l; assumption.
Qed.

(** X3.  In exact arithmetic, for a principal above 0 and at least one
    period, a higher rate means a higher installment: [installmentPayment] is
    strictly increasing in the rate, from rate 0 on, where it is the
    principal divided by the number of periods. *)
Theorem installmentPayment_grows_with_rate (p r r' : Q) (n : Z) :
  0 < p -> 0 <= r -> r < r' -> (1 <= n)%Z ->
  installmentPayment (N := Exact) p r n
  < installmentPayment (N := Exact) p r' n.
Proof.
  intros Hp Hr Hrr Hn.
  assert (Hm : exists m, n = Z.of_nat m /\ (0 < m)%nat)
    by (exists (Z.to_nat n); lia).
  destruct Hm as (m & -> & Hm).
  destruct (rate_cases r Hr) as [E | Hr0].
  - rewrite (exact_installmentPayment_flat p r _ E).
    apply exact_installmentPayment_above_flat; [exact Hp|lra|exact Hm].
  - apply exact_installmentPayment_rate; assumption.
Qed.

Lemma installmentPayment_grows_with_rate_witness :
  (0 < 1200 /\ 0 <= 0 /\ 0 < 12 /\ (1 <= 12)%Z)
  /\ installmentPayment (N := Exact) 1200 0 12
     < installmentPayment (N := Exact) 1200 12 12.
Proof.
  split; [repeat split; (discriminate || lia)|].
  apply (installmentPayment_grows_with_rate 1200 0 12 12);
    reflexivity || discriminate || lia.
Defined.

Lemma qpow_lt (a : Q) (k d : nat) :
  1 < a -> qpow a k < qpow a (k + S d).
Proof.
  intros Ha. pose proof (qpow_pos a k ltac:(lra)) as Pk.
  induction d as [|d IH].
  - replace (k + 1)%nat with (S k) by lia. simpl. nra.
  - replace (k + S (S d))%nat with (S (k + S d)) by lia. simpl.
    pose proof (qpow_pos a (k + S d) ltac:(lra)). nra.
Qed.

Lemma schedule_own_installment_pos (p r : Q) (k d : nat) :
  0 < p -> 0 < r ->
  0 < schedule p r
        (installmentPayment (N := Exact) p r (Z.of_nat (k + S d))) k.
Proof.
  intros Hp Hr.
  pose proof (monthly_pos r Hr) as Hi.
  pose proof (schedule_closed p r
    (installmentPayment (N := Exact) p r (Z.of_nat (k + S d))) k) as Hw.
  pose proof (exact_installmentPayment p r (k + S d) Hr ltac:(lia)) as EA.
  revert Hw EA.
  generalize (installmentPayment (N := Exact) p r (Z.of_nat (k + S d))).
  intros A Hw EA.
  pose proof (qpow_geometric (1 + monthly r) (k + S d)) as Eg.
  pose proof (qpow_lt (1 + monthly r) k d ltac:(lra)) as Hlt.
  replace (k + S d)%nat with (S (k + d)) in * by lia.
  pose proof (geometric_pos (1 + monthly r) (k + d) ltac:(lra)) as G.
  revert Hw EA Eg Hlt G.
  generalize (schedule p r A k) (qpow (1 + monthly r) k)
    (qpow (1 + monthly r) (S (k + d))) (geometric (1 + monthly r) (S (k + d))).
  intros B Pk Pn Gn Hw EA Eg Hlt G.
  assert (E : monthly r * B * Gn == p * (Pn - Pk)).
  { rewrite Hw, EA.
    assert (E1 : (p * monthly r * Pk - p * Pn / Gn * (Pk - 1)) * Gn
                 == p * Pk * (monthly r * Gn) - p * Pn * (Pk - 1))
      by (field; lra).
    rewrite E1.
    assert (E2 : monthly r * Gn == Pn - 1) by (rewrite Eg; ring).
    rewrite E2. ring. }
  assert (H : 0 < monthly r * B * Gn).
  { rewrite E. apply Qmult_lt_0_compat; lra. }
  destruct (Qlt_le_dec 0 B) as [HB | HB]; [exact HB|].
  exfalso.
  assert (H1 : monthly r * B <= 0) by nra.
  assert (H2 : monthly r * B * Gn <= 0) by nra.
  lra.
Qed.

Lemma schedule_installment_lt (p r A A' : Q) (k : nat) :
  0 < r -> A < A' ->
  schedule p r A' (S k) < schedule p r A (S k).
Proof.
  intros Hr HA.
  pose proof (monthly_pos r Hr) as Hi.
  pose proof (schedule_closed p r A (S k)) as H1.
  pose proof (schedule_closed p r A' (S k)) as H2.
  pose proof (qpow_lt (1 + monthly r) 0 k ltac:(lra)) as HP.
  change (qpow (1 + monthly r) 0) with 1 in HP.
  change (0 + S k)%nat with (S k) in HP.
  revert H1 H2 HP.
  generalize (schedule p r A (S k)) (schedule p r A' (S k))
    (qpow (1 + monthly r) (S k)).
  intros B B' P H1 H2 HP.
  assert (E : monthly r * (B - B') == (A' - A) * (P - 1)).
  { assert (E0 : monthly r * (B - B') == monthly r * B - monthly r * B')
      by ring.
    rewrite E0, H1, H2. ring. }
  assert (H : 0 < monthly r * (B - B')).
  { rewrite E. apply Qmult_lt_0_compat; lra. }
  destruct (Qlt_le_dec B' B) as [HB | HB]; [exact HB|].
  exfalso. assert (H3 : monthly r * (B - B') <= 0) by nra. lra.
Qed.

(** X4.  [remainingBalance] computes its installment at twelve times the
    rate at which it lets interest accrue.  So in exact arithmetic, for a
    principal and a rate above 0, after at least one and before the last of
    the payments the balance it gives is strictly below the balance of the
    loan that [installmentPayment] amortizes at that rate over the same
    periods. *)
Theorem remainingBalance_understates (p r : Q) (n k : Z) :
  0 < p -> 0 < r -> (1 <= k < n)%Z ->
  remainingBalance (N := Exact) p r n k
  < schedule p r (installmentPayment (N := Exact) p r n) (Z.to_nat k).
Proof.
  intros Hp Hr Hk.
  rewrite exact_remainingBalance_walk by exact Hr.
  assert (Hm : exists j d, k = Z.of_nat (S j)
                           /\ n = Z.of_nat (S j + S d)).
  { exists (Z.to_nat (k - 1)), (Z.to_nat (n - k - 1)). lia. }
  destruct Hm as (j & d & -> & ->). rewrite Nat2Z.id.
  pose proof (schedule_own_installment_pos p r (S j) d Hp Hr) as Hpos.
  assert (HA : installmentPayment (N := Exact) p r (Z.of_nat (S j + S d))
               < installmentPayment (N := Exact) p (r * inject_Z 12)
                   (Z.of_nat (S j + S d))).
  { apply exact_installmentPayment_rate; [exact Hp|exact Hr| |lia].
    change (inject_Z 12) with 12. lra. }
  pose proof (schedule_installment_lt p r _ _ j Hr HA) as Hlt.
  apply Q.max_lub_lt; assumption.
Qed.

Lemma remainingBalance_understates_witness :
  (0 < 1200 /\ 0 < 12 /\ (1 <= 6 < 12)%Z)
  /\ remainingBalance (N := Exact) 1200 12 12 6
     < schedule 1200 12 (installmentPayment (N := Exact) 1200 12 12)
                (Z.to_nat 6).
Proof.
  split; [repeat split; (reflexivity || lia)|].
  apply (remainingBalance_understates 1200 12 12 6);
    reflexivity || lia.
Defined.
End ExactSchedule.

Lemma F64_max_zero_not_below (b : float) :
  PrimFloat.ltb (F64.max 0 b) 0 = false.
Proof.
  unfold F64.max.
  destruct (PrimFloat.is_nan 0 || PrimFloat.is_nan b)%bool; [reflexivity|].
  destruct (PrimFloat.ltb 0 b) eqn:L1.
  - rewrite FloatAxioms.ltb_spec in L1. rewrite FloatAxioms.ltb_spec.
    change (Prim2SF 0) with (S754_zero false) in L1.
    change (Prim2SF 0) with (S754_zero false).
    destruct (Prim2SF b) as [s|s| |s m e]; try reflexivity; try discriminate;
      destruct s; try reflexivity; discriminate.
  - destruct (PrimFloat.ltb b 0); reflexivity.
Qed.

(** X5.  The balance is clamped at 0 only where the rate is not 0.  On
    doubles, at a rate that is not 0 the result of [remainingBalance] is
    never below 0, whatever the arguments.  At rate 0 nothing is clamped: in
    exact arithmetic, with a principal above 0 and more periods paid than
    there are, the result is negative. *)
Theorem remainingBalance_clamp :
  (forall (p r : float) (n k : Z),
      (r === lit 0) = false ->
      PrimFloat.ltb (remainingBalance (N := Binary64) p r n k) 0 = false)
  /\ (forall (p r : Q) (n k : Z),
      (0 < p)%Q -> (r == 0)%Q -> 1 <= n < k ->
      (remainingBalance (N := Exact) p r n k < 0)%Q).
Proof.
  split.
  - intros p r n k Hr. unfold remainingBalance. rewrite Hr.
    apply F64_max_zero_not_below.
  - intros p r n k Hp Hr Hk.
    rewrite exact_remainingBalance_flat by exact Hr.
    assert (Hqn : (0 < inject_Z n)%Q)
      by (change 0%Q with (inject_Z 0); rewrite <- Zlt_Qlt; lia).
    assert (Hqk : (inject_Z n < inject_Z k)%Q)
      by (rewrite <- Zlt_Qlt; lia).
    apply Qlt_shift_div_r; [exact Hqn|]. nra.
Qed.

Lemma remainingBalance_clamp_witness :
  PrimFloat.ltb
    (remainingBalance (N := Binary64) 1200%float 1%float 12 13) 0 = false
  /\ (remainingBalance (N := Exact) 1200%Q 0%Q 12 13 < 0)%Q.
Proof.
  split.
  - exact (proj1 remainingBalance_clamp 1200%float 1%float 12 13 eq_refl).
  - apply (proj2 remainingBalance_clamp 1200%Q 0%Q 12 13);
      reflexivity || lia.
Defined.

(** ** The projected balance *)

Section Projection.
Context {N : JSNumber}.
Implicit Types (t : Transaction) (txns : list Transaction) (account : Account).

Lemma is_due_spec today days t :
  is_due today days t = true <-> due_within today days t.
Proof.
  unfold is_due, due_within.
  rewrite !andb_true_iff, bool_decide_eq_true, !Z.leb_le. tauto.
Qed.

Lemma getFutureTransactions_is_due today txns days :
  getFutureTransactions today txns days
  = List.filter (is_due today days) txns.
Proof.
  unfold getFutureTransactions. apply List.filter_ext. intros t.
  unfold is_due, msPerDay.
  destruct (bool_decide (tx_status t = pendente)); simpl; [|reflexivity].
  rewrite Z.geb_leb. do 2 f_equal. lia.
Qed.

Lemma filter_filter {A} (f g : A -> bool) (l : list A) :
  List.filter g (List.filter f l) = List.filter (fun x => f x && g x) l.
Proof.
  induction l as [|x l IH]; simpl; [reflexivity|].
  destruct (f x); simpl; [|exact IH].
  destruct (g x); rewrite IH; reflexivity.
Qed.

Lemma getProjectedBalance_fold today account txns days :
  getProjectedBalance today account txns days
  = fold_left post
      (List.filter (fun t => is_due today days t
                             && String.eqb (tx_accountId t) (acc_id account))
                   txns)
      (acc_balance account).
Proof.
  unfold getProjectedBalance.
  rewrite getFutureTransactions_is_due, filter_filter. reflexivity.
Qed.

Lemma fold_left_post_transfers (l1 l2 : list Transaction) t (b : number) :
  tx_type t = transferencia ->
  fold_left post (l1 ++ t :: l2) b = fold_left post (l1 ++ l2) b.
Proof.
  intros H. rewrite !fold_left_app. simpl.
  rewrite (post_transfer _ t H). reflexivity.
Qed.

(** X6.  [getProjectedBalance] starts from the balance the account shows and
    reads the ledger from the left, applying only the account's pending
    transactions whose effective date lies within [days] days from today,
    both ends included, each posted as [updateAccountBalance] posts a
    completed one ([post]: income and credit add their amount, expense, debt,
    card charge and investment subtract it).  A transaction that is not
    pending, is due before today or after the horizon, belongs to another
    account or is a transfer changes nothing, wherever it stands in the
    ledger. *)
Theorem getProjectedBalance_rule today account days :
  getProjectedBalance today account [] days = acc_balance account
  /\ (forall txns t,
        due_within today days t -> tx_accountId t = acc_id account ->
        getProjectedBalance today account (txns ++ [t]) days
        = post (getProjectedBalance today account txns days) t)
  /\ (forall before t after,
        ~ due_within today days t \/ tx_accountId t <> acc_id account
        \/ tx_type t = transferencia ->
        getProjectedBalance today account (before ++ t :: after) days
        = getProjectedBalance today account (before ++ after) days).
Proof.
  split; [reflexivity|]. split.
  - intros txns t Hd Ha. rewrite !getProjectedBalance_fold.
    rewrite (fold_left_filter_snoc post
               (fun t => is_due today days t
                         && String.eqb (tx_accountId t) (acc_id account))).
    rewrite (proj2 (is_due_spec today days t) Hd).
    rewrite (proj2 (String.eqb_eq _ _) Ha). reflexivity.
  - intros before t after H. rewrite !getProjectedBalance_fold.
    rewrite !List.filter_app. simpl.
    destruct (is_due today days t
              && String.eqb (tx_accountId t) (acc_id account)) eqn:E;
      [|reflexivity].
    apply andb_true_iff in E as [E1 E2].
    apply is_due_spec in E1. apply String.eqb_eq in E2.
    destruct H as [H | [H | H]]; [contradiction|contradiction|].
    apply fold_left_post_transfers, H.
Qed.

End Projection.

Lemma getProjectedBalance_rule_witness :
  let account := Sample.account "acc1" 1250 1000 true in
  let bill :=
    Sample.scheduled pendente Sample.today (Sample.today + 5 * msPerDay) in
  let late :=
    Sample.scheduled pendente Sample.today (Sample.today - 5 * msPerDay) in
  getProjectedBalance Sample.today account (Sample.ledger ++ [bill]) 30
  = post (getProjectedBalance Sample.today account Sample.ledger 30) bill
  /\ getProjectedBalance Sample.today account (Sample.ledger ++ [bill]) 30
     = 1170%float
  /\ getProjectedBalance Sample.today account
       (Sample.ledger ++ late :: [bill]) 30
     = getProjectedBalance Sample.today account (Sample.ledger ++ [bill]) 30.
Proof.
  cbv zeta.
  pose proof (getProjectedBalance_rule Sample.today
                (Sample.account "acc1" 1250 1000 true) 30)
    as (_ & Hdue & Hskip).
  split; [|split].
  - apply Hdue; [|reflexivity].
    split; [reflexivity|]. split; vm_compute; discriminate.
  - reflexivity.
  - apply Hskip. left. intros [_ [H _]]. vm_compute in H. apply H.
    reflexivity.
Defined.

(** *** The projection and the reconciled balance, in exact arithmetic *)

Section ExactProjection.
Local Open Scope Q_scope.
Implicit Types (t : Transaction (N := Exact))
  (txns : list (Transaction (N := Exact))).

(** What a posted transaction adds to a balance. *)
Let signed t : Q := post (N := Exact) 0 t.

(** The sum of what the transactions passing [f] add. *)
Let effect (f : Transaction (N := Exact) -> bool) txns : Q :=
  fold_right (fun t s => (if f t then signed t else 0) + s) 0 txns.

Lemma exact_post (b : Q) t : post (N := Exact) b t == b + signed t.
Proof.
  unfold signed, post. cbn [add sub Exact].
  destruct (includes _ _); [ring|]. destruct (includes _ _); ring.
Qed.

Lemma exact_fold_post f txns (b : Q) :
  fold_left (post (N := Exact)) (List.filter f txns) b == b + effect f txns.
Proof.
  revert b. induction txns as [|t txns IH]; intros b; simpl.
  - ring.
  - destruct (f t); simpl.
    + rewrite IH, exact_post. ring.
    + rewrite IH. ring.
Qed.

Lemma signed_completed t : signed (completed t) = signed t.
Proof. reflexivity. Qed.

Lemma effect_settle today days (account : Account (N := Exact)) txns :
  effect (fun t => String.eqb (tx_accountId t) (acc_id account)
                   && bool_decide (tx_status t = concluida))
         (settle today days txns)
  == effect (fun t => String.eqb (tx_accountId t) (acc_id account)
                      && bool_decide (tx_status t = concluida)) txns
     + effect (fun t => is_due today days t
                        && String.eqb (tx_accountId t) (acc_id account)) txns.
Proof.
  induction txns as [|t txns IH]; simpl; [ring|].
  fold (settle today days txns). rewrite IH.
  destruct (is_due today days t) eqn:D.
  - assert (Hp : tx_status t = pendente)
      by (apply is_due_spec in D; exact (proj1 D)).
    rewrite signed_completed. simpl. rewrite Hp. simpl.
    rewrite andb_true_r, andb_false_r.
    destruct (String.eqb (tx_accountId t) (acc_id account)); ring.
  - simpl. ring.
Qed.

(** X7.  In exact arithmetic, when the balance an account shows is the one
    [updateAccountBalance] computes from the ledger, its projected balance
    over [days] days is the balance that [updateAccountBalance] computes once
    every transaction due within these days is completed. *)
Theorem getProjectedBalance_settles today
    (account : Account (N := Exact)) txns days :
  acc_balance account == updateAccountBalance account txns ->
  getProjectedBalance today account txns days
  == updateAccountBalance account (settle today days txns).
Proof.
  intros H. rewrite getProjectedBalance_fold. unfold updateAccountBalance.
  rewrite !exact_fold_post, effect_settle.
  rewrite H. unfold updateAccountBalance. rewrite exact_fold_post. ring.
Qed.

End ExactProjection.

Lemma getProjectedBalance_settles_witness :
  let account := Sample.exact_account "acc1" 0 true in
  let txns := [Cases.bill pendente 80 (Sample.today + 5 * msPerDay)] in
  (acc_balance account == updateAccountBalance account txns)%Q
  /\ (getProjectedBalance Sample.today account txns 30
      == updateAccountBalance account (settle Sample.today 30 txns))%Q
  /\ (getProjectedBalance Sample.today account txns 30 == - (80))%Q.
Proof.
  cbv zeta. split; [reflexivity|]. split; [|reflexivity].
  apply (getProjectedBalance_settles Sample.today
           (Sample.exact_account "acc1" 0 true)
           [Cases.bill pendente 80 (Sample.today + 5 * msPerDay)] 30).
  reflexivity.
Defined.

(** ** The summary *)

Section Summary.
Context {N : JSNumber}.
Implicit Types (t u : Transaction) (txns : list Transaction).

(** X8.  The two lists of the summary hold pending transactions of the
    ledger only.  [generateFinancialSummary] reads the clock once for each
    list; with the first reading not after the second, every pending
    transaction due by the horizon of 30 days is upcoming or overdue, one
    that is in both lists is due between the two readings, and one due after
    the horizon is in neither.  Its [monthlyBalance] is the net balance of
    the whole ledger, whatever the dates. *)
Theorem generateFinancialSummary_pending
    today_upcoming today_overdue txns accounts investments :
  let summary :=
    generateFinancialSummary today_upcoming today_overdue txns accounts
                             investments in
  let horizon := today_upcoming + 30 * msPerDay in
  (forall u, In u (fs_upcomingTransactions summary)
             \/ In u (fs_overdueTransactions summary) ->
             In u txns /\ tx_status u = pendente)
  /\ (forall u, In u txns -> tx_status u = pendente ->
        today_upcoming <= today_overdue -> effective_date u <= horizon ->
        In u (fs_upcomingTransactions summary)
        \/ In u (fs_overdueTransactions summary))
  /\ (forall u, In u (fs_upcomingTransactions summary) ->
        In u (fs_overdueTransactions summary) ->
        today_upcoming <= effective_date u < today_overdue)
  /\ (forall u, horizon < effective_date u -> today_overdue <= horizon ->
        ~ In u (fs_upcomingTransactions summary)
        /\ ~ In u (fs_overdueTransactions summary))
  /\ fs_monthlyBalance summary = getNetBalance txns.
Proof.
  cbv zeta. unfold generateFinancialSummary. simpl.
  repeat split.
  - destruct H as [H | H].
    + apply getFutureTransactions_In in H. tauto.
    + apply getOverdueTransactions_In in H. tauto.
  - destruct H as [H | H].
    + apply getFutureTransactions_In in H. tauto.
    + apply getOverdueTransactions_In in H. tauto.
  - intros u Hin Hp Hclock Hh.
    rewrite getFutureTransactions_In, getOverdueTransactions_In.
    destruct (Z_lt_le_dec (effective_date u) today_upcoming).
    + right. repeat split; [assumption..|lia].
    + left. repeat split; assumption.
  - apply getFutureTransactions_In in H. lia.
  - apply getOverdueTransactions_In in H0. lia.
  - intros H1. apply getFutureTransactions_In in H1. lia.
  - intros H1. apply getOverdueTransactions_In in H1. lia.
Qed.

Lemma getTotalIncome_by_type txns :
  getTotalIncome txns = getTotalByType txns receita.
Proof. reflexivity. Qed.

End Summary.

Lemma generateFinancialSummary_pending_witness :
  let ahead :=
    Sample.scheduled pendente Sample.today (Sample.today + 5 * msPerDay) in
  let txns := Sample.ledger ++ [ahead] in
  let summary :=
    generateFinancialSummary Sample.today Sample.today txns Sample.accounts
                             Sample.portfolio in
  (In ahead (fs_upcomingTransactions summary)
   \/ In ahead (fs_overdueTransactions summary))
  /\ fs_monthlyBalance summary = 250%float.
Proof.
  cbv zeta.
  pose proof (generateFinancialSummary_pending Sample.today Sample.today
                (Sample.ledger
                 ++ [Sample.scheduled pendente Sample.today
                       (Sample.today + 5 * msPerDay)])
                Sample.accounts Sample.portfolio) as (_ & Hdue & _ & _ & Hm).
  split.
  - apply Hdue.
    + apply in_or_app. right. left. reflexivity.
    + reflexivity.
    + lia.
    + vm_compute. discriminate.
  - rewrite Hm. reflexivity.
Defined.

(** *** Totals by type, in exact arithmetic *)

Section ExactTotals.
Local Open Scope Q_scope.
Implicit Types (t : Transaction (N := Exact))
  (txns : list (Transaction (N := Exact))).

Lemma exact_sum_amounts_from (l : list (Transaction (N := Exact))) (a : Q) :
  fold_left (fun sum t => (sum + tx_amount t)%Q) l a
  == a + sum_amounts (N := Exact) l.
Proof.
  unfold sum_amounts. cbn [add lit Exact].
  revert a. induction l as [|t l IH]; intros a; simpl.
  - change (inject_Z 0) with 0. ring.
  - rewrite IH, (IH (inject_Z 0 + tx_amount t)).
    change (inject_Z 0) with 0. ring.
Qed.

Lemma exact_sum_amounts_cons t (l : list (Transaction (N := Exact))) :
  sum_amounts (N := Exact) (t :: l)
  == tx_amount t + sum_amounts (N := Exact) l.
Proof.
  unfold sum_amounts at 1. cbn [add lit Exact fold_left].
  rewrite exact_sum_amounts_from. change (inject_Z 0) with 0. ring.
Qed.

(** X9.  In exact arithmetic, the total of expenses is the total of the
    completed transactions of type expense plus that of the completed card
    charges, as [getTotalByType] gives them. *)
Theorem getTotalExpenses_by_type txns :
  getTotalExpenses (N := Exact) txns
  == getTotalByType (N := Exact) txns despesa
     + getTotalByType (N := Exact) txns cartao_credito.
Proof.
  unfold getTotalExpenses, getTotalByType.
  induction txns as [|t txns IH]; [reflexivity|].
  simpl List.filter.
  destruct (tx_type t) eqn:Ht; destruct (tx_status t) eqn:Hs;
    simpl; try exact IH;
    rewrite !exact_sum_amounts_cons, IH; ring.
Qed.

End ExactTotals.

(** ** The allocation, its keys and its total *)

Section AllocationKeys.
Context {N : JSNumber}.

Lemma accumulated_from_is_Some (values : list number)
    (current : option number) :
  is_Some (fold_left (fun current v => Some (bump current v)) values current)
  <-> is_Some current \/ values <> [].
Proof.
  revert current. induction values as [|v rest IH]; intros current; simpl.
  - split; [auto|]. intros [H | H]; [exact H | congruence].
  - rewrite IH. split; [intros _; right; discriminate|].
    intros _. left. eexists. reflexivity.
Qed.

Lemma map_filter_nonempty {A B} (f : A -> B) (p : A -> bool) (l : list A) :
  map f (List.filter p l) <> [] <-> exists a, In a l /\ p a = true.
Proof.
  induction l as [|a l IH]; simpl.
  - split; [congruence|]. intros (a & [] & _).
  - destruct (p a) eqn:E; simpl.
    + split; [|discriminate]. intros _. exists a. auto.
    + rewrite IH. split.
      * intros (b & Hb & Hp). exists b. auto.
      * intros (b & [-> | Hb] & Hp); [congruence|]. exists b. auto.
Qed.

(** X10.  When the total of the active investments is not 0, the allocation
    holds a percentage under a key exactly when some active investment of the
    list has the type of that name: a type with no active investment has no
    entry. *)
Theorem getInvestmentAllocation_keys (investments : list Investment)
    (key : string) :
  (getTotalInvestments investments === lit 0) = false ->
  (is_Some (getInvestmentAllocation investments !! key) <->
   exists i, In i investments /\ inv_isActive i = true
             /\ InvestmentType_key (inv_type i) = key).
Proof.
  intros Hz. unfold getInvestmentAllocation. rewrite Hz.
  rewrite (fold_accumulate_lookup
             (fun i => InvestmentType_key (inv_type i))
             (fun i => inv_currentValue i /. getTotalInvestments investments
                       *. lit 100)).
  rewrite lookup_empty, accumulated_from_is_Some, map_filter_nonempty.
  split.
  - intros [[x Hx] | (i & Hi & Hk)]; [discriminate|].
    apply In_filter_iff in Hi as [Hi Ha]. apply String.eqb_eq in Hk.
    exists i. auto.
  - intros (i & Hi & Ha & Hk). right. exists i. split.
    + apply In_filter_iff. auto.
    + apply String.eqb_eq, Hk.
Qed.

End AllocationKeys.

Lemma getInvestmentAllocation_keys_witness :
  (is_Some (getInvestmentAllocation Sample.portfolio !! "renda_fixa") <->
   exists i, In i Sample.portfolio /\ inv_isActive i = true
             /\ InvestmentType_key (inv_type i) = "renda_fixa")
  /\ (is_Some (getInvestmentAllocation Sample.portfolio !! "fundos") <->
      exists i, In i Sample.portfolio /\ inv_isActive i = true
                /\ InvestmentType_key (inv_type i) = "fundos").
Proof.
  split.
  - exact (getInvestmentAllocation_keys Sample.portfolio "renda_fixa"
             eq_refl).
  - exact (getInvestmentAllocation_keys Sample.portfolio "fundos" eq_refl).
Defined.

Section ExactAllocation.
Local Open Scope Q_scope.
Implicit Types (i : Investment (N := Exact))
  (investments : list (Investment (N := Exact))).

Lemma exact_bump (current : option Q) (v : Q) :
  bump (N := Exact) current v == default 0 current + v.
Proof.
  unfold bump. cbn [truthy add lit Exact].
  destruct current as [x|]; simpl; [|reflexivity].
  destruct (Qeq_bool x 0) eqn:E; simpl; [|reflexivity].
  apply Qeq_bool_iff in E. rewrite E. reflexivity.
Qed.

Lemma exact_accumulated_from (values : list Q) (current : option Q) :
  default 0
    (fold_left (fun current v => Some (bump (N := Exact) current v)) values
               current)
  == default 0 current + fold_right Qplus 0 values.
Proof.
  revert current. induction values as [|v rest IH]; intros current; simpl.
  - ring.
  - rewrite IH. simpl. rewrite exact_bump. ring.
Qed.

(** The percentages stored under the five keys, from the list. *)
Let stored (total : Q) investments : Q :=
  fold_right
    (fun type sum =>
       fold_right Qplus 0
         (shares_of (N := Exact) (InvestmentType_key type) total investments)
       + sum)
    0 InvestmentTypes.

Lemma stored_all (total : Q) investments :
  stored total investments ==
  fold_right Qplus 0
    (map (share (N := Exact) total) (List.filter inv_isActive investments)).
Proof.
  unfold stored, shares_of, InvestmentTypes. cbn [fold_right].
  induction investments as [|i l IH]; [reflexivity|].
  cbn [List.filter]. destruct (inv_isActive i) eqn:Ha; [|exact IH].
  cbn [List.filter map fold_right]. rewrite <- IH.
  destruct (inv_type i); simpl; ring.
Qed.

Lemma exact_shares_sum (total : Q) (l : list (Investment (N := Exact))) :
  ~ total == 0 ->
  fold_right Qplus 0 (map (share (N := Exact) total) l)
  == fold_right Qplus 0 (map inv_currentValue l) / total * 100.
Proof.
  intros Ht. induction l as [|i l IH]; cbn [map fold_right].
  - field. exact Ht.
  - rewrite IH. unfold share. cbn [div mul lit Exact].
    change (inject_Z 100) with 100. field. exact Ht.
Qed.

Lemma exact_getTotalInvestments investments :
  getTotalInvestments (N := Exact) investments
  == fold_right Qplus 0
       (map inv_currentValue (List.filter inv_isActive investments)).
Proof.
  unfold getTotalInvestments. cbn [add lit Exact].
  generalize (List.filter inv_isActive investments). intros l.
  change (inject_Z 0) with 0.
  assert (H : forall a : Q,
             fold_left (fun sum i => sum + inv_currentValue i) l a
             == a + fold_right Qplus 0 (map inv_currentValue l)).
  { induction l as [|i l IH]; intros a; cbn [fold_left map fold_right];
      [ring|].
    rewrite IH. ring. }
  rewrite H. ring.
Qed.

(** X11.  In exact arithmetic, when the total of the active investments is
    not 0, the percentages that [getInvestmentAllocation] stores under the
    five investment types add up to 100. *)
Theorem getInvestmentAllocation_adds_up investments :
  ~ getTotalInvestments (N := Exact) investments == 0 ->
  allocation_total (getInvestmentAllocation (N := Exact) investments) == 100.
Proof.
  intros Ht.
  assert (Hz : (getTotalInvestments (N := Exact) investments === lit 0)
               = false).
  { cbn [strict_eq lit Exact]. apply not_true_is_false. intros E.
    apply Qeq_bool_iff in E. exact (Ht E). }
  assert (Hk : forall key,
             default 0 (getInvestmentAllocation (N := Exact) investments
                        !! key)
             == fold_right Qplus 0
                  (shares_of (N := Exact) key
                     (getTotalInvestments (N := Exact) investments)
                     investments)).
  { intros key. unfold getInvestmentAllocation. rewrite Hz.
    rewrite (fold_accumulate_lookup
               (fun i => InvestmentType_key (inv_type i))
               (share (getTotalInvestments (N := Exact) investments))).
    rewrite lookup_empty, exact_accumulated_from.
    cbn [default]. unfold shares_of. ring. }
  unfold allocation_total, InvestmentTypes. simpl fold_right.
  rewrite !Hk.
  pose proof (stored_all (getTotalInvestments (N := Exact) investments)
                investments) as Hs.
  unfold stored, InvestmentTypes in Hs. simpl fold_right in Hs.
  rewrite Hs, (exact_shares_sum _ _ Ht), <- exact_getTotalInvestments.
  field. exact Ht.
Qed.

End ExactAllocation.

Lemma getInvestmentAllocation_adds_up_witness :
  (allocation_total (getInvestmentAllocation (N := Exact) Cases.holdings)
   == 100)%Q.
Proof.
  apply (getInvestmentAllocation_adds_up Cases.holdings).
  intros H. vm_compute in H. discriminate H.
Defined.

(** ** Returns, card limits and compounding, in exact arithmetic *)

Section ExactFigures.
Local Open Scope Q_scope.
Implicit Types (i : Investment (N := Exact))
  (investments : list (Investment (N := Exact)))
  (card : CreditCard (N := Exact)).

Lemma Exact_lt (x y : Q) :
  js_lt (JSOrder := Exact_order) x y = true <-> x < y.
Proof.
  cbn [js_lt Exact_order]. rewrite negb_true_iff.
  split.
  - intros H. apply Qnot_le_lt. intros Hle.
    apply Qle_bool_iff in Hle. congruence.
  - intros H. apply not_true_is_false. intros Hle.
    apply Qle_bool_iff in Hle. lra.
Qed.

Lemma exact_sum_from {A} (f : A -> Q) (l : list A) (a : Q) :
  fold_left (fun sum x => sum + f x) l a
  == a + fold_right Qplus 0 (map f l).
Proof.
  revert a. induction l as [|x l IH]; intros a; cbn [fold_left map fold_right].
  - ring.
  - rewrite IH. ring.
Qed.

(** X12.  The total return of the investment card takes the current value
    of the active investments only, but the cost of all of them.  So in exact
    arithmetic it is the sum, over the list, of the return
    [getInvestmentReturn] of each active investment and of minus the cost of
    each inactive one. *)
Theorem investmentData_totalReturn investments :
  totalReturn (investmentData (O := Exact_order) investments)
  == fold_right Qplus 0
       (map (fun i => if inv_isActive i
                      then getInvestmentReturn (N := Exact) i
                      else - inv_amount i)
            investments).
Proof.
  unfold investmentData. cbn [totalReturn].
  unfold getTotalInvestments. cbn [add sub lit Exact].
  rewrite !exact_sum_from. change (inject_Z 0) with 0.
  induction investments as [|i l IH]; cbn [List.filter map fold_right].
  - ring.
  - unfold getInvestmentReturn. cbn [sub Exact].
    destruct (inv_isActive i); cbn [map fold_right];
      rewrite <- IH; ring.
Qed.

(** X13.  In exact arithmetic, the return percentage of the investment card
    is 0 when the total cost is not above 0.  For a single investment with a
    cost above 0 it is the percentage [getInvestmentReturnPercentage] gives
    when the investment is active, and -100 when it is not: an inactive
    investment shows as lost in full. *)
Theorem investmentData_returnPercentage :
  (forall investments,
      ~ 0 < totalInvested (investmentData (O := Exact_order) investments) ->
      returnPercentage (investmentData (O := Exact_order) investments) = 0)
  /\ (forall i, 0 < inv_amount i ->
        returnPercentage (investmentData (O := Exact_order) [i])
        == if inv_isActive i
           then getInvestmentReturnPercentage (N := Exact) i
           else - (100)).
Proof.
  split.
  - intros investments H. unfold investmentData in H. unfold investmentData.
    cbn [totalInvested] in H. cbn [returnPercentage].
    destruct (js_lt _ _) eqn:E; [|reflexivity].
    apply Exact_lt in E. contradiction.
  - intros i Hi. unfold investmentData, getInvestmentReturnPercentage.
    cbn [returnPercentage]. unfold getTotalInvestments.
    cbn [fold_left List.filter add sub mul div lit strict_eq Exact].
    change (inject_Z 0) with 0. change (inject_Z 100) with 100.
    assert (E : js_lt (JSOrder := Exact_order) 0 (0 + inv_amount i) = true)
      by (apply Exact_lt; lra).
    rewrite E.
    destruct (Qeq_bool (inv_amount i) 0) eqn:Ez.
    { apply Qeq_bool_iff in Ez. lra. }
    destruct (inv_isActive i); cbn [fold_left]; field; lra.
Qed.

(** X14.  In exact arithmetic: a card with limit 0 shows a usage of 0,
    whatever was used; otherwise the usage percentage and the percentage that
    the available limit is of the limit add up to 100; with a limit above 0
    and a used limit between 0 and the limit, the usage lies between 0 and
    100; with more used than the limit, the usage is above 100 and the
    available limit is negative; and thirty days of revolving interest on an
    amount are one period of simple interest on it at the card's rate. *)
Theorem creditCard_usage_and_interest card :
  (cc_limit card == 0 -> getLimitUsagePercentage card = 0)
  /\ (~ cc_limit card == 0 ->
      getLimitUsagePercentage card
      == 100 - getAvailableLimit card / cc_limit card * 100)
  /\ (0 < cc_limit card -> 0 <= cc_usedLimit card <= cc_limit card ->
      0 <= getLimitUsagePercentage card <= 100)
  /\ (0 < cc_limit card -> cc_limit card < cc_usedLimit card ->
      100 < getLimitUsagePercentage card /\ getAvailableLimit card < 0)
  /\ (forall amount,
        getRotativeInterest card amount 30
        == simpleInterest (N := Exact) amount (cc_interestRate card) 1).
Proof.
  unfold getLimitUsagePercentage, getAvailableLimit, getRotativeInterest,
    simpleInterest.
  cbn [strict_eq lit sub mul div Exact].
  change (inject_Z 100) with 100. change (inject_Z 0) with 0.
  change (inject_Z 30) with 30.
  assert (Hint : forall amount,
             amount * (cc_interestRate card / 100 / 30) * 30
             == amount * (cc_interestRate card / 100) * 1)
    by (intros amount; field).
  destruct (Qeq_bool (cc_limit card) 0) eqn:E.
  - apply Qeq_bool_iff in E.
    repeat split; try reflexivity; try exact Hint; intros; lra.
  - apply Qeq_bool_neq in E. revert Hint.
    generalize (cc_interestRate card). intros R Hint.
    generalize dependent (cc_limit card). intros L E.
    generalize (cc_usedLimit card). intros U.
    split; [intros H; contradiction|].
    split; [intros _; field; exact E|].
    assert (HU : forall x, 0 < L -> x * L <= U * 100 -> x <= U / L * 100).
    { intros x HL H. assert (E1 : U / L * 100 == U * 100 / L) by (field; lra).
      rewrite E1. apply Qle_shift_div_l; assumption. }
    assert (HV : forall x, 0 < L -> U * 100 <= x * L -> U / L * 100 <= x).
    { intros x HL H. assert (E1 : U / L * 100 == U * 100 / L) by (field; lra).
      rewrite E1. apply Qle_shift_div_r; assumption. }
    split; [|split].
    + intros HL [H0 H1]. split; [apply HU | apply HV]; lra.
    + intros HL H1. split; [|lra].
      assert (E1 : U / L * 100 == U * 100 / L) by (field; lra).
      rewrite E1. apply Qlt_shift_div_l; lra.
    + exact Hint.
Qed.

(** X15.  In exact arithmetic, whatever [Math.pow] returns for the growth
    factor, provided it is not 0: [presentValue] undoes [futureValue] at the
    same rate, time and frequency, and [compoundInterest] is the future value
    less the principal. *)
Theorem presentValue_futureValue (pow : Q -> Q -> Q)
    (principal rate time frequency : Q) :
  ~ growth (N := Exact) pow rate time frequency == 0 ->
  presentValue (N := Exact) pow
    (futureValue (N := Exact) pow principal rate time frequency)
    rate time frequency == principal
  /\ compoundInterest (N := Exact) pow principal rate time frequency
     == futureValue (N := Exact) pow principal rate time frequency
        - principal.
Proof.
  unfold growth, presentValue, futureValue, compoundInterest.
  cbn [add sub mul div lit Exact].
  generalize (pow (inject_Z 1 + rate / inject_Z 100 / frequency)
                  (frequency * time)).
  intros g Hg. split; [field; exact Hg | reflexivity].
Qed.

End ExactFigures.

Lemma investmentData_returnPercentage_witness :
  (returnPercentage
     (investmentData (O := Exact_order) [Cases.holding fundos 500 600 false])
   == - (100))%Q
  /\ (returnPercentage
        (investmentData (O := Exact_order)
           [Cases.holding renda_fixa 250 300 true])
      == getInvestmentReturnPercentage (N := Exact)
           (Cases.holding renda_fixa 250 300 true))%Q.
Proof.
  split.
  - exact (proj2 investmentData_returnPercentage
             (Cases.holding fundos 500 600 false) eq_refl).
  - exact (proj2 investmentData_returnPercentage
             (Cases.holding renda_fixa 250 300 true) eq_refl).
Defined.

Lemma creditCard_usage_and_interest_witness :
  (0 <= getLimitUsagePercentage (Cases.card 1000 250) <= 100)%Q
  /\ (100 < getLimitUsagePercentage (Cases.card 1000 1500)
      /\ getAvailableLimit (Cases.card 1000 1500) < 0)%Q
  /\ getLimitUsagePercentage (Cases.card 0 250) = 0%Q.
Proof.
  split; [|split].
  - apply (proj1 (proj2 (proj2
             (creditCard_usage_and_interest (Cases.card 1000 250)))));
      [reflexivity|]. split; discriminate.
  - apply (proj1 (proj2 (proj2 (proj2
             (creditCard_usage_and_interest (Cases.card 1000 1500))))));
      reflexivity.
  - apply (proj1 (creditCard_usage_and_interest (Cases.card 0 250))).
    reflexivity.
Defined.

Lemma presentValue_futureValue_witness :
  (presentValue (N := Exact) Cases.whole_pow
     (futureValue (N := Exact) Cases.whole_pow 1000 12 1 12) 12 1 12
   == 1000)%Q
  /\ (compoundInterest (N := Exact) Cases.whole_pow 1000 12 1 12
      == futureValue (N := Exact) Cases.whole_pow 1000 12 1 12 - 1000)%Q.
Proof.
  apply (presentValue_futureValue Cases.whole_pow 1000 12 1 12).
  intros H. vm_compute in H. discriminate H.
Defined.

(** ** The summary component *)

Section ComponentProperties.
Context {N : JSNumber} {O : JSOrder N}.

(** X16.  The health score always lies between 5 and 100, so that clamping
    it to the range from 0 to 100 never changes the points counted; and with
    an overdue transaction it is at most 85. *)
Theorem getHealthScore_range (summary : FinancialSummary) :
  5 <= getHealthScore summary <= 100
  /\ getHealthScore summary = health_points summary
  /\ (fs_overdueTransactions summary <> [] -> getHealthScore summary <= 85).
Proof.
  unfold getHealthScore.
  assert (H : 5 <= health_points summary <= 100
              /\ (fs_overdueTransactions summary <> [] ->
                  health_points summary <= 85)).
  { unfold health_points.
    destruct (js_lt (lit 0) (fs_totalBalance summary));
      destruct (js_lt (lit 0) (fs_monthlyBalance summary));
      destruct (js_lt (fs_totalBalance summary *. one_tenth)
                      (fs_totalInvestments summary));
      destruct (js_lt (fs_totalBalance summary *. one_half)
                      (fs_totalDebts summary));
      destruct (js_lt (fs_monthlyBalance summary) (lit 0));
      destruct (fs_overdueTransactions summary) as [|t l];
      simpl; (split; [lia|]); intros Hne; congruence || lia. }
  destruct H as [H1 H2]. repeat split; try lia.
  intros Hne. specialize (H2 Hne). lia.
Qed.

Lemma In_firstn {A} (n : nat) (l : list A) (x : A) :
  In x (firstn n l) -> In x l.
Proof.
  intros H. rewrite <- (firstn_skipn n l). apply in_or_app. left. exact H.
Qed.

(** X17.  The bills shown on the summary are at most five, and each is a
    transaction of the ledger that is pending, due within 30 days of the
    clock reading of the upcoming list, and an expense, a debt or a card
    charge. *)
Theorem upcomingBills_due today_upcoming today_overdue
    (txns : list Transaction) accounts investments :
  let bills :=
    upcomingBills (generateFinancialSummary today_upcoming today_overdue
                     txns accounts investments) in
  (length bills <= 5)%nat
  /\ forall t, In t bills ->
       In t txns /\ due_within today_upcoming 30 t
       /\ In (tx_type t) [despesa; divida; cartao_credito].
Proof.
  cbv zeta. unfold upcomingBills, generateFinancialSummary.
  cbn [fs_upcomingTransactions]. split.
  - rewrite length_firstn. lia.
  - intros t Hin. apply In_firstn in Hin.
    apply In_filter_iff in Hin as [Hin Hty].
    apply getFutureTransactions_In in Hin as (Hin & Hp & Hd).
    split; [exact Hin|]. split; [split; assumption|].
    destruct (tx_type t); simpl in Hty; try discriminate; simpl; auto.
Qed.

End ComponentProperties.

Lemma upcomingBills_due_witness :
  let ahead :=
    Sample.scheduled pendente Sample.today (Sample.today + 5 * msPerDay) in
  In ahead (Sample.ledger ++ [ahead])
  /\ due_within Sample.today 30 ahead
  /\ In (tx_type ahead) [despesa; divida; cartao_credito].
Proof.
  cbv zeta.
  apply (proj2 (upcomingBills_due Sample.today Sample.today
                  (Sample.ledger
                   ++ [Sample.scheduled pendente Sample.today
                         (Sample.today + 5 * msPerDay)])
                  Sample.accounts Sample.portfolio)).
  left. reflexivity.
Defined.

Lemma getHealthScore_range_witness :
  let summary :=
    generateFinancialSummary Sample.today Sample.today Sample.ledger
                             Sample.accounts Sample.portfolio in
  getHealthScore summary = 85 /\ getHealthScore summary <= 85.
Proof.
  cbv zeta. split; [reflexivity|].
  apply (proj2 (proj2 (getHealthScore_range
           (generateFinancialSummary Sample.today Sample.today Sample.ledger
              Sample.accounts Sample.portfolio)))).
  discriminate.
Defined.

(** ** The months of the calendar, one after the other *)

Lemma MakeDay_months (yr month dt : Z) :
  Calendar.MakeDay yr month dt = Calendar.MakeDay 0 (12 * yr + month) dt.
Proof.
  unfold Calendar.MakeDay.
  replace ((12 * yr + month) / 12) with (yr + month / 12)
    by (Z.div_mod_to_equations; lia).
  replace ((12 * yr + month) mod 12) with (month mod 12)
    by (Z.div_mod_to_equations; lia).
  reflexivity.
Qed.

Lemma DaysInMonth_pos (leap : bool) (mn : Z) :
  28 <= Calendar.DaysInMonth leap mn.
Proof.
  unfold Calendar.DaysInMonth.
  destruct mn as [|p|p]; try lia;
    repeat (destruct p as [p|p|]; try lia); destruct leap; lia.
Qed.

Lemma MakeDay_next_month (k : Z) :
  Calendar.MakeDay 0 k 1 < Calendar.MakeDay 0 (k + 1) 1.
Proof.
  pose proof (MakeDay_last_of_month (k / 12) (k mod 12 + 1)
                ltac:(Z.div_mod_to_equations; lia)) as H.
  rewrite (MakeDay_months (k / 12) (k mod 12 + 1)) in H.
  rewrite (MakeDay_months (k / 12) (k mod 12 + 1 - 1)) in H.
  replace (12 * (k / 12) + (k mod 12 + 1)) with (k + 1) in H
    by (Z.div_mod_to_equations; lia).
  replace (12 * (k / 12) + (k mod 12 + 1 - 1)) with k in H
    by (Z.div_mod_to_equations; lia).
  pose proof (DaysInMonth_pos (Calendar.InLeapYear (k / 12))
                (k mod 12 + 1 - 1)).
  lia.
Qed.

Lemma MakeDay_month_le (k d : Z) :
  0 <= d -> Calendar.MakeDay 0 k 1 <= Calendar.MakeDay 0 (k + d) 1.
Proof.
  intros Hd. revert d Hd. apply natlike_ind.
  - rewrite Z.add_0_r. lia.
  - intros d Hd IH. pose proof (MakeDay_next_month (k + d)).
    replace (k + Z.succ d) with (k + d + 1) by lia. lia.
Qed.

Lemma MakeDay_month_order (a b : Z) :
  Calendar.MakeDay 0 a 1 < Calendar.MakeDay 0 b 1 -> a < b.
Proof.
  intros H. destruct (Z_lt_le_dec a b) as [Hlt | Hle]; [exact Hlt|].
  pose proof (MakeDay_month_le b (a - b) ltac:(lia)) as H1.
  replace (b + (a - b)) with a in H1 by lia. lia.
Qed.

Section MonthlyGap.
Context {N : JSNumber}.
Variable LocalTZA : Z -> Z.
Variable offset : Z.
Hypothesis constant_offset : forall t, LocalTZA t = offset.
Implicit Types (t : Transaction) (txns : list Transaction).

Lemma new_Date_month_index (year month dt : Z) :
  100 <= year ->
  Calendar.new_Date LocalTZA year month dt
  = Calendar.MakeDay 0 (12 * year + month) dt * msPerDay - offset.
Proof.
  intros Hy. rewrite new_Date_days. unfold Calendar.UTC.
  rewrite constant_offset.
  replace ((0 <=? year) && (year <=? 99)) with false
    by (symmetry; apply andb_false_iff; right; apply Z.leb_gt; lia).
  rewrite MakeDay_months. reflexivity.
Qed.

Lemma outside_every_month (year month m y date : Z) :
  100 <= year -> 100 <= y ->
  Calendar.new_Date LocalTZA year month 0 < date
  < Calendar.new_Date LocalTZA year month 0 + msPerDay ->
  (date >=? Calendar.new_Date LocalTZA y (m - 1) 1)
  && (date <=? Calendar.new_Date LocalTZA y m 0) = false.
Proof.
  intros Hy Hy' Hd. apply not_true_is_false. intros H.
  apply andb_true_iff in H as [H1 H2].
  apply Z.geb_le in H1. apply Z.leb_le in H2.
  rewrite !new_Date_month_index in Hd, H1, H2 by assumption.
  rewrite !MakeDay_day_before in Hd, H2.
  unfold msPerDay in Hd, H1, H2.
  assert (Ha : Calendar.MakeDay 0 (12 * y + (m - 1)) 1
               < Calendar.MakeDay 0 (12 * year + month) 1) by lia.
  assert (Hb : Calendar.MakeDay 0 (12 * year + month) 1
               < Calendar.MakeDay 0 (12 * y + m) 1) by lia.
  apply MakeDay_month_order in Ha, Hb. lia.
Qed.

(** X18.  The window of a monthly report ends at local midnight at the start
    of the last day of the month.  So, with a local time at a constant offset
    from UTC and years from 100 on, a transaction dated after that midnight
    and before the next one, that is, later on the last day of a month, is in
    the window of no month: the report of every month and year is the same
    with the transaction in the ledger and without it. *)
Theorem generateMonthlyReport_skips_last_day
    (before after : list Transaction) t (accounts : list Account)
    (month year : Z) :
  100 <= year ->
  Calendar.new_Date LocalTZA year month 0 < tx_date t
  < Calendar.new_Date LocalTZA year month 0 + msPerDay ->
  forall m y, 100 <= y ->
    generateMonthlyReport LocalTZA (before ++ t :: after) accounts m y
    = generateMonthlyReport LocalTZA (before ++ after) accounts m y.
Proof.
  intros Hy Hd m y Hy'.
  unfold generateMonthlyReport, getTransactionsByPeriod.
  rewrite !List.filter_app. cbn [List.filter].
  rewrite (outside_every_month year month m y (tx_date t) Hy Hy' Hd).
  reflexivity.
Qed.

End MonthlyGap.

Lemma generateMonthlyReport_skips_last_day_witness :
  let last_day := Sample.dated receita concluida 30 Sample.end_january in
  let before :=
    [ Sample.dated receita concluida 500 Sample.mid_january;
      Sample.dated despesa pendente 200 Sample.mid_january;
      Sample.dated divida cancelada 900 Sample.mid_january ] in
  let after := [Sample.dated receita concluida 70 Sample.mid_february] in
  Sample.two_months = before ++ last_day :: after
  /\ generateMonthlyReport Sample.utc_minus_3 Sample.two_months
       Sample.accounts 1 2024
     = generateMonthlyReport Sample.utc_minus_3 (before ++ after)
         Sample.accounts 1 2024.
Proof.
  cbv zeta. split; [reflexivity|].
  apply (generateMonthlyReport_skips_last_day Sample.utc_minus_3
           (- (3 * 60 * 60 * 1000)) (fun t => eq_refl)
           [ Sample.dated receita concluida 500 Sample.mid_january;
             Sample.dated despesa pendente 200 Sample.mid_january;
             Sample.dated divida cancelada 900 Sample.mid_january ]
           [Sample.dated receita concluida 70 Sample.mid_february]
           (Sample.dated receita concluida 30 Sample.end_january)
           Sample.accounts 1 2024).
  - lia.
  - split; vm_compute; reflexivity.
  - lia.
Defined.

(** ** The entity stores *)

Lemma findIndex_none {A} (p : A -> bool) (l : list A) :
  findIndex p l = None <-> forall x, In x l -> p x = false.
Proof.
  induction l as [|a l IH]; simpl.
  - split; [intros _ x []|reflexivity].
  - destruct (p a) eqn:E.
    + split; [discriminate|]. intros H. specialize (H a (or_introl eq_refl)).
      congruence.
    + destruct (findIndex p l) as [n|]; simpl.
      * split; [discriminate|]. intros H. exfalso.
        assert (H2 : forall x, In x l -> p x = false) by auto.
        apply IH in H2. discriminate.
      * split; [|reflexivity]. intros _ x [<- | Hx]; [exact E|].
        apply (proj1 IH eq_refl), Hx.
Qed.

Lemma findIndex_first {A} (p : A -> bool) (before after : list A) (x : A) :
  (forall y, In y before -> p y = false) -> p x = true ->
  findIndex p (before ++ x :: after) = Some (length before).
Proof.
  intros Hb Hx. induction before as [|b before IH]; simpl.
  - rewrite Hx. reflexivity.
  - rewrite (Hb b (or_introl eq_refl)), IH; [reflexivity|].
    intros y Hy. apply Hb. right. exact Hy.
Qed.

Section EntityStore.
Context {T : Type}.
Variable accepts : gmap string string -> string -> string -> bool.
Variable id : T -> string.
Variable stringify : list T -> string.
Variable parse : string -> option (list T).
Variable KEY : string.

Local Abbreviation getAll := (entityStorage.getAll parse KEY).
Local Abbreviation save := (entityStorage.save accepts stringify KEY).
Local Abbreviation add := (entityStorage.add accepts stringify parse KEY).
Local Abbreviation update :=
  (entityStorage.update accepts id stringify parse KEY).
Local Abbreviation delete :=
  (entityStorage.delete accepts id stringify parse KEY).
Local Abbreviation survives :=
  (entityStorage.survives accepts stringify parse KEY).

Lemma save_outcome (browser : Browser) (items : list T) :
  save browser items =
  if has_window browser
     && accepts (localStorage browser) KEY (stringify items)
  then (true, {| has_window := has_window browser;
                 localStorage :=
                   <[KEY := stringify items]> (localStorage browser) |})
  else (false, browser).
Proof.
  unfold entityStorage.save, safeSetItem.
  destruct (has_window browser); simpl; [|reflexivity].
  destruct (accepts _ _ _); reflexivity.
Qed.

Lemma save_survives (browser : Browser) (items : list T) :
  has_window browser = true -> survives browser items ->
  fst (save browser items) = true
  /\ getAll (snd (save browser items)) = items
  /\ forall key, key <> KEY ->
       localStorage (snd (save browser items)) !! key
       = localStorage browser !! key.
Proof.
  intros Hw (Ha & Hne & Hp). rewrite save_outcome, Hw, Ha. simpl.
  split; [reflexivity|]. split.
  - unfold entityStorage.getAll, safeGetItem. simpl.
    rewrite lookup_insert_eq.
    destruct (String.eqb_spec (stringify items) EmptyString) as [E|_];
      [contradiction|].
    rewrite Hp. reflexivity.
  - intros key Hk. rewrite lookup_insert_ne by congruence. reflexivity.
Qed.

Lemma save_frame {V} (parse' : string -> option V) (key : string)
    (defaultValue : V) (browser : Browser) (items : list T) :
  key <> KEY ->
  safeGetItem parse' (snd (save browser items)) key defaultValue
  = safeGetItem parse' browser key defaultValue.
Proof.
  intros Hk. rewrite save_outcome. destruct (_ && _) eqn:E; [|reflexivity].
  unfold safeGetItem. simpl. rewrite lookup_insert_ne by congruence.
  reflexivity.
Qed.

Lemma update_frame {V} (parse' : string -> option V) (key : string)
    (defaultValue : V) (browser : Browser) (updated : T) :
  key <> KEY ->
  safeGetItem parse' (snd (update browser updated)) key defaultValue
  = safeGetItem parse' browser key defaultValue.
Proof.
  intros Hk. unfold entityStorage.update.
  destruct (findIndex _ _); [apply save_frame, Hk | reflexivity].
Qed.

Lemma save_fails (browser : Browser) (items : list T) :
  fst (save browser items) = false -> snd (save browser items) = browser.
Proof. rewrite save_outcome. destruct (_ && _); simpl; congruence. Qed.

(** X19.  In a browser with a window, when the list with the new record at
    its end survives the way through storage (its text is accepted, is not
    empty and parses back to it), [add] returns true, [getAll] then returns
    the records that were stored followed by the new one, and the texts
    under the other keys are as they were. *)
Theorem entityStorage_add_then_getAll (browser : Browser) (item : T) :
  has_window browser = true ->
  survives browser (getAll browser ++ [item]) ->
  fst (add browser item) = true
  /\ getAll (snd (add browser item)) = getAll browser ++ [item]
  /\ forall key, key <> KEY ->
       localStorage (snd (add browser item)) !! key
       = localStorage browser !! key.
Proof. intros Hw Hs. apply save_survives; assumption. Qed.

(** X20.  [update] returns false and writes nothing when no stored record
    has the id of the updated one.  Otherwise, when the new list survives the
    way through storage, it returns true and [getAll] then returns the stored
    records with the first one of that id replaced, and every other record,
    later ones of the same id included, where it was. *)
Theorem entityStorage_update_first_match (browser : Browser) (updated : T) :
  ((forall t, In t (getAll browser) -> id t <> id updated) ->
   update browser updated = (false, browser))
  /\ (forall before old after,
        getAll browser = before ++ old :: after ->
        (forall t, In t before -> id t <> id updated) ->
        id old = id updated ->
        has_window browser = true ->
        survives browser (before ++ updated :: after) ->
        fst (update browser updated) = true
        /\ getAll (snd (update browser updated))
           = before ++ updated :: after).
Proof.
  split.
  - intros H. unfold entityStorage.update.
    replace (findIndex _ _) with (@None nat); [reflexivity|].
    symmetry. apply findIndex_none. intros t Ht.
    apply String.eqb_neq, H, Ht.
  - intros before old after Hl Hb Ho Hw Hs. unfold entityStorage.update.
    fold getAll. rewrite Hl.
    rewrite (findIndex_first _ before after old).
    + replace (<[length before := updated]> (before ++ old :: after))
        with (before ++ updated :: after).
      * destruct (save_survives browser _ Hw Hs) as (H1 & H2 & _).
        split; assumption.
      * symmetry. rewrite insert_app_r_alt by lia.
        rewrite Nat.sub_diag. reflexivity.
    + intros y Hy. apply String.eqb_neq, Hb, Hy.
    + apply String.eqb_eq, Ho.
Qed.

(** X21.  When the remaining list survives the way through storage, [delete]
    returns true, whether or not a record had the id, and [getAll] then
    returns the stored records whose id is not the deleted one, in their
    order: no record of that id is left, and every other record is kept. *)
Theorem entityStorage_delete_removes (browser : Browser) (i : string) :
  has_window browser = true ->
  survives browser
    (List.filter (fun t => negb (String.eqb (id t) i)) (getAll browser)) ->
  fst (delete browser i) = true
  /\ getAll (snd (delete browser i))
     = List.filter (fun t => negb (String.eqb (id t) i)) (getAll browser)
  /\ (forall t, In t (getAll (snd (delete browser i))) <->
                In t (getAll browser) /\ id t <> i).
Proof.
  intros Hw Hs.
  destruct (save_survives browser _ Hw Hs) as (H1 & H2 & _).
  unfold entityStorage.delete. fold getAll.
  split; [exact H1|]. split; [exact H2|].
  intros t. rewrite H2, In_filter_iff, negb_true_iff, String.eqb_neq.
  reflexivity.
Qed.

(** X22.  Without a window (on the server) a store reads as empty, and
    [save], [add], [update] and [delete] return false and leave the browser
    as it is.  In any browser, an operation that returns false has written
    nothing: the browser after it is the browser before it. *)
Theorem entityStorage_all_or_nothing (browser : Browser) :
  (has_window browser = false ->
   getAll browser = []
   /\ (forall items, save browser items = (false, browser))
   /\ (forall item, add browser item = (false, browser))
   /\ (forall item, update browser item = (false, browser))
   /\ (forall i, delete browser i = (false, browser)))
  /\ (forall items, fst (save browser items) = false ->
        snd (save browser items) = browser)
  /\ (forall item, fst (add browser item) = false ->
        snd (add browser item) = browser)
  /\ (forall item, fst (update browser item) = false ->
        snd (update browser item) = browser)
  /\ (forall i, fst (delete browser i) = false ->
        snd (delete browser i) = browser).
Proof.
  pose proof (save_fails browser) as Hsave.
  split.
  - intros Hw.
    assert (Hg : getAll browser = []).
    { unfold entityStorage.getAll, safeGetItem. rewrite Hw. reflexivity. }
    assert (Hs : forall items, save browser items = (false, browser)).
    { intros items. rewrite save_outcome, Hw. reflexivity. }
    split; [exact Hg|]. split; [exact Hs|]. repeat split.
    + intros item. unfold entityStorage.add. apply Hs.
    + intros item. unfold entityStorage.update. fold getAll.
      rewrite Hg. reflexivity.
    + intros i. unfold entityStorage.delete. apply Hs.
  - split; [exact Hsave|]. repeat split.
    + intros item. apply Hsave.
    + intros item. unfold entityStorage.update.
      destruct (findIndex _ _); [apply Hsave | reflexivity].
    + intros i. apply Hsave.
Qed.

End EntityStore.

Lemma entityStorage_add_then_getAll_witness :
  let add :=
    entityStorage.add Cases.roomy Cases.notes_text Cases.notes_parse
      STORAGE_KEYS.GOALS Cases.two_notes (Cases.note 99 122) in
  fst add = true
  /\ entityStorage.getAll Cases.notes_parse STORAGE_KEYS.GOALS (snd add)
     = [Cases.note 97 120; Cases.note 98 121; Cases.note 99 122].
Proof.
  cbv zeta.
  destruct (entityStorage_add_then_getAll Cases.roomy Cases.notes_text
              Cases.notes_parse STORAGE_KEYS.GOALS Cases.two_notes
              (Cases.note 99 122) eq_refl) as (H1 & H2 & _).
  - split; [reflexivity|]. split; [discriminate | reflexivity].
  - split; [exact H1 | exact H2].
Defined.

Lemma entityStorage_update_first_match_witness :
  let update :=
    entityStorage.update Cases.roomy Cases.note_id Cases.notes_text
      Cases.notes_parse STORAGE_KEYS.GOALS Cases.two_notes
      (Cases.note 98 122) in
  fst update = true
  /\ entityStorage.getAll Cases.notes_parse STORAGE_KEYS.GOALS (snd update)
     = [Cases.note 97 120] ++ Cases.note 98 122 :: [].
Proof.
  cbv zeta.
  apply (proj2 (entityStorage_update_first_match Cases.roomy Cases.note_id
                  Cases.notes_text Cases.notes_parse STORAGE_KEYS.GOALS
                  Cases.two_notes (Cases.note 98 122))
           [Cases.note 97 120] (Cases.note 98 121) []).
  - reflexivity.
  - intros t [<- | []]. discriminate.
  - reflexivity.
  - reflexivity.
  - split; [reflexivity|]. split; [discriminate | reflexivity].
Defined.

Lemma entityStorage_delete_removes_witness :
  let delete :=
    entityStorage.delete Cases.roomy Cases.note_id Cases.notes_text
      Cases.notes_parse STORAGE_KEYS.GOALS Cases.two_notes
      (Cases.note_id (Cases.note 97 120)) in
  fst delete = true
  /\ entityStorage.getAll Cases.notes_parse STORAGE_KEYS.GOALS (snd delete)
     = [Cases.note 98 121].
Proof.
  cbv zeta.
  destruct (entityStorage_delete_removes Cases.roomy Cases.note_id
              Cases.notes_text Cases.notes_parse STORAGE_KEYS.GOALS
              Cases.two_notes (Cases.note_id (Cases.note 97 120)) eq_refl)
    as (H1 & H2 & _).
  - split; [reflexivity|]. split; [discriminate | reflexivity].
  - split; [exact H1 | exact H2].
Defined.

Lemma entityStorage_all_or_nothing_witness :
  entityStorage.getAll Cases.notes_parse STORAGE_KEYS.GOALS Cases.server = []
  /\ entityStorage.add Cases.roomy Cases.notes_text Cases.notes_parse
       STORAGE_KEYS.GOALS Cases.server (Cases.note 97 120)
     = (false, Cases.server).
Proof.
  destruct (proj1 (entityStorage_all_or_nothing Cases.roomy Cases.note_id
                     Cases.notes_text Cases.notes_parse STORAGE_KEYS.GOALS
                     Cases.server) eq_refl) as (H1 & _ & H2 & _).
  split; [exact H1 | exact (H2 (Cases.note 97 120))].
Defined.

(** ** The category store and the array of defaults *)

Section CategoryStore.
Variable accepts : gmap string string -> string -> string -> bool.
Variable stringify : list Category -> string.
Variable parse : string -> option (list Category).

Local Abbreviation Heap := categoryStorage.Heap.
Local Abbreviation getAll := (categoryStorage.getAll accepts stringify parse).
Local Abbreviation save := (categoryStorage.save accepts stringify).
Local Abbreviation add := (categoryStorage.add accepts stringify parse).
Local Abbreviation update := (categoryStorage.update accepts stringify parse).
Local Abbreviation delete := (categoryStorage.delete accepts stringify parse).
Local Abbreviation stored heap :=
  (safeGetItem parse (categoryStorage.browser heap)
               STORAGE_KEYS.CATEGORIES []).

Lemma save_defaults (heap : Heap) (categories : list Category) :
  categoryStorage.default_categories (snd (save heap categories))
  = categoryStorage.default_categories heap.
Proof.
  unfold categoryStorage.save. destruct (safeSetItem _ _ _ _ _). reflexivity.
Qed.

Lemma getAll_cases (heap : Heap) :
  (stored heap = []
   /\ fst (getAll heap) = categoryStorage.TheDefaults
   /\ snd (getAll heap)
      = snd (save heap (categoryStorage.default_categories heap)))
  \/ (stored heap <> []
      /\ fst (getAll heap) = categoryStorage.Fresh (stored heap)
      /\ snd (getAll heap) = heap).
Proof.
  unfold categoryStorage.getAll.
  destruct (stored heap) as [|c l] eqn:E; simpl.
  - left. destruct (save heap _). auto.
  - right. split; [discriminate|]. auto.
Qed.

Lemma getAll_defaults (heap : Heap) :
  categoryStorage.default_categories (snd (getAll heap))
  = categoryStorage.default_categories heap.
Proof.
  destruct (getAll_cases heap) as [(_ & _ & ->) | (_ & _ & ->)];
    [apply save_defaults | reflexivity].
Qed.

Lemma getAll_read (heap : Heap) :
  categoryStorage.read (snd (getAll heap)) (fst (getAll heap))
  = if (length (stored heap) =? 0)%nat
    then categoryStorage.default_categories heap
    else stored heap.
Proof.
  destruct (getAll_cases heap) as [(E & -> & ->) | (E & -> & ->)]; simpl.
  - rewrite E, save_defaults. reflexivity.
  - destruct (stored heap); [congruence | reflexivity].
Qed.

Lemma add_defaults (heap : Heap) (category : Category) :
  categoryStorage.default_categories (snd (add heap category))
  = if (length (stored heap) =? 0)%nat
    then categoryStorage.default_categories heap ++ [category]
    else categoryStorage.default_categories heap.
Proof.
  unfold categoryStorage.add.
  pose proof (getAll_defaults heap) as Hd.
  destruct (getAll_cases heap) as [(E & Hf & _) | (E & Hf & Hs)];
    destruct (getAll heap) as [ref heap1]; simpl in Hf, Hd; subst ref;
    simpl; rewrite save_defaults; simpl.
  - rewrite E, Hd. reflexivity.
  - simpl in Hs. subst heap1. destruct (stored heap); [congruence|].
    reflexivity.
Qed.

Lemma update_defaults (heap : Heap) (category : Category) :
  length (categoryStorage.default_categories (snd (update heap category)))
  = length (categoryStorage.default_categories heap).
Proof.
  unfold categoryStorage.update.
  pose proof (getAll_defaults heap) as Hd.
  destruct (getAll heap) as [ref heap1]. simpl in Hd.
  destruct (findIndex _ _) as [index|]; simpl; [|rewrite Hd; reflexivity].
  destruct ref; simpl; rewrite save_defaults; simpl.
  - rewrite Hd. reflexivity.
  - rewrite length_insert, Hd. reflexivity.
Qed.

Lemma delete_defaults (heap : Heap) (i : string) :
  categoryStorage.default_categories (snd (delete heap i))
  = categoryStorage.default_categories heap.
Proof.
  unfold categoryStorage.delete.
  pose proof (getAll_defaults heap) as Hd.
  destruct (getAll heap) as [ref heap1]. simpl in Hd.
  rewrite save_defaults. exact Hd.
Qed.

Lemma save_written (heap : Heap) (categories : list Category) :
  categoryStorage.written stringify (categoryStorage.browser heap) ->
  categoryStorage.written stringify
    (categoryStorage.browser (snd (save heap categories))).
Proof.
  intros H. unfold categoryStorage.save, safeSetItem.
  destruct (negb _); [exact H|].
  destruct (accepts _ _ _); [|exact H].
  intros text. simpl. rewrite lookup_insert_eq. intros [= <-].
  exists categories. reflexivity.
Qed.

Lemma getAll_written (heap : Heap) :
  categoryStorage.written stringify (categoryStorage.browser heap) ->
  categoryStorage.written stringify
    (categoryStorage.browser (snd (getAll heap))).
Proof.
  intros H.
  destruct (getAll_cases heap) as [(_ & _ & ->) | (_ & _ & ->)];
    [apply save_written|]; exact H.
Qed.

Lemma write_browser (heap : Heap) (categories : categoryStorage.Categories)
    (items : list Category) :
  categoryStorage.browser (snd (categoryStorage.write heap categories items))
  = categoryStorage.browser heap.
Proof. destruct categories; reflexivity. Qed.

Lemma add_written (heap : Heap) (category : Category) :
  categoryStorage.written stringify (categoryStorage.browser heap) ->
  categoryStorage.written stringify
    (categoryStorage.browser (snd (add heap category))).
Proof.
  intros H. apply getAll_written in H. unfold categoryStorage.add.
  destruct (getAll heap) as [ref heap1]. simpl in H.
  pose proof (write_browser heap1 ref
                (categoryStorage.read heap1 ref ++ [category])) as Hw.
  destruct (categoryStorage.write _ _ _) as [ref2 heap2]. simpl in Hw.
  apply save_written. rewrite Hw. exact H.
Qed.

Lemma update_written (heap : Heap) (category : Category) :
  categoryStorage.written stringify (categoryStorage.browser heap) ->
  categoryStorage.written stringify
    (categoryStorage.browser (snd (update heap category))).
Proof.
  intros H. apply getAll_written in H. unfold categoryStorage.update.
  destruct (getAll heap) as [ref heap1]. simpl in H.
  destruct (findIndex _ _) as [index|]; [|exact H].
  pose proof (write_browser heap1 ref
                (<[index := category]> (categoryStorage.read heap1 ref)))
    as Hw.
  destruct (categoryStorage.write _ _ _) as [ref2 heap2]. simpl in Hw.
  apply save_written. rewrite Hw. exact H.
Qed.

Lemma delete_written (heap : Heap) (i : string) :
  categoryStorage.written stringify (categoryStorage.browser heap) ->
  categoryStorage.written stringify
    (categoryStorage.browser (snd (delete heap i))).
Proof.
  intros H. apply getAll_written in H. unfold categoryStorage.delete.
  destruct (getAll heap) as [ref heap1]. simpl in H.
  apply save_written. exact H.
Qed.

(** What every step keeps: the defaults are no fewer than the twelve of
    the module, and the text under the key is the text of an array of
    categories. *)
Lemma step_defaults (heap heap' : Heap) :
  categoryStorage.step accepts stringify parse heap heap' ->
  (12 <= length (categoryStorage.default_categories heap))%nat
  /\ categoryStorage.written stringify (categoryStorage.browser heap) ->
  (12 <= length (categoryStorage.default_categories heap'))%nat
  /\ categoryStorage.written stringify (categoryStorage.browser heap').
Proof.
  intros H [Hd Hw]. destruct H as [| | | | | |heap browser' Hb].
  - rewrite getAll_defaults. split; [exact Hd | apply getAll_written, Hw].
  - rewrite save_defaults. split; [exact Hd | apply save_written, Hw].
  - split; [|apply add_written, Hw].
    rewrite add_defaults. destruct (_ =? _)%nat; [|exact Hd].
    rewrite length_app. simpl. lia.
  - rewrite update_defaults. split; [exact Hd | apply update_written, Hw].
  - rewrite delete_defaults. split; [exact Hd | apply delete_written, Hw].
  - split; [simpl; lia | exact Hw].
  - split; [exact Hd|]. intros text. simpl.
    destruct Hb as [-> | ->]; [apply Hw | discriminate].
Qed.

Lemma reachable_defaults (heap : Heap) :
  categoryStorage.reachable accepts stringify parse heap ->
  (12 <= length (categoryStorage.default_categories heap))%nat
  /\ categoryStorage.written stringify (categoryStorage.browser heap).
Proof.
  intros (browser0 & Hnone & H).
  remember {| categoryStorage.browser := browser0;
              categoryStorage.default_categories := DEFAULT_CATEGORIES |}
    as heap0 eqn:E0.
  assert (H0 : (12 <= length (categoryStorage.default_categories heap0))%nat
               /\ categoryStorage.written stringify
                    (categoryStorage.browser heap0)).
  { subst heap0. split; [simpl; lia|]. intros text. simpl.
    rewrite Hnone. discriminate. }
  clear E0. induction H as [heap|heap heap1 heap2 Hstep _ IH].
  - exact H0.
  - apply IH. exact (step_defaults _ _ Hstep H0).
Qed.

(** X23.  Take the states that can be reached from a first load of the
    module in a browser that holds nothing under the key of the categories,
    by calls of the category store, by loading the page again, and by
    anything else happening to the browser that leaves the text under that
    key as it is or removes it.  In every such state the text under the key,
    when there is one, was written by the store and is the text of an array
    of categories, and [categoryStorage.getAll] returns a list that is not
    empty: when no category is stored it hands out the defaults, which are
    never fewer than the twelve the module starts with.  So a category list
    emptied by [delete] does not read as empty at the next call.  Nothing is
    said of a text that something other than the store puts under the
    key. *)
Theorem categoryStorage_getAll_never_empty (heap : Heap) :
  categoryStorage.reachable accepts stringify parse heap ->
  categoryStorage.read (snd (getAll heap)) (fst (getAll heap)) <> []
  /\ categoryStorage.reachable accepts stringify parse (snd (getAll heap))
  /\ (forall text,
        localStorage (categoryStorage.browser heap)
          !! STORAGE_KEYS.CATEGORIES = Some text ->
        exists categories : list Category, text = stringify categories).
Proof.
  intros Hr. pose proof (reachable_defaults heap Hr) as [Hd Hw].
  split; [|split].
  - rewrite getAll_read.
    destruct (stored heap) as [|c l] eqn:E; simpl.
    + destruct (categoryStorage.default_categories heap); simpl in Hd;
        [lia | discriminate].
    + discriminate.
  - destruct Hr as (browser0 & Hnone & Hr). exists browser0.
    split; [exact Hnone|].
    eapply rtc_r; [exact Hr|]. apply categoryStorage.step_getAll.
  - exact Hw.
Qed.

(** X24.  When no category is stored, [getAll] hands out the array
    [DEFAULT_CATEGORIES] itself and [add] pushes onto it: after the call the
    defaults hold the new category at their end, whether or not it could be
    saved, and they are untouched when categories are stored.  So without a
    window, where nothing is ever stored, [add] returns false and the next
    [getAll] nevertheless returns the defaults followed by the new
    category. *)
Theorem categoryStorage_add_grows_defaults (heap : Heap)
    (category : Category) :
  (stored heap = [] ->
   categoryStorage.default_categories (snd (add heap category))
   = categoryStorage.default_categories heap ++ [category])
  /\ (stored heap <> [] ->
      categoryStorage.default_categories (snd (add heap category))
      = categoryStorage.default_categories heap)
  /\ (has_window (categoryStorage.browser heap) = false ->
      fst (add heap category) = false
      /\ categoryStorage.read
           (snd (getAll (snd (add heap category))))
           (fst (getAll (snd (add heap category))))
         = categoryStorage.default_categories heap ++ [category]).
Proof.
  split; [|split].
  - intros E. rewrite add_defaults, E. reflexivity.
  - intros E. rewrite add_defaults. destruct (stored heap); [congruence|].
    reflexivity.
  - intros Hw.
    assert (Hs : forall h : Heap,
               has_window (categoryStorage.browser h) = false ->
               safeGetItem parse (categoryStorage.browser h)
                           STORAGE_KEYS.CATEGORIES [] = []).
    { intros h Hh. unfold safeGetItem. rewrite Hh. reflexivity. }
    assert (Hsave : forall (h : Heap) l,
               has_window (categoryStorage.browser h) = false ->
               save h l = (false, h)).
    { intros [b d] l Hh. unfold categoryStorage.save, safeSetItem.
      simpl in Hh. simpl. rewrite Hh. reflexivity. }
    assert (Hadd : add heap category
                   = (false,
                      {| categoryStorage.browser :=
                           categoryStorage.browser heap;
                         categoryStorage.default_categories :=
                           categoryStorage.default_categories heap
                           ++ [category] |})).
    { unfold categoryStorage.add, categoryStorage.getAll.
      rewrite (Hs heap Hw). simpl. rewrite (Hsave heap _ Hw). simpl.
      apply Hsave. exact Hw. }
    rewrite Hadd. simpl. split; [reflexivity|].
    rewrite getAll_read. simpl. rewrite Hs by exact Hw. reflexivity.
Qed.

End CategoryStore.

Lemma categoryStorage_getAll_never_empty_witness :
  let heap :=
    {| categoryStorage.browser := Cases.online ∅;
       categoryStorage.default_categories := DEFAULT_CATEGORIES |} in
  let emptied :=
    snd (categoryStorage.delete Cases.roomy Cases.fixed_text
           (Cases.fixed_parse ([] : list Category)) heap "1") in
  let getAll :=
    categoryStorage.getAll Cases.roomy Cases.fixed_text
      (Cases.fixed_parse ([] : list Category)) emptied in
  localStorage (categoryStorage.browser emptied) !! STORAGE_KEYS.CATEGORIES
  = Some (Cases.fixed_text ([] : list Category))
  /\ categoryStorage.read (snd getAll) (fst getAll) = DEFAULT_CATEGORIES
  /\ categoryStorage.read (snd getAll) (fst getAll) <> []
  /\ categoryStorage.reachable Cases.roomy
       Cases.fixed_text
       (Cases.fixed_parse ([] : list Category)) (snd getAll).
Proof.
  cbv zeta.
  split; [reflexivity|]. split; [reflexivity|].
  refine (let H := categoryStorage_getAll_never_empty Cases.roomy
                     Cases.fixed_text
                     (Cases.fixed_parse ([] : list Category)) _ _ in
          conj (proj1 H) (proj1 (proj2 H))).
  exists (Cases.online ∅). split; [reflexivity|].
  eapply rtc_l; [apply categoryStorage.step_delete | apply rtc_refl].
Defined.

Lemma categoryStorage_add_grows_defaults_witness :
  let heap :=
    {| categoryStorage.browser := Cases.server;
       categoryStorage.default_categories := DEFAULT_CATEGORIES |} in
  let add :=
    categoryStorage.add Cases.roomy Cases.fixed_text
      (Cases.fixed_parse DEFAULT_CATEGORIES) heap Cases.pets in
  let getAll :=
    categoryStorage.getAll Cases.roomy Cases.fixed_text
      (Cases.fixed_parse DEFAULT_CATEGORIES) (snd add) in
  fst add = false
  /\ categoryStorage.read (snd getAll) (fst getAll)
     = DEFAULT_CATEGORIES ++ [Cases.pets].
Proof.
  cbv zeta.
  apply (proj2 (proj2 (categoryStorage_add_grows_defaults Cases.roomy
                         Cases.fixed_text
                         (Cases.fixed_parse DEFAULT_CATEGORIES)
                         {| categoryStorage.browser := Cases.server;
                            categoryStorage.default_categories :=
                              DEFAULT_CATEGORIES |}
                         Cases.pets))).
  reflexivity.
Defined.

(** ** The hook keeps the balances reconciled *)

Section HookProperties.
Context {N : JSNumber}.
Variable accepts : gmap string string -> string -> string -> bool.
Variable stringifyTransactions : list Transaction -> string.
Variable parseTransactions : string -> option (list Transaction).
Variable stringifyAccounts : list Account -> string.
Variable parseAccounts : string -> option (list Account).
Implicit Types (s : useFinancialData.App) (t : Transaction) (a : Account)
  (txns : list Transaction).

Local Abbreviation App := useFinancialData.App.
Local Abbreviation st_browser := useFinancialData.st_browser.
Local Abbreviation st_transactions := useFinancialData.st_transactions.
Local Abbreviation st_accounts := useFinancialData.st_accounts.
Local Abbreviation with_id := useFinancialData.with_id.
Local Abbreviation with_balance := useFinancialData.with_balance.
Local Abbreviation reconciled := useFinancialData.reconciled.
Local Abbreviation accounts_exist := useFinancialData.accounts_exist.
Local Abbreviation transactions_stored :=
  (useFinancialData.transactions_stored parseTransactions).
Local Abbreviation addTransaction :=
  (useFinancialData.addTransaction accepts stringifyTransactions
     parseTransactions stringifyAccounts parseAccounts).
Local Abbreviation updateTransaction :=
  (useFinancialData.updateTransaction accepts stringifyTransactions
     parseTransactions stringifyAccounts parseAccounts).
Local Abbreviation deleteTransaction :=
  (useFinancialData.deleteTransaction accepts stringifyTransactions
     parseTransactions stringifyAccounts parseAccounts).
Local Abbreviation addAccount :=
  (useFinancialData.addAccount accepts stringifyAccounts parseAccounts).
Local Abbreviation updateAccount :=
  (useFinancialData.updateAccount accepts stringifyAccounts parseAccounts).
Local Abbreviation deleteAccount :=
  (useFinancialData.deleteAccount accepts stringifyAccounts parseAccounts).

(** The reconciled balance reads the account's id and initial balance
    only. *)
Lemma updateAccountBalance_with_balance a (b : number) txns :
  updateAccountBalance (with_balance a b) txns = updateAccountBalance a txns.
Proof. reflexivity. Qed.


Lemma find_id_some (accounts : list Account) (i : string) a :
  List.find (fun a => String.eqb (acc_id a) i) accounts = Some a ->
  In a accounts /\ acc_id a = i.
Proof.
  intros H. apply List.find_some in H as [H1 H2].
  apply String.eqb_eq in H2. auto.
Qed.

(** The accounts after one account's balance is recomputed: every account
    is reconciled against [txns'] when those left alone are. *)
Lemma replaced_reconciled (accounts : list Account) account txns' :
  (forall a, In a accounts -> acc_id a <> acc_id account ->
     acc_balance a = updateAccountBalance a txns') ->
  forall a,
    In a (map (fun a => if String.eqb (acc_id a) (acc_id account)
                        then with_balance account
                               (updateAccountBalance account txns')
                        else a) accounts) ->
    acc_balance a = updateAccountBalance a txns'.
Proof.
  intros H a Ha. apply in_map_iff in Ha as (a0 & E & Hin).
  destruct (String.eqb_spec (acc_id a0) (acc_id account)) as [Hid | Hid];
    subst a.
  - reflexivity.
  - apply H; assumption.
Qed.

(** X25.  [addTransaction] keeps the balances reconciled: when every account
    of the state shows the balance that [updateAccountBalance] computes from
    the transactions of the state, it still does after the call, whether the
    transaction was saved or not, and whatever its account and status. *)
Theorem addTransaction_reconciled s (transactionData : Transaction)
    (id : string) :
  reconciled s -> reconciled (snd (addTransaction s transactionData id)).
Proof.
  intros Hr. unfold useFinancialData.addTransaction.
  destruct (entityStorage.add _ _ _ _ _ _) as [success browser1].
  destruct success; [|exact Hr].
  set (new := with_id transactionData id).
  assert (Hother : forall a, In a (st_accounts s) ->
             acc_id a <> tx_accountId new \/ tx_status new <> concluida ->
             acc_balance a
             = updateAccountBalance a (st_transactions s ++ [new])).
  { intros a Ha Hn. rewrite (Hr a Ha).
    symmetry. apply updateAccountBalance_rule. right.
    intros [H1 H2]. destruct Hn as [Hn | Hn]; [apply Hn; symmetry|];
      congruence. }
  destruct (find _ (st_accounts s)) as [account|] eqn:Hf.
  - apply find_id_some in Hf as [Hin Hid].
    destruct (bool_decide (tx_status new = concluida)) eqn:Hs; simpl.
    + unfold reconciled. cbn [st_accounts st_transactions].
      apply replaced_reconciled. intros a Ha Hne. apply Hother; [exact Ha|].
      left. congruence.
    + apply bool_decide_eq_false in Hs. intros a Ha. apply Hother; auto.
  - simpl. intros a Ha. apply Hother; [exact Ha|]. left.
    intros E. apply (List.find_none _ _ Hf) in Ha.
    apply String.eqb_neq in Ha. contradiction.
Qed.









(** X28.  [deleteAccount] refuses to delete an account that a transaction of
    the state names: it throws and leaves the accounts and the browser as
    they are.  So no operation on accounts leaves a transaction without its
    account: when every transaction names an existing account before
    [addAccount], [updateAccount] or [deleteAccount], every one does after
    it; and none of the three changes the transactions. *)
Theorem account_operations_keep_accounts s :
  (forall id, (exists t, In t (st_transactions s) /\ tx_accountId t = id) ->
     fst (deleteAccount s id) = None
     /\ st_accounts (snd (deleteAccount s id)) = st_accounts s
     /\ st_browser (snd (deleteAccount s id)) = st_browser s)
  /\ (accounts_exist s ->
      (forall id, accounts_exist (snd (deleteAccount s id)))
      /\ (forall accountData id,
            accounts_exist (snd (addAccount s accountData id)))
      /\ (forall updatedAccount,
            accounts_exist (snd (updateAccount s updatedAccount))))
  /\ (forall id, st_transactions (snd (deleteAccount s id))
                 = st_transactions s)
  /\ (forall accountData id,
        st_transactions (snd (addAccount s accountData id))
        = st_transactions s)
  /\ (forall updatedAccount,
        st_transactions (snd (updateAccount s updatedAccount))
        = st_transactions s).
Proof.
  assert (Hex : forall id t, In t (st_transactions s) ->
             existsb (fun t => String.eqb (tx_accountId t) id)
                     (st_transactions s) = false ->
             tx_accountId t <> id).
  { intros id t Ht Hf E.
    assert (H : existsb (fun t => String.eqb (tx_accountId t) id)
                        (st_transactions s) = true).
    { apply existsb_exists. exists t. split; [exact Ht|].
      apply String.eqb_eq, E. }
    congruence. }
  split; [|split; [|split; [|split]]].
  - intros id (t & Ht & Hid). unfold useFinancialData.deleteAccount.
    destruct (existsb _ (st_transactions s)) eqn:E; [repeat split|].
    exfalso. exact (Hex id t Ht E Hid).
  - intros Hc. split; [|split].
    + intros id. unfold useFinancialData.deleteAccount.
      destruct (existsb _ (st_transactions s)) eqn:E; [exact Hc|].
      destruct (entityStorage.delete _ _ _ _ _ _ _) as [success browser1].
      destruct success; [|exact Hc].
      intros t Ht. cbn [snd useFinancialData.st_accounts
                          useFinancialData.st_transactions] in Ht.
      cbn [snd useFinancialData.st_accounts].
      destruct (Hc t Ht) as (a & Ha & Hid). exists a.
      split; [|exact Hid]. apply In_filter_iff. split; [exact Ha|].
      apply negb_true_iff, String.eqb_neq. rewrite Hid.
      exact (Hex id t Ht E).
    + intros accountData id. unfold useFinancialData.addAccount.
      destruct (entityStorage.add _ _ _ _ _ _) as [success browser1].
      destruct success; [|exact Hc].
      intros t Ht. destruct (Hc t Ht) as (a & Ha & Hid). exists a.
      split; [|exact Hid]. cbn [snd useFinancialData.st_accounts].
      apply in_or_app. left. exact Ha.
    + intros updatedAccount. unfold useFinancialData.updateAccount.
      destruct (entityStorage.update _ _ _ _ _ _ _) as [success browser1].
      destruct success; [|exact Hc].
      intros t Ht. destruct (Hc t Ht) as (a & Ha & Hid).
      cbn [snd useFinancialData.st_accounts].
      destruct (String.eqb_spec (acc_id a) (acc_id updatedAccount))
        as [E | E].
      * exists updatedAccount. split; [|congruence].
        apply in_map_iff. exists a. split; [|exact Ha].
        rewrite (proj2 (String.eqb_eq _ _) E). reflexivity.
      * exists a. split; [|exact Hid].
        apply in_map_iff. exists a. split; [|exact Ha].
        rewrite (proj2 (String.eqb_neq _ _) E). reflexivity.
  - intros id. unfold useFinancialData.deleteAccount.
    destruct (existsb _ _); [reflexivity|].
    destruct (entityStorage.delete _ _ _ _ _ _ _) as [success browser1].
    destruct success; reflexivity.
  - intros accountData id. unfold useFinancialData.addAccount.
    destruct (entityStorage.add _ _ _ _ _ _) as [success browser1].
    destruct success; reflexivity.
  - intros updatedAccount. unfold useFinancialData.updateAccount.
    destruct (entityStorage.update _ _ _ _ _ _ _) as [success browser1].
    destruct success; reflexivity.
Qed.

(** X29.  When [addTransaction] throws, the transactions, the accounts and
    the browser are as before the call.  When the stored transactions are
    those of the state, the browser has a window and the list with the new
    transaction survives the way through storage, it resolves to the new
    transaction, which is appended to the transactions of the state, and the
    stored transactions are again those of the state. *)
Theorem addTransaction_stores s (transactionData : Transaction)
    (id : string) :
  let newTransaction := with_id transactionData id in
  (fst (addTransaction s transactionData id) = None ->
   st_transactions (snd (addTransaction s transactionData id))
   = st_transactions s
   /\ st_accounts (snd (addTransaction s transactionData id))
      = st_accounts s
   /\ st_browser (snd (addTransaction s transactionData id))
      = st_browser s)
  /\ (transactions_stored s ->
      has_window (st_browser s) = true ->
      entityStorage.survives accepts stringifyTransactions
        parseTransactions STORAGE_KEYS.TRANSACTIONS (st_browser s)
        (st_transactions s ++ [newTransaction]) ->
      fst (addTransaction s transactionData id) = Some newTransaction
      /\ st_transactions (snd (addTransaction s transactionData id))
         = st_transactions s ++ [newTransaction]
      /\ transactions_stored (snd (addTransaction s transactionData id))).
Proof.
  cbv zeta. unfold useFinancialData.addTransaction. split.
  - pose proof (save_fails accepts stringifyTransactions
                  STORAGE_KEYS.TRANSACTIONS (st_browser s)
                  (entityStorage.getAll parseTransactions
                     STORAGE_KEYS.TRANSACTIONS (st_browser s)
                   ++ [with_id transactionData id])) as Hf.
    fold (entityStorage.add accepts stringifyTransactions parseTransactions
            STORAGE_KEYS.TRANSACTIONS (st_browser s)
            (with_id transactionData id)) in Hf.
    destruct (entityStorage.add _ _ _ _ _ _) as [success browser1].
    destruct success.
    + destruct (find _ (st_accounts s));
        [destruct (bool_decide _)|]; discriminate.
    + intros _. simpl in Hf. rewrite (Hf eq_refl). auto.
  - intros Hst Hw Hs. unfold transactions_stored in Hst.
    unfold entityStorage.add. rewrite Hst.
    destruct (save_survives accepts stringifyTransactions
                parseTransactions STORAGE_KEYS.TRANSACTIONS (st_browser s)
                (st_transactions s ++ [with_id transactionData id]) Hw Hs)
      as (H1 & H2 & _).
    destruct (entityStorage.save _ _ _ _ _) as [success browser1].
    simpl in H1, H2. subst success.
    destruct (find _ (st_accounts s)) as [account|];
      [destruct (bool_decide _)|]; simpl;
      (split; [reflexivity|]); (split; [reflexivity|]);
      unfold transactions_stored; simpl; try exact H2.
    unfold entityStorage.getAll. rewrite update_frame by discriminate.
    exact H2.
Qed.

End HookProperties.

Lemma addTransaction_reconciled_witness :
  let added :=
    Cases.addTransaction Cases.app
      (Cases.entry EmptyString despesa concluida 200) "t2" in
  useFinancialData.reconciled Cases.app
  /\ useFinancialData.reconciled (snd added)
  /\ useFinancialData.st_accounts (snd added)
     = [Sample.account "acc1" 1300 1000 true].
Proof.
  cbv zeta.
  assert (H : useFinancialData.reconciled Cases.app)
    by (intros a [<- | []]; reflexivity).
  split; [exact H|]. split; [|reflexivity].
  exact (addTransaction_reconciled Cases.roomy Cases.fixed_text _
           Cases.fixed_text _ Cases.app _ "t2" H).
Defined.



Lemma account_operations_keep_accounts_witness :
  let deleted := Cases.deleteAccount Cases.app "acc1" in
  useFinancialData.accounts_exist Cases.app
  /\ fst deleted = None
  /\ useFinancialData.accounts_exist (snd deleted).
Proof.
  cbv zeta.
  assert (H : useFinancialData.accounts_exist Cases.app).
  { intros t [<- | []]. exists (Sample.account "acc1" 1500 1000 true).
    split; [left|]; reflexivity. }
  pose proof (account_operations_keep_accounts Cases.roomy Cases.fixed_text
                (Cases.fixed_parse (useFinancialData.st_accounts Cases.app))
                Cases.app)
    as (Hrefuse & Hkeep & _).
  split; [exact H|]. split; [|exact (proj1 (Hkeep H) "acc1")].
  apply Hrefuse. exists Cases.income. split; [left|]; reflexivity.
Defined.

Lemma addTransaction_stores_witness :
  let data := Cases.entry EmptyString receita concluida 500 in
  let parse := Cases.fixed_parse [useFinancialData.with_id data "t1"] in
  let added :=
    useFinancialData.addTransaction Cases.roomy Cases.fixed_text parse
      Cases.fixed_text
      (Cases.fixed_parse (useFinancialData.st_accounts Cases.empty_app))
      Cases.empty_app data "t1" in
  fst added = Some (useFinancialData.with_id data "t1")
  /\ useFinancialData.st_transactions (snd added)
     = [] ++ [useFinancialData.with_id data "t1"]
  /\ useFinancialData.transactions_stored parse (snd added).
Proof.
  cbv zeta.
  apply (proj2 (addTransaction_stores Cases.roomy Cases.fixed_text
                  (Cases.fixed_parse
                     [useFinancialData.with_id
                        (Cases.entry EmptyString receita concluida 500)
                        "t1"])
                  Cases.fixed_text
                  (Cases.fixed_parse
                     (useFinancialData.st_accounts Cases.empty_app))
                  Cases.empty_app
                  (Cases.entry EmptyString receita concluida 500) "t1")).
  - reflexivity.
  - reflexivity.
  - split; [reflexivity|]. split; [discriminate | reflexivity].
Defined.

(** ** The next due date of a card *)

Lemma YearFromTime_spec (t : Z) :
  Calendar.DayFromYear (DateFields.YearFromTime t) <= DateFields.Day t
  < Calendar.DayFromYear (DateFields.YearFromTime t + 1).
Proof.
  unfold DateFields.YearFromTime. cbv zeta.
  generalize (DateFields.Day t). intros day.
  destruct (Z.leb_spec (Calendar.DayFromYear
                          (1970 + 400 * day / 146097 + 1)) day) as [H1 | H1].
  - split; [exact H1|]. clear H1. unfold Calendar.DayFromYear.
    Z.div_mod_to_equations. lia.
  - destruct (Z.leb_spec (Calendar.DayFromYear (1970 + 400 * day / 146097))
                         day) as [H2 | H2].
    + split; [exact H2 | exact H1].
    + split.
      * clear H1 H2. unfold Calendar.DayFromYear.
        Z.div_mod_to_equations. lia.
      * replace (1970 + 400 * day / 146097 - 1 + 1)
          with (1970 + 400 * day / 146097) by lia.
        exact H2.
Qed.

Lemma MakeDay_in_year (y m : Z) :
  0 <= m <= 11 ->
  Calendar.MakeDay y m 1
  = Calendar.DayFromYear y
    + Calendar.DayWithinYear (Calendar.InLeapYear y) m.
Proof.
  intros H. pose proof (MakeDay_first_of_month y (m + 1) ltac:(lia)) as E.
  replace (m + 1 - 1) with m in E by lia. exact E.
Qed.

Lemma MakeDay_next_year (y : Z) :
  Calendar.MakeDay y 12 1 = Calendar.DayFromYear (y + 1).
Proof.
  unfold Calendar.MakeDay. change (12 / 12) with 1. change (12 mod 12) with 0.
  cbn [Calendar.DayWithinYear]. lia.
Qed.

Lemma MakeDay_start (y m : Z) :
  0 <= m <= 12 ->
  Calendar.MakeDay y m 1
  = Calendar.DayFromYear y
    + (if m =? 12
       then 365 + (if Calendar.InLeapYear y then 1 else 0)
       else Calendar.DayWithinYear (Calendar.InLeapYear y) m).
Proof.
  intros H. destruct (Z.eqb_spec m 12) as [-> | Hne].
  - rewrite MakeDay_next_year, DayFromYear_succ. lia.
  - apply MakeDay_in_year. lia.
Qed.

Lemma MonthFromTime_spec (t : Z) :
  0 <= DateFields.MonthFromTime t <= 11
  /\ Calendar.MakeDay (DateFields.YearFromTime t)
                      (DateFields.MonthFromTime t) 1
     <= DateFields.Day t
     < Calendar.MakeDay (DateFields.YearFromTime t)
                        (DateFields.MonthFromTime t + 1) 1.
Proof.
  pose proof (YearFromTime_spec t) as Hy.
  rewrite DayFromYear_succ in Hy.
  assert (Hm : 0 <= DateFields.MonthFromTime t <= 11).
  { unfold DateFields.MonthFromTime. cbv zeta.
    repeat match goal with
           | |- context [if ?a <? ?b then _ else _] =>
               destruct (a <? b)
           end; lia. }
  split; [exact Hm|].
  rewrite !MakeDay_start by lia.
  revert Hm. unfold DateFields.MonthFromTime. cbv zeta.
  revert Hy.
  generalize (DateFields.Day t) (DateFields.YearFromTime t). intros day y.
  generalize (Calendar.DayFromYear y). intros first Hy _.
  destruct (Calendar.InLeapYear y); cbn [Calendar.DayWithinYear];
    repeat match goal with
           | |- context [if ?a <? ?b then _ else _] =>
               destruct (Z.ltb_spec a b)
           end;
    simpl; lia.
Qed.

Lemma DaysInMonth_le (leap : bool) (mn : Z) :
  Calendar.DaysInMonth leap mn <= 31.
Proof.
  unfold Calendar.DaysInMonth.
  destruct mn as [|p|p]; try lia;
    repeat (destruct p as [p|p|]; try lia); destruct leap; lia.
Qed.

Lemma YearFromTime_since_1970 (t : Z) :
  0 <= t -> 1970 <= DateFields.YearFromTime t.
Proof.
  intros Ht. pose proof (YearFromTime_spec t) as [_ H].
  assert (Hd : 0 <= DateFields.Day t).
  { unfold DateFields.Day, msPerDay. Z.div_mod_to_equations. lia. }
  revert H Hd. generalize (DateFields.Day t) (DateFields.YearFromTime t).
  intros day y H Hd. unfold Calendar.DayFromYear in H.
  Z.div_mod_to_equations. lia.
Qed.

Section NextDueDateProperties.
Context {N : JSNumber}.
Variable LocalTZA_utc : Z -> Z.
Variable LocalTZA : Z -> Z.
Variable offset : Z.
Hypothesis offset_at_utc : forall t, LocalTZA_utc t = offset.
Hypothesis offset_at_local : forall t, LocalTZA t = offset.

(** X30.  With local time at a constant offset from UTC and a clock that
    reads a local time not before 1970, the next due date of a card whose
    due day lies between 1 and 31 is strictly after the clock reading and at
    most 31 days after it. *)
Theorem getNextDueDate_future (today : Date) (creditCard : CreditCard) :
  0 <= today + offset ->
  1 <= cc_dueDate creditCard <= 31 ->
  today < getNextDueDate LocalTZA_utc LocalTZA today creditCard
  <= today + 31 * msPerDay.
Proof.
  intros Ht Hd. unfold getNextDueDate. cbv zeta.
  unfold DateFields.getFullYear, DateFields.getMonth, DateFields.LocalTime.
  rewrite offset_at_utc.
  pose proof (YearFromTime_since_1970 _ Ht) as Hy.
  pose proof (MonthFromTime_spec (today + offset)) as (Hm & Hday).
  rewrite !(new_Date_month_index LocalTZA offset offset_at_local) by lia.
  rewrite <- !MakeDay_months.
  pose proof (MakeDay_last_of_month (DateFields.YearFromTime (today + offset))
                (DateFields.MonthFromTime (today + offset) + 1)
                ltac:(lia)) as Hlen.
  replace (DateFields.MonthFromTime (today + offset) + 1 - 1)
    with (DateFields.MonthFromTime (today + offset)) in Hlen by lia.
  pose proof (DaysInMonth_le
                (Calendar.InLeapYear
                   (DateFields.YearFromTime (today + offset)))
                (DateFields.MonthFromTime (today + offset))) as Hle.
  assert (E : forall month,
             Calendar.MakeDay (DateFields.YearFromTime (today + offset))
                              month (cc_dueDate creditCard)
             = Calendar.MakeDay (DateFields.YearFromTime (today + offset))
                                month 1
               + cc_dueDate creditCard - 1).
  { intros month. unfold Calendar.MakeDay. lia. }
  rewrite !E. revert Hday Hlen Hle.
  generalize (Calendar.MakeDay (DateFields.YearFromTime (today + offset))
                (DateFields.MonthFromTime (today + offset)) 1)
    (Calendar.MakeDay (DateFields.YearFromTime (today + offset))
                (DateFields.MonthFromTime (today + offset) + 1) 1)
    (Calendar.DaysInMonth
       (Calendar.InLeapYear (DateFields.YearFromTime (today + offset)))
       (DateFields.MonthFromTime (today + offset))).
  intros first next len Hday Hlen Hle.
  unfold DateFields.Day, msPerDay in Hday. unfold msPerDay.
  destruct (Z.leb_spec ((first + cc_dueDate creditCard - 1)
                        * (24 * 60 * 60 * 1000) - offset) today);
    Z.div_mod_to_equations; lia.
Qed.

End NextDueDateProperties.

Lemma getNextDueDate_future_witness :
  (0 <= Sample.today + - (3 * 60 * 60 * 1000)
   /\ 1 <= cc_dueDate (Cases.due_on 10) <= 31)
  /\ Sample.today
     < getNextDueDate Sample.utc_minus_3 Sample.utc_minus_3 Sample.today
                      (Cases.due_on 10)
     <= Sample.today + 31 * msPerDay.
Proof.
  split; [vm_compute; intuition discriminate|].
  apply (getNextDueDate_future Sample.utc_minus_3 Sample.utc_minus_3
           (- (3 * 60 * 60 * 1000)) (fun t => eq_refl) (fun t => eq_refl)
           Sample.today (Cases.due_on 10));
    vm_compute; intuition discriminate.
Defined.
